(** * sonar-demo: the MODIS fetcher and the sonar/MODIS joiner

    A shallow embedding of the two notebooks of the repository:
    - the download notebook ([ncdf_dir], [urls] and the download loop);
    - [03-extract-modis-data.ipynb] ([find_month], [get_raster_path],
      [extract_raster], [augment_df] and the [pool.map] / [pd.concat] cell).

    Python exceptions are values of [exn]; a computation that can raise has
    type [result A].  Strings are [string]s of one-character code points,
    binary32 and binary64 numbers are [spec_float]s with the precision of
    their dtype. *)

From Stdlib Require Import List String Ascii Bool Arith ZArith Lia.
From Stdlib Require Import Floats.SpecFloat.
From Stdlib Require Import Sorting.Sorted Sorting.Permutation.
Import ListNotations.
Open Scope string_scope.
Open Scope list_scope.
Open Scope nat_scope.

(** ** Exceptions and the error monad *)

Inductive exn : Type :=
| IndexError
| KeyError
| AttributeError
| ValueError
| TypeError
| AssertionError
| RasterioIOError
| FileExistsError
| FileNotFoundError
| NotADirectoryError
| IsADirectoryError
| URLError
| ConnectionError.

Inductive result (A : Type) : Type :=
| OK (a : A)
| Raise (e : exn).

Arguments OK {A} a.
Arguments Raise {A} e.

Definition bind {A B : Type} (r : result A) (k : A -> result B) : result B :=
  match r with
  | OK a => k a
  | Raise e => Raise e
  end.

Notation "x <- r ;; k" := (bind r (fun x => k))
  (at level 61, r at next level, right associativity).

Definition raises {A : Type} (r : result A) : Prop := exists e, r = Raise e.

(** [assert cond] *)
Definition assert (b : bool) : result unit :=
  if b then OK tt else Raise AssertionError.

(** ** Strings *)

Module Str.

(** [str.isspace] on one character: the ASCII white space, the four
    separators U+001C..U+001F, U+0085 and U+00A0. *)
Definition isspace (c : ascii) : bool :=
  let n := nat_of_ascii c in
  ((9 <=? n) && (n <=? 13)) || ((28 <=? n) && (n <=? 32))
  || (n =? 133) || (n =? 160).

Fixpoint lstrip (s : string) : string :=
  match s with
  | EmptyString => EmptyString
  | String c s' => if isspace c then lstrip s' else s
  end.

Fixpoint rstrip (s : string) : string :=
  match s with
  | EmptyString => EmptyString
  | String c s' =>
      match rstrip s' with
      | EmptyString => if isspace c then EmptyString else String c EmptyString
      | r => String c r
      end
  end.

(** [s.strip()] *)
Definition strip (s : string) : string := rstrip (lstrip s).

Definition startswith (p s : string) : bool := String.prefix p s.

Fixpoint endswith_char (c : ascii) (s : string) : bool :=
  match s with
  | EmptyString => false
  | String d EmptyString => Ascii.eqb c d
  | String _ s' => endswith_char c s'
  end.

Definition digit_char (n : nat) : ascii := ascii_of_nat (48 + n).

Definition digit_val (c : ascii) : option nat :=
  let n := nat_of_ascii c in
  if (48 <=? n) && (n <=? 57) then Some (n - 48) else None.

(** [str(n)] for a non-negative integer: its decimal digits. *)
Fixpoint str_fuel (fuel n : nat) (acc : string) : string :=
  match fuel with
  | O => acc
  | S fuel' =>
      let acc' := String (digit_char (n mod 10)) acc in
      if n <? 10 then acc' else str_fuel fuel' (n / 10) acc'
  end.

Definition str (n : nat) : string := str_fuel (S n) n EmptyString.

End Str.

(** ** [os.path] (POSIX flavour) *)

Module os_path.

Definition sep : ascii := "/"%char.

(** One step of the loop of [posixpath.join]. *)
Definition join2 (path b : string) : string :=
  if Str.startswith (String sep EmptyString) b then b
  else if (String.eqb path EmptyString) || Str.endswith_char sep path
       then (path ++ b)%string
       else (path ++ String sep b)%string.

(** [os.path.join(a, *p)] *)
Definition join (a : string) (p : list string) : string :=
  fold_left join2 p a.

(** [p[:i], p[i:]] for [i = p.rfind('/') + 1]. *)
Fixpoint rpartition (p : string) : string * string :=
  match p with
  | EmptyString => (EmptyString, EmptyString)
  | String c p' =>
      match rpartition p' with
      | (EmptyString, t) =>
          if Ascii.eqb c sep then (String c EmptyString, t)
          else (EmptyString, String c t)
      | (h, t) => (String c h, t)
      end
  end.

Fixpoint all_sep (s : string) : bool :=
  match s with
  | EmptyString => true
  | String c s' => Ascii.eqb c sep && all_sep s'
  end.

(** [s.rstrip('/')] *)
Fixpoint rstrip_sep (s : string) : string :=
  match s with
  | EmptyString => EmptyString
  | String c s' =>
      match rstrip_sep s' with
      | EmptyString => if Ascii.eqb c sep then EmptyString else String c EmptyString
      | r => String c r
      end
  end.

(** [os.path.split(p)] *)
Definition split (p : string) : string * string :=
  let (head, tail) := rpartition p in
  if negb (String.eqb head EmptyString) && negb (all_sep head)
  then (rstrip_sep head, tail)
  else (head, tail).

End os_path.

(** ** [datetime.strptime] with the format ['%Y-%m-%d']

    [_strptime] turns the format into the regular expression
    [(?P<Y>\d\d\d\d)-(?P<m>1[0-2]|0[1-9]|[1-9])-(?P<d>3[0-1]|[1-2]\d|0[1-9]|[1-9]| [1-9])],
    matches it at the start of the string, refuses unconverted data after
    the match and builds the date, whose constructor checks the fields.
    The expression is run as a backtracking matcher: the list of ways to
    match, in the order the regex engine tries them. *)

Module datetime.

Definition matcher (A : Type) : Type := string -> list (A * string).

Definition mret {A : Type} (a : A) : matcher A := fun s => [(a, s)].

Definition mbind {A B : Type} (m : matcher A) (k : A -> matcher B) : matcher B :=
  fun s => flat_map (fun '(a, r) => k a r) (m s).

Definition alt {A : Type} (m1 m2 : matcher A) : matcher A :=
  fun s => m1 s ++ m2 s.

(** A character class of digits, [[lo-hi]]. *)
Definition digit_in (lo hi : nat) : matcher nat :=
  fun s =>
    match s with
    | String c r =>
        match Str.digit_val c with
        | Some n => if (lo <=? n) && (n <=? hi) then [(n, r)] else []
        | None => []
        end
    | EmptyString => []
    end.

Definition lit (c : ascii) : matcher unit :=
  fun s =>
    match s with
    | String d r => if Ascii.eqb c d then [(tt, r)] else []
    | EmptyString => []
    end.

Notation "x <~ m ;; k" := (mbind m (fun x => k))
  (at level 61, m at next level, right associativity).

(** [\d\d\d\d] *)
Definition re_Y : matcher nat :=
  a <~ digit_in 0 9 ;; b <~ digit_in 0 9 ;;
  c <~ digit_in 0 9 ;; d <~ digit_in 0 9 ;;
  mret (1000 * a + 100 * b + 10 * c + d).

(** [1[0-2]|0[1-9]|[1-9]] *)
Definition re_m : matcher nat :=
  alt (_ <~ lit "1" ;; c <~ digit_in 0 2 ;; mret (10 + c))
 (alt (_ <~ lit "0" ;; c <~ digit_in 1 9 ;; mret c)
      (digit_in 1 9)).

(** [3[0-1]|[1-2]\d|0[1-9]|[1-9]| [1-9]] *)
Definition re_d : matcher nat :=
  alt (_ <~ lit "3" ;; c <~ digit_in 0 1 ;; mret (30 + c))
 (alt (a <~ digit_in 1 2 ;; b <~ digit_in 0 9 ;; mret (10 * a + b))
 (alt (_ <~ lit "0" ;; c <~ digit_in 1 9 ;; mret c)
 (alt (digit_in 1 9)
      (_ <~ lit " " ;; digit_in 1 9)))).

(** The part of the expression after the year: [-%m-%d]. *)
Definition re_md : matcher (nat * nat) :=
  _ <~ lit "-" ;; m <~ re_m ;; _ <~ lit "-" ;; d <~ re_d ;; mret (m, d).

Definition re_Ymd : matcher (nat * (nat * nat)) :=
  y <~ re_Y ;; md <~ re_md ;; mret (y, md).

Record t : Type := mk { year : nat; month : nat; day : nat }.

Definition is_leap (y : nat) : bool :=
  (y mod 4 =? 0) && (negb (y mod 100 =? 0) || (y mod 400 =? 0)).

Definition days_in_month (y m : nat) : nat :=
  match m with
  | 2 => if is_leap y then 29 else 28
  | 4 | 6 | 9 | 11 => 30
  | _ => 31
  end.

Definition MINYEAR : nat := 1.
Definition MAXYEAR : nat := 99 * 101.   (* 9999 *)

(** The field checks of the [date] constructor. *)
Definition check_date_fields (y m d : nat) : bool :=
  (MINYEAR <=? y) && (y <=? MAXYEAR) && (1 <=? m) && (m <=? 12)
  && (1 <=? d) && (d <=? days_in_month y m).

(** [datetime.datetime.strptime(date_string, '%Y-%m-%d')] *)
Definition strptime (date_string : string) : result t :=
  match re_Ymd date_string with
  | [] => Raise ValueError
  | ((y, (m, d)), rest) :: _ =>
      match rest with
      | EmptyString =>
          if check_date_fields y m d then OK (mk y m d) else Raise ValueError
      | _ => Raise ValueError
      end
  end.

End datetime.

(** ** Data frames

    A cell is a Python string, an [int64] or a float of one of the two
    float dtypes.  A frame is its index length and its columns in order,
    each a label and the values of its rows. *)

Inductive dtype : Type := float32 | float64.

Definition prec (d : dtype) : Z :=
  match d with float32 => 24%Z | float64 => 53%Z end.

Definition emax (d : dtype) : Z :=
  match d with float32 => 128%Z | float64 => 1024%Z end.

Inductive cell : Type :=
| CStr (s : string)
| CInt (z : Z)
| CFloat (d : dtype) (x : spec_float).

Definition column : Type := list cell.

Record DataFrame : Type := mkDF {
  nrows : nat;
  columns : list (string * column)
}.

Definition dtype_eqb (a b : dtype) : bool :=
  match a, b with
  | float32, float32 | float64, float64 => true
  | _, _ => false
  end.

Definition spec_float_eqb (x y : spec_float) : bool :=
  match x, y with
  | S754_zero s, S754_zero s' => Bool.eqb s s'
  | S754_infinity s, S754_infinity s' => Bool.eqb s s'
  | S754_nan, S754_nan => true
  | S754_finite s m e, S754_finite s' m' e' =>
      Bool.eqb s s' && Pos.eqb m m' && Z.eqb e e'
  | _, _ => false
  end.

Definition cell_eqb (a b : cell) : bool :=
  match a, b with
  | CStr s, CStr s' => String.eqb s s'
  | CInt z, CInt z' => Z.eqb z z'
  | CFloat d x, CFloat d' x' => dtype_eqb d d' && spec_float_eqb x x'
  | _, _ => false
  end.

(** Lookup in a dict or in the columns of a frame. *)
Fixpoint lookup {V : Type} (k : string) (l : list (string * V)) : option V :=
  match l with
  | [] => None
  | (k', v) :: l' => if String.eqb k k' then Some v else lookup k l'
  end.

(** [d[k]] on a dict, [df[k]] on a frame: [KeyError] on a missing key. *)
Definition getitem {V : Type} (l : list (string * V)) (k : string) : result V :=
  match lookup k l with
  | Some v => OK v
  | None => Raise KeyError
  end.

(** [df.name]: attribute access to a column. *)
Definition getattr (df : DataFrame) (name : string) : result column :=
  match lookup name (columns df) with
  | Some c => OK c
  | None => Raise AttributeError
  end.

(** [Series.unique()]: the distinct values in order of first appearance. *)
Fixpoint unique_aux (seen : list cell) (l : list cell) : list cell :=
  match l with
  | [] => []
  | c :: l' =>
      if existsb (cell_eqb c) seen then unique_aux seen l'
      else c :: unique_aux (c :: seen) l'
  end.

Definition unique (l : column) : list cell := unique_aux [] l.

(** [a[0]] *)
Definition first {A : Type} (l : list A) : result A :=
  match l with
  | [] => Raise IndexError
  | a :: _ => OK a
  end.

(** [x.strip()] on a cell: only [str] has the method. *)
Definition cell_strip (c : cell) : result string :=
  match c with
  | CStr s => OK (Str.strip s)
  | _ => Raise AttributeError
  end.

(** ** The joiner: month inference and path resolution *)

Definition find_month (dataframe : DataFrame) : result nat :=
  Ping_date <- getattr dataframe "Ping_date" ;;
  x <- first (unique Ping_date) ;;
  date_string <- cell_strip x ;;
  date <- datetime.strptime date_string ;;
  let month := datetime.month date in
  OK month.

Definition month_dict : list (string * string) :=
  [("5", "may"); ("6", "jun"); ("7", "jul"); ("8", "aug"); ("9", "sep")].

Definition get_raster_path (dataframe : DataFrame) (var : string) : result string :=
  month <- find_month dataframe ;;
  _ <- assert (String.eqb var "chlor_a" || String.eqb var "sst") ;;
  abbr <- getitem month_dict (Str.str month) ;;
  let fname := (abbr ++ "_2013_" ++ var ++ ".nc")%string in
  let path := os_path.join "data" ["modis"; fname] in
  OK path.

(** ** Rasters and the outside world

    A band value is stored as an integer (the scaled [int16] of the SST
    files) or as a float.  An open dataset answers [sample] at a point with
    the values of its bands there.  The files on disk are the two
    functions of [World]. *)

Inductive raw : Type :=
| RInt (z : Z)
| RFloat (d : dtype) (x : spec_float).

Record Dataset : Type := mkDataset {
  sample : cell -> cell -> result (list raw)
}.

Record World : Type := mkWorld {
  pd_read_csv : string -> result DataFrame;
  rasterio_open : string -> result Dataset
}.

Module np.

Definition nan : spec_float := S754_nan.

(** Rounding to the nearest value of a dtype. *)
Definition round_to (d : dtype) (x : spec_float) : spec_float :=
  match x with
  | S754_finite s m e =>
      binary_normalize (prec d) (emax d) (cond_Zopp s (Zpos m)) e s
  | _ => x
  end.

Definition of_int (d : dtype) (z : Z) : spec_float :=
  binary_normalize (prec d) (emax d) z 0 false.

(** [.astype(np.float32)] on one value. *)
Definition astype_float32 (r : raw) : spec_float :=
  match r with
  | RInt z => of_int float32 z
  | RFloat float32 x => x
  | RFloat float64 x => round_to float32 x
  end.

(** [np.concatenate(arrays, axis=0)] on one-dimensional arrays. *)
Definition concatenate {A : Type} (arrays : list (list A)) : result (list A) :=
  match arrays with
  | [] => Raise ValueError
  | _ => OK (List.concat arrays)
  end.

End np.

(** The missing data value, [-32767.0], as a binary32 number. *)
Definition sentinel : spec_float := S754_finite true 16776704 (-9).

(** The same number as a binary64 number. *)
Definition sentinel64 : spec_float := S754_finite true 9006924376834048 (-38).

(** [vals[vals == -32767.0] = np.nan] *)
Definition mask_sentinel (vals : list spec_float) : list spec_float :=
  map (fun v => if SFeqb v sentinel then np.nan else v) vals.

(** [for ... in ...] in the error monad. *)
Fixpoint mapM {A B : Type} (f : A -> result B) (l : list A) : result (list B) :=
  match l with
  | [] => OK []
  | a :: l' => b <- f a ;; bs <- mapM f l' ;; OK (b :: bs)
  end.

Fixpoint foldM {A S : Type} (f : S -> A -> result S) (l : list A) (s : S) : result S :=
  match l with
  | [] => OK s
  | a :: l' => s' <- f s a ;; foldM f l' s'
  end.

(** Replace the values of the column [k], keeping its place. *)
Fixpoint replace_col (k : string) (vals : column) (l : list (string * column))
  : list (string * column) :=
  match l with
  | [] => []
  | (k', v) :: l' =>
      if String.eqb k k' then (k', vals) :: l' else (k', v) :: replace_col k vals l'
  end.

(** [df[k] = vals]: an array of the wrong length is refused; an existing
    column is overwritten in place, a new one is added last. *)
Definition setitem (df : DataFrame) (k : string) (vals : column) : result DataFrame :=
  if negb (List.length vals =? nrows df) then Raise ValueError
  else match lookup k (columns df) with
       | Some _ => OK (mkDF (nrows df) (replace_col k vals (columns df)))
       | None => OK (mkDF (nrows df) (columns df ++ [(k, vals)]))
       end.

(** The columns whose label is not among [labels]. *)
Definition without (labels : list string) (l : list (string * column))
  : list (string * column) :=
  filter (fun kv => negb (existsb (String.eqb (fst kv)) labels)) l.

(** [df.drop(columns=labels)]: every label must be a column. *)
Definition drop (df : DataFrame) (labels : list string) : result DataFrame :=
  if forallb (fun k => match lookup k (columns df) with Some _ => true | None => false end)
             labels
  then OK (mkDF (nrows df) (without labels (columns df)))
  else Raise KeyError.

(** ** The joiner: sampling *)

(** The array assigned to the new column: the samples at the points of the
    frame, flattened, cast, and with the missing data value masked. *)
Definition sampled_values (src : Dataset) (dataframe : DataFrame) : result (list spec_float) :=
  x <- getattr dataframe "Longitude" ;;
  y <- getattr dataframe "Latitude" ;;
  vals <- mapM (fun p => sample src (fst p) (snd p)) (combine x y) ;;
  vals <- np.concatenate vals ;;
  OK (map np.astype_float32 vals).

Definition extract_raster (w : World) (dataframe : DataFrame) (path newcol : string)
  : result DataFrame :=
  let fullpath := ("NETCDF:" ++ path ++ ":" ++ newcol)%string in
  src <- rasterio_open w fullpath ;;
  vals <- sampled_values src dataframe ;;
  let vals := mask_sentinel vals in
  setitem dataframe newcol (map (CFloat float32) vals).

(** ** The joiner: one file *)

(** The literal [0.0049999999] as the Python float it denotes, and as the
    binary32 number a [float32] array is multiplied by. *)
Definition scale64 : spec_float := S754_finite false 5764607407742084 (-60).
Definition scale32 : spec_float := S754_finite false 10737418 (-31).

(** One element of [column * 0.0049999999]: a [float32] array stays
    [float32], integers and doubles are multiplied as doubles, a string is
    refused. *)
Definition mul_scale (c : cell) : result cell :=
  match c with
  | CFloat float32 x => OK (CFloat float32 (SFmul 24 128 x scale32))
  | CFloat float64 x => OK (CFloat float64 (SFmul 53 1024 x scale64))
  | CInt z => OK (CFloat float64 (SFmul 53 1024 (np.of_int float64 z) scale64))
  | CStr _ => Raise TypeError
  end.

(** [df[k] *= 0.0049999999] *)
Definition imul_scale (df : DataFrame) (k : string) : result DataFrame :=
  col <- getitem (columns df) k ;;
  col' <- mapM mul_scale col ;;
  setitem df k col'.

Definition default_variables : list string := ["sst"; "chlor_a"].

(** The two statements of the loop body, for one variable. *)
Definition augment_var (w : World) (dataframe : DataFrame) (var : string)
  : result DataFrame :=
  path <- get_raster_path dataframe var ;;
  extract_raster w dataframe path var.

(** [variables[i]] *)
Definition getitem_list {A : Type} (l : list A) (i : nat) : result A :=
  match nth_error l i with
  | Some a => OK a
  | None => Raise IndexError
  end.

(** The body of [for i in range(len(variables))]. *)
Definition augment_step (w : World) (variables : list string)
    (dataframe : DataFrame) (i : nat) : result DataFrame :=
  var <- getitem_list variables i ;;
  augment_var w dataframe var.

Definition augment_df (w : World) (path : string) (variables : list string)
  : result DataFrame :=
  dataframe <- pd_read_csv w path ;;
  dataframe <- foldM (augment_step w variables) (seq 0 (List.length variables)) dataframe ;;
  dataframe <- imul_scale dataframe "sst" ;;
  drop dataframe ["Unnamed: 0"].

(** ** The joiner: all files *)

Module pd.

(** The labels of the frames, each once, in order of first appearance. *)
Fixpoint union_labels (seen : list string) (l : list string) : list string :=
  match l with
  | [] => []
  | k :: l' =>
      if existsb (String.eqb k) seen then union_labels seen l'
      else k :: union_labels (k :: seen) l'
  end.

(** The dtype of a column of the result. *)
Inductive common : Type :=
| Object
| Float (d : dtype)
| Int64.

Definition is_str (c : cell) : bool :=
  match c with CStr _ => true | _ => false end.

Definition is_int (c : cell) : bool :=
  match c with CInt _ => true | _ => false end.

Definition is_float32 (c : cell) : bool :=
  match c with CFloat float32 _ => true | _ => false end.

(** The values of the column [k] in the frames that have it. *)
Definition values_of (k : string) (objs : list DataFrame) : list cell :=
  flat_map (fun df => match lookup k (columns df) with
                      | Some c => c
                      | None => []
                      end) objs.

Definition lacks (k : string) (df : DataFrame) : bool :=
  match lookup k (columns df) with
  | Some _ => false
  | None => true
  end.

(** The dtype of the stacked column: [object] when a value is a string;
    otherwise [float32] when every value is one, [int64] when every value is
    an integer and no frame lacks the column, and [float64] in any other
    case: integers do not stay integers beside a missing value. *)
Definition common_dtype (vals : list cell) (missing : bool) : common :=
  if existsb is_str vals then Object
  else match vals with
       | [] => Float float64
       | _ =>
           if forallb is_float32 vals then Float float32
           else if forallb is_int vals && negb missing then Int64
           else Float float64
       end.

(** A value in a column of dtype [t]: integers and [float32] values are
    converted when the column is [float64]. *)
Definition astype (t : common) (c : cell) : cell :=
  match t, c with
  | Float float64, CInt z => CFloat float64 (np.of_int float64 z)
  | Float float64, CFloat float32 x => CFloat float64 (np.round_to float64 x)
  | _, _ => c
  end.

(** The missing value in a column of dtype [t]. *)
Definition na (t : common) : cell :=
  match t with
  | Float float32 => CFloat float32 np.nan
  | _ => CFloat float64 np.nan
  end.

(** The rows a frame contributes to the column [k], of dtype [t], of the
    result: its own values in that dtype, or missing values where it has no
    such column. *)
Definition rows_of (t : common) (k : string) (df : DataFrame) : column :=
  match lookup k (columns df) with
  | Some c => map (astype t) c
  | None => repeat (na t) (nrows df)
  end.

(** [pd.concat(objs)]: the frames stacked in the order given, over the
    union of their labels, each column in the common dtype of its values.
    (The order of the labels of the result is not used below.) *)
Definition concat (objs : list DataFrame) : result DataFrame :=
  match objs with
  | [] => Raise ValueError
  | _ =>
      let labels := union_labels [] (flat_map (fun df => map fst (columns df)) objs) in
      OK (mkDF (list_sum (map nrows objs))
            (map (fun k =>
                    (k, flat_map (rows_of (common_dtype (values_of k objs)
                                             (existsb (lacks k) objs)) k) objs))
                 labels))
  end.

End pd.

(** [list.sort()] on file names: insertion by code point order. *)
Fixpoint insert_sorted (s : string) (l : list string) : list string :=
  match l with
  | [] => [s]
  | t :: l' => if String.leb s t then s :: l else t :: insert_sorted s l'
  end.

Definition sort (l : list string) : list string := fold_right insert_sorted [] l.

(** [pool.map(f, xs)]: the results in the order of [xs]; the first failure
    is raised in the caller. *)
Definition pool_map {A B : Type} (f : A -> result B) (xs : list A) : result (list B) :=
  mapM f xs.

Definition full_csv_paths (listing : list string) : list string :=
  let csv_files := sort listing in
  map (fun f => os_path.join "data" ["summaries"; f]) csv_files.

(** The cell that builds [out], given the listing of [data/summaries]. *)
Definition run_joiner (w : World) (listing : list string) : result DataFrame :=
  tables <- pool_map (fun p => augment_df w p default_variables) (full_csv_paths listing) ;;
  pd.concat tables.

(** ** The fetcher

    The download notebook acts on the file system and on the network.  The
    file system maps a path, as written, to a directory or to a file with
    its bytes (the binding nearest the head of the list is the current
    one); a path without a directory part lies in the working directory.
    The network answers a URL with a refusal, or with the bytes that arrive
    and the way the stream ends then: [Body] when it is closed (after the
    whole file, or before), [Broken] when the connection is reset.  The
    state also records every URL opened, oldest first. *)

Module Fetcher.

Inductive node : Type :=
| Dir
| File (content : list Byte.byte).

Inductive response : Type :=
| Refused
| Body (content : list Byte.byte)
| Broken (content : list Byte.byte).

Definition network : Type := string -> response.

Record state : Type := mkState {
  fs : list (string * node);
  requests : list string
}.

Inductive outcome (A : Type) : Type :=
| Done (a : A) (st : state)
| Failed (e : exn) (st : state).

Arguments Done {A} a st.
Arguments Failed {A} e st.

Definition M (A : Type) : Type := state -> outcome A.

Definition ret {A : Type} (a : A) : M A := fun st => Done a st.

Definition seq_ {A B : Type} (m : M A) (k : A -> M B) : M B :=
  fun st =>
    match m st with
    | Done a st' => k a st'
    | Failed e st' => Failed e st'
    end.

Notation "x <<- m ;; k" := (seq_ m (fun x => k))
  (at level 61, m at next level, right associativity).

(** [for x in xs: body(x)] *)
Fixpoint for_each {A : Type} (xs : list A) (body : A -> M unit) : M unit :=
  match xs with
  | [] => ret tt
  | x :: xs' => _ <<- body x ;; for_each xs' body
  end.

(** [os.path.exists(p)] *)
Definition path_exists (p : string) (st : state) : bool :=
  match lookup p (fs st) with
  | Some _ => true
  | None => false
  end.

(** What the parent directory of a new entry must be. *)
Definition check_parent (p : string) (st : state) : option exn :=
  let parent := fst (os_path.split p) in
  if String.eqb parent EmptyString then None
  else match lookup parent (fs st) with
       | Some Dir => None
       | Some (File _) => Some NotADirectoryError
       | None => Some FileNotFoundError
       end.

(** [os.mkdir(p)] *)
Definition mkdir (p : string) : M unit :=
  fun st =>
    if path_exists p st then Failed FileExistsError st
    else match check_parent p st with
         | Some e => Failed e st
         | None => Done tt (mkState ((p, Dir) :: fs st) (requests st))
         end.

(** [os.makedirs(name)]; the recursion on the head of [name] is on a
    shorter string, [fuel] bounds it. *)
Fixpoint makedirs_fuel (fuel : nat) (name : string) : M unit :=
  fun st =>
    match fuel with
    | O => Failed FileNotFoundError st
    | S fuel' =>
        let (head, tail) := os_path.split name in
        let (head, tail) :=
          if String.eqb tail EmptyString then os_path.split head else (head, tail) in
        if negb (String.eqb head EmptyString) && negb (String.eqb tail EmptyString)
           && negb (path_exists head st)
        then
          let after_head :=
            match makedirs_fuel fuel' head st with
            | Failed FileExistsError st' => Done tt st'
            | o => o
            end in
          match after_head with
          | Done _ st' => if String.eqb tail "." then Done tt st' else mkdir name st'
          | Failed e st' => Failed e st'
          end
        else mkdir name st
    end.

Definition makedirs (name : string) : M unit :=
  makedirs_fuel (S (String.length name)) name.

(** [urllib.request.urlopen(url)]: the request is made, and refused or
    answered. *)
Definition urlopen (net : network) (url : string) : M response :=
  fun st =>
    let st' := mkState (fs st) (requests st ++ [url]) in
    match net url with
    | Refused => Failed URLError st'
    | r => Done r st'
    end.

(** [open(file_name, 'wb')]: the file is created or truncated. *)
Definition open_wb (file_name : string) : M unit :=
  fun st =>
    match lookup file_name (fs st) with
    | Some Dir => Failed IsADirectoryError st
    | _ =>
        match check_parent file_name st with
        | Some e => Failed e st
        | None => Done tt (mkState ((file_name, File []) :: fs st) (requests st))
        end
    end.

(** The buffer length of [shutil.copyfileobj]: 16 KiB in the Python 3.6
    of the notebook (later versions read longer buffers; what is proved
    below uses only that the length is positive). *)
Definition COPY_BUFSIZE : nat := 16 * 1024.

(** [fsrc.read(length)] on a stream with [data] still to arrive: a full
    buffer when there is one; otherwise what is left when the stream is
    closed, and an exception, the bytes read so far being lost, when it is
    reset. *)
Inductive read_result : Type :=
| Bytes (buf rest : list Byte.byte)
| Reset.

Definition read (closed : bool) (data : list Byte.byte) : read_result :=
  if COPY_BUFSIZE <=? List.length data
  then Bytes (firstn COPY_BUFSIZE data) (skipn COPY_BUFSIZE data)
  else if closed then Bytes data [] else Reset.

(** The loop of [shutil.copyfileobj]: read a buffer, stop when it is empty,
    write it otherwise.  The result is what was written and the exception
    raised, if any; [fuel] bounds the number of reads. *)
Fixpoint copy_loop (fuel : nat) (closed : bool) (data written : list Byte.byte)
  : list Byte.byte * option exn :=
  match fuel with
  | O => (written, Some ConnectionError)
  | S fuel' =>
      match read closed data with
      | Reset => (written, Some ConnectionError)
      | Bytes [] _ => (written, None)
      | Bytes buf rest => copy_loop fuel' closed rest (written ++ buf)
      end
  end.

(** [shutil.copyfileobj(response, out_file)], and the file closed on the
    way out of the [with] block: it holds what was written. *)
Definition copyfileobj (r : response) (file_name : string) : M unit :=
  fun st =>
    let close (o : list Byte.byte * option exn) : outcome unit :=
      let st' := mkState ((file_name, File (fst o)) :: fs st) (requests st) in
      match snd o with
      | None => Done tt st'
      | Some e => Failed e st'
      end in
    match r with
    | Body b => close (copy_loop (S (List.length b)) true b [])
    | Broken b => close (copy_loop (S (List.length b)) false b [])
    | Refused => Failed URLError st
    end.

Definition ncdf_dir : string := os_path.join "data" ["modis"].

(** The cell that creates [ncdf_dir]. *)
Definition ensure_dir : M unit :=
  fun st =>
    if negb (path_exists ncdf_dir st) then makedirs ncdf_dir st
    else Done tt st.

Definition urls : list (string * string) :=
  [ ("may_2013_sst", "https://oceandata.sci.gsfc.nasa.gov/cgi/getfile/T20131212013151.L3m_MO_SST_sst_4km.nc");
    ("jun_2013_sst", "https://oceandata.sci.gsfc.nasa.gov/cgi/getfile/T20131522013181.L3m_MO_SST_sst_4km.nc");
    ("jul_2013_sst", "https://oceandata.sci.gsfc.nasa.gov/cgi/getfile/T20131822013212.L3m_MO_SST_sst_4km.nc");
    ("aug_2013_sst", "https://oceandata.sci.gsfc.nasa.gov/cgi/getfile/T20132132013243.L3m_MO_SST_sst_4km.nc");
    ("sep_2013_sst", "https://oceandata.sci.gsfc.nasa.gov/cgi/getfile/T20132442013273.L3m_MO_SST_sst_4km.nc");
    ("may_2013_chlor_a", "https://oceandata.sci.gsfc.nasa.gov/cgi/getfile/T20131212013151.L3m_MO_CHL_chlor_a_4km.nc");
    ("jun_2013_chlor_a", "https://oceandata.sci.gsfc.nasa.gov/cgi/getfile/T20131522013181.L3m_MO_CHL_chlor_a_4km.nc");
    ("jul_2013_chlor_a", "https://oceandata.sci.gsfc.nasa.gov/cgi/getfile/T20131822013212.L3m_MO_CHL_chlor_a_4km.nc");
    ("aug_2013_chlor_a", "https://oceandata.sci.gsfc.nasa.gov/cgi/getfile/T20132132013243.L3m_MO_CHL_chlor_a_4km.nc");
    ("sep_2013_chlor_a", "https://oceandata.sci.gsfc.nasa.gov/cgi/getfile/T20132442013273.L3m_MO_CHL_chlor_a_4km.nc") ].

Definition file_name_of (key : string) : string :=
  os_path.join ncdf_dir [(key ++ ".nc")%string].

(** The files an arbitrary mapping is written to, in order. *)
Definition file_names (mapping : list (string * string)) : list string :=
  map (fun kv => file_name_of (fst kv)) mapping.

(** The body of [for key, value in urls.items()]. *)
Definition download (net : network) (kv : string * string) : M unit :=
  let (key, value) := kv in
  let file_name := file_name_of key in
  response <<- urlopen net value ;;
  _ <<- open_wb file_name ;;
  copyfileobj response file_name.

(** The download loop over an arbitrary mapping. *)
Definition download_all (net : network) (mapping : list (string * string)) : M unit :=
  for_each mapping (download net).

(** The whole notebook. *)
Definition fetch (net : network) : M unit :=
  _ <<- ensure_dir ;; download_all net urls.

End Fetcher.

(** ** The vocabulary of the specification *)

Module Spec.

(** The month abbreviations of the specification, 5 to 9. *)
Definition abbr (m : nat) : string :=
  match m with
  | 5 => "may" | 6 => "jun" | 7 => "jul" | 8 => "aug" | 9 => "sep"
  | _ => ""
  end.

Definition supported_month (m : nat) : Prop := 5 <= m <= 9.

Definition supported_variable (v : string) : Prop := v = "sst" \/ v = "chlor_a".






(** The float [x] is the integer [z]. *)
Definition denotes (x : spec_float) (z : Z) : bool :=
  match x with
  | S754_zero _ => (z =? 0)%Z
  | S754_finite s m e =>
      if (0 <=? e)%Z then (cond_Zopp s (Zpos m) * 2 ^ e =? z)%Z
      else (cond_Zopp s (Zpos m) =? z * 2 ^ (- e))%Z
  | _ => false
  end.


End Spec.

(** ** Derived notions used in the statements *)

(** The column [augment_df] assigns for the variable [v]: the values of the
    raster of the month of [csv], sampled at its points, masked. *)
Definition sampled_column (w : World) (csv : DataFrame) (v : string) : result column :=
  path <- get_raster_path csv v ;;
  src <- rasterio_open w ("NETCDF:" ++ path ++ ":" ++ v)%string ;;
  vals <- sampled_values src csv ;;
  OK (map (CFloat float32) (mask_sentinel vals)).

(** Every column of a frame has one value per row, as in any frame pandas
    builds. *)
Definition wf_frame (df : DataFrame) : Prop :=
  Forall (fun kv => List.length (snd kv) = nrows df) (columns df).

(** The original columns of [csv], the index artefact apart, are in [out]
    with their values. *)
Definition preserves_original_columns (csv out : DataFrame) : Prop :=
  forall (k : string) (c : column),
    k <> "Unnamed: 0" -> lookup k (columns csv) = Some c ->
    lookup k (columns out) = Some c.

(** ** Sample inputs *)

Module Ex.

Definition f64 (z : Z) : cell := CFloat float64 (np.of_int float64 z).

(** A survey table of two pings on one day of June. *)
Definition csv : DataFrame :=
  mkDF 2 [ ("Unnamed: 0", [CInt 0; CInt 1]);
           ("Latitude", [f64 47; f64 48]);
           ("Longitude", [f64 (-122); f64 (-123)]);
           ("Ping_date", [CStr "  2013-06-15"; CStr "  2013-06-15"]) ].

(** The same table with columns named as the two variables. *)
Definition csv_with_variables : DataFrame :=
  mkDF 2 (columns csv ++ [ ("sst", [f64 1000; f64 2000]);
                           ("chlor_a", [f64 7; f64 8]) ]).

(** The same table without the index column. *)
Definition csv_without_index : DataFrame :=
  mkDF 2 (tl (columns csv)).

(** The SST raster: scaled integers, no data at latitude 48. *)
Definition sst_june : Dataset :=
  mkDataset (fun _ y =>
    OK [RInt (if cell_eqb y (f64 48) then (-32767) else 4000)]).

Definition chlor_a_june : Dataset :=
  mkDataset (fun _ _ => OK [RFloat float32 (np.of_int float32 3)]).

Definition world : World :=
  mkWorld
    (fun p =>
       if String.eqb p "data/summaries/a.csv" then OK csv
       else if String.eqb p "data/summaries/b.csv" then OK csv_with_variables
       else if String.eqb p "data/summaries/c.csv" then OK csv_without_index
       else Raise FileNotFoundError)
    (fun p =>
       if String.eqb p "NETCDF:data/modis/jun_2013_sst.nc:sst" then OK sst_june
       else if String.eqb p "NETCDF:data/modis/jun_2013_chlor_a.nc:chlor_a"
            then OK chlor_a_june
       else Raise RasterioIOError).

(** The double nearest to [-32767.0001]. *)
Definition near_sentinel64 : spec_float := S754_finite true 9006924404321839 (-38).

(** A raster of doubles that holds [-32767.0001], and a raster of 32-bit
    integers that holds [16777217], at every point; a world with the first
    as its SST file of June and the second as its chlorophyll file. *)
Definition raster_of_doubles : Dataset :=
  mkDataset (fun _ _ => OK [RFloat float64 near_sentinel64]).

Definition raster_of_integers : Dataset :=
  mkDataset (fun _ _ => OK [RInt 16777217]).

Definition world_of_casts : World :=
  mkWorld
    (fun _ => OK csv)
    (fun p =>
       if String.eqb p "NETCDF:data/modis/jun_2013_sst.nc:sst" then OK raster_of_doubles
       else if String.eqb p "NETCDF:data/modis/jun_2013_chlor_a.nc:chlor_a"
            then OK raster_of_integers
       else Raise RasterioIOError).

(** A network that answers every URL with one byte. *)
Definition net_ok : Fetcher.network := fun _ => Fetcher.Body [Byte.x2a].

(** A network on which the connection is reset after one byte of the
    third SST file; the other URLs answer. *)
Definition net_broken : Fetcher.network :=
  fun url =>
    if String.eqb url
         "https://oceandata.sci.gsfc.nasa.gov/cgi/getfile/T20131822013212.L3m_MO_SST_sst_4km.nc"
    then Fetcher.Broken [Byte.x01]
    else Fetcher.Body [Byte.x2a].

Definition empty_disk : Fetcher.state := Fetcher.mkState [] [].

(** [csv] augmented: 4000 scaled is 20 degrees, the chlorophyll is 3. *)
Definition augmented : DataFrame :=
  mkDF 2 (tl (columns csv) ++
          [ ("sst", [ CFloat float32 (np.of_int float32 20);
                      CFloat float32 np.nan ]);
            ("chlor_a", [ CFloat float32 (np.of_int float32 3);
                          CFloat float32 (np.of_int float32 3) ]) ]).

Definition state_of {A : Type} (o : Fetcher.outcome A) : Fetcher.state :=
  match o with
  | Fetcher.Done _ st => st
  | Fetcher.Failed _ st => st
  end.

(** The states of a run on [net_broken] from [empty_disk]: after the
    directory cell, after the first two entries, and at the failure. *)
Definition after_ensure : Fetcher.state :=
  Fetcher.mkState [("data/modis", Fetcher.Dir); ("data", Fetcher.Dir)] [].

Definition after_two : Fetcher.state :=
  Eval vm_compute in
    state_of (Fetcher.download_all net_broken (firstn 2 Fetcher.urls) after_ensure).

Definition after_break : Fetcher.state :=
  Eval vm_compute in state_of (Fetcher.fetch net_broken empty_disk).

(** A disk on which a regular file has the name of the directory. *)
Definition file_in_the_way : Fetcher.state :=
  Fetcher.mkState [("data/modis", Fetcher.File []); ("data", Fetcher.Dir)] [].

(** Two copies of [augmented], one under the other. *)
Definition joined : DataFrame :=
  mkDF 4 (map (fun kv => (fst kv, snd kv ++ snd kv)) (columns augmented)).

(** [csv] after the loop over ["chlor_a"] alone. *)
Definition sampled_chlor_a : DataFrame :=
  mkDF 2 (columns csv ++
          [ ("chlor_a", [ CFloat float32 (np.of_int float32 3);
                          CFloat float32 (np.of_int float32 3) ]) ]).

(** [csv_without_index] after the loop over the default variables. *)
Definition sampled_both : DataFrame :=
  mkDF 2 (tl (columns csv) ++
          [ ("sst", [ CFloat float32 (np.of_int float32 4000);
                      CFloat float32 np.nan ]);
            ("chlor_a", [ CFloat float32 (np.of_int float32 3);
                          CFloat float32 (np.of_int float32 3) ]) ]).

(** [csv] after [extract_raster] for the SST raster of June. *)
Definition sampled_sst : DataFrame :=
  mkDF 2 (columns csv ++
          [ ("sst", [ CFloat float32 (np.of_int float32 4000);
                      CFloat float32 np.nan ]) ]).

End Ex.

(** The row count of the table in the file [p]. *)
Definition csv_rows (w : World) (p : string) : nat :=
  match pd_read_csv w p with
  | OK csv => nrows csv
  | Raise _ => 0
  end.

(** [t] is the table of the file [p] with its rows in place: as many rows,
    and every column that is neither the index nor a variable unchanged,
    value by value; its [sst] column has one value per row. *)
Definition rows_in_place (w : World) (p : string) (t : DataFrame) : Prop :=
  exists csv,
    pd_read_csv w p = OK csv
    /\ nrows t = nrows csv
    /\ (forall k, k <> "Unnamed: 0" -> k <> "sst" -> k <> "chlor_a" ->
          lookup k (columns t) = lookup k (columns csv))
    /\ exists c, lookup "sst" (columns t) = Some c /\ List.length c = nrows t.

(** The value [y] is the value [x], as it is or as the [float64] number it
    denotes. *)
Definition same_value (x y : cell) : Prop :=
  y = x
  \/ (exists z, x = CInt z /\ y = CFloat float64 (np.of_int float64 z))
  \/ (exists v, x = CFloat float32 v /\ y = CFloat float64 (np.round_to float64 v)).

(** [seg] is what the table [t] gives to the column [k] of a stacked table:
    its own column [k], value by value in the order of its rows, or one
    NaN for each of its rows when it has no such column. *)
Definition rows_stacked (k : string) (t : DataFrame) (seg : column) : Prop :=
  match lookup k (columns t) with
  | Some c => Forall2 same_value c seg
  | None => seg = repeat (CFloat float64 np.nan) (nrows t)
            \/ seg = repeat (CFloat float32 np.nan) (nrows t)
  end.

(** What the loop body of [augment_df] reads from the frame. *)
Definition same_inputs (csv df : DataFrame) : Prop :=
  lookup "Ping_date" (columns df) = lookup "Ping_date" (columns csv)
  /\ lookup "Longitude" (columns df) = lookup "Longitude" (columns csv)
  /\ lookup "Latitude" (columns df) = lookup "Latitude" (columns csv).

(** ** Checks run by computation in the proofs *)

(** The cast of the stored integer [z] to [float32] is [z] itself, and is
    the missing data value exactly when [z] is [-32767]. *)
Definition int_cast_check (z : Z) : bool :=
  Spec.denotes (np.astype_float32 (RInt z)) z
  && Bool.eqb (SFeqb (np.astype_float32 (RInt z)) sentinel) (z =? -32767)%Z.

(** [int_cast_check] on the [n] integers from [z] on. *)
Fixpoint int_cast_check_from (n : nat) (z : Z) : bool :=
  match n with
  | O => true
  | S n' => int_cast_check z && int_cast_check_from n' (z + 1)%Z
  end.


(** ** Further notions used in the statements *)

(** A matcher consumes between [lo] and [hi] characters in each of its
    ways to match. *)
Definition consumes {A : Type} (lo hi : nat) (m : datetime.matcher A) : Prop :=
  forall (s : string) (a : A) (r : string),
    In (a, r) (m s) ->
    String.length r + lo <= String.length s /\ String.length s <= String.length r + hi.

(** Two frames with the same rows and, label by label, the same columns
    (the order of the labels apart). *)
Definition same_columns (df1 df2 : DataFrame) : Prop :=
  nrows df1 = nrows df2
  /\ forall k, lookup k (columns df1) = lookup k (columns df2).

(** Two lists of variables that name the same variables. *)
Definition same_variables (l1 l2 : list string) : Prop :=
  forall v, In v l1 <-> In v l2.

(** The order of [list.sort()] on names. *)
Definition name_le (a b : string) : Prop := String.leb a b = true.

(** The state a run of the fetcher ends in, completed or not. *)
Definition final_state {A : Type} (o : Fetcher.outcome A) : Fetcher.state :=
  match o with
  | Fetcher.Done _ st => st
  | Fetcher.Failed _ st => st
  end.

(** The paths the download notebook may write. *)
Definition fetcher_paths : list string :=
  "data" :: "data/modis" :: Fetcher.file_names Fetcher.urls.

(** The disk and the log after a complete run on [Ex.net_ok] from
    [Ex.empty_disk]. *)
Definition after_fetch_ok : Fetcher.state :=
  Eval vm_compute in final_state (Fetcher.fetch Ex.net_ok Ex.empty_disk).

(** * Month inference *)

Lemma bind_OK_inv {A B : Type} (r : result A) (k : A -> result B) (b : B) :
  bind r k = OK b -> exists a, r = OK a /\ k a = OK b.
Proof.
  destruct r as [a|e]; simpl; intros H; [eauto | discriminate].
Qed.

Lemma OK_or_raises {A : Type} (r : result A) : (exists a, r = OK a) \/ raises r.
Proof. destruct r as [a|e]; [left | right]; eexists; reflexivity. Qed.








Lemma first_unique (l : column) : first (unique l) = first l.
Proof. destruct l as [|c l]; reflexivity. Qed.











(** * Path resolution *)

Lemma strptime_fields (s : string) (t : datetime.t) :
  datetime.strptime s = OK t ->
  datetime.check_date_fields (datetime.year t) (datetime.month t) (datetime.day t) = true.
Proof.
  unfold datetime.strptime.
  destruct (datetime.re_Ymd s) as [|[[y [m d]] [|c r]] tl]; try discriminate.
  destruct (datetime.check_date_fields y m d) eqn:E; [|discriminate].
  intros H. injection H as <-. exact E.
Qed.

Lemma find_month_range (df : DataFrame) (m : nat) :
  find_month df = OK m -> 1 <= m <= 12.
Proof.
  unfold find_month. intros H.
  apply bind_OK_inv in H. destruct H as (col & _ & H).
  apply bind_OK_inv in H. destruct H as (x & _ & H).
  apply bind_OK_inv in H. destruct H as (s & _ & H).
  apply bind_OK_inv in H. destruct H as (t & Ht & H).
  injection H as <-.
  apply strptime_fields in Ht. unfold datetime.check_date_fields in Ht.
  repeat (apply andb_true_iff in Ht; destruct Ht as [Ht ?]).
  repeat match goal with H : (_ <=? _) = true |- _ => apply Nat.leb_le in H end.
  lia.
Qed.

Lemma month_dict_supported (m : nat) :
  Spec.supported_month m -> getitem month_dict (Str.str m) = OK (Spec.abbr m).
Proof.
  unfold Spec.supported_month. intros H.
  do 10 (destruct m as [|m]; [first [lia | reflexivity]|]). lia.
Qed.

Lemma month_dict_unsupported (m : nat) :
  1 <= m <= 12 -> ~ Spec.supported_month m ->
  getitem month_dict (Str.str m) = Raise KeyError.
Proof.
  unfold Spec.supported_month. intros H H'.
  do 13 (destruct m as [|m]; [first [lia | reflexivity]|]). lia.
Qed.

Lemma supported_variable_eqb (v : string) :
  Spec.supported_variable v <-> (String.eqb v "chlor_a" || String.eqb v "sst") = true.
Proof.
  unfold Spec.supported_variable.
  rewrite orb_true_iff, !String.eqb_eq. tauto.
Qed.

Lemma get_raster_path_supported (df : DataFrame) (m : nat) (v : string) :
  find_month df = OK m -> Spec.supported_month m -> Spec.supported_variable v ->
  get_raster_path df v
  = OK (os_path.join "data" ["modis"; (Spec.abbr m ++ "_2013_" ++ v ++ ".nc")%string]).
Proof.
  intros Hm Hs Hv. unfold get_raster_path. rewrite Hm. cbn [bind].
  apply supported_variable_eqb in Hv. rewrite Hv. cbn [assert bind].
  rewrite (month_dict_supported m Hs). reflexivity.
Qed.

(** The joined path, spelled out. *)
Lemma raster_path_literal (m : nat) (v : string) :
  Spec.supported_month m -> Spec.supported_variable v ->
  os_path.join "data" ["modis"; (Spec.abbr m ++ "_2013_" ++ v ++ ".nc")%string]
  = ("data/modis/" ++ Spec.abbr m ++ "_2013_" ++ v ++ ".nc")%string.
Proof.
  unfold Spec.supported_month. intros Hm [-> | ->];
    do 10 (destruct m as [|m]; [first [lia | reflexivity]|]); lia.
Qed.

(** C1.  On a frame whose inferred month is [m]: for [m] in 5..9 and a
    variable among ["sst"] and ["chlor_a"], [get_raster_path] returns
    [os.path.join("data", "modis", "<abbr(m)>_2013_<v>.nc")], that is
    ["data/modis/<abbr(m)>_2013_<v>.nc"]; for any other month or any other
    variable it raises. *)
Theorem get_raster_path_resolves_or_rejects (df : DataFrame) (m : nat) (v : string) :
  find_month df = OK m ->
  (Spec.supported_month m -> Spec.supported_variable v ->
     get_raster_path df v
     = OK (os_path.join "data" ["modis"; (Spec.abbr m ++ "_2013_" ++ v ++ ".nc")%string])
     /\ get_raster_path df v
        = OK ("data/modis/" ++ Spec.abbr m ++ "_2013_" ++ v ++ ".nc")%string)
  /\ (~ Spec.supported_month m \/ ~ Spec.supported_variable v ->
      raises (get_raster_path df v)).
Proof.
  intros Hm. split.
  - intros Hs Hv. rewrite <- (raster_path_literal m v Hs Hv).
    split; exact (get_raster_path_supported df m v Hm Hs Hv).
  - intros Hbad. unfold get_raster_path. rewrite Hm. cbn [bind].
    destruct (String.eqb v "chlor_a" || String.eqb v "sst") eqn:Ev.
    + cbn [assert bind].
      destruct Hbad as [Hbad | Hbad].
      * rewrite (month_dict_unsupported m (find_month_range df m Hm) Hbad).
        exists KeyError. reflexivity.
      * apply supported_variable_eqb in Ev. contradiction.
    + exists AssertionError. reflexivity.
Qed.

Lemma get_raster_path_resolves_or_rejects_witness :
  let df := mkDF 1 [("Ping_date", [CStr "2013-07-04"])] in
  find_month df = OK 7
  /\ get_raster_path df "chlor_a" = OK "data/modis/jul_2013_chlor_a.nc"
  /\ raises (get_raster_path df "SST")
  /\ raises (get_raster_path (mkDF 1 [("Ping_date", [CStr "2013-10-04"])]) "sst").
Proof.
  intros df.
  assert (H7 : find_month df = OK 7) by reflexivity.
  assert (H10 : find_month (mkDF 1 [("Ping_date", [CStr "2013-10-04"])]) = OK 10)
    by reflexivity.
  split; [exact H7|]. split; [|split].
  - apply (proj1 (get_raster_path_resolves_or_rejects df 7 "chlor_a" H7)).
    + unfold Spec.supported_month. lia.
    + right. reflexivity.
  - apply (proj2 (get_raster_path_resolves_or_rejects df 7 "SST" H7)).
    right. intros [H | H]; discriminate H.
  - apply (proj2 (get_raster_path_resolves_or_rejects _ 10 "sst" H10)).
    left. unfold Spec.supported_month. lia.
Defined.

(** * The fetcher's files and the joiner's paths *)

Lemma string_app_assoc (a b c : string) : ((a ++ b) ++ c = a ++ (b ++ c))%string.
Proof. induction a as [|x a IH]; simpl; [reflexivity | rewrite IH; reflexivity]. Qed.

Lemma urls_has_supported (m : nat) (v : string) :
  Spec.supported_month m -> Spec.supported_variable v ->
  exists value, In ((Spec.abbr m ++ "_2013_" ++ v)%string, value) Fetcher.urls.
Proof.
  unfold Spec.supported_month. intros Hm [-> | ->];
    do 10 (destruct m as [|m]; [first [lia | eexists; simpl; tauto]|]); lia.
Qed.

Lemma file_name_of_supported (m : nat) (v : string) :
  Spec.supported_month m -> Spec.supported_variable v ->
  Fetcher.file_name_of (Spec.abbr m ++ "_2013_" ++ v)
  = os_path.join "data" ["modis"; (Spec.abbr m ++ "_2013_" ++ v ++ ".nc")%string]
  /\ snd (os_path.split (Fetcher.file_name_of (Spec.abbr m ++ "_2013_" ++ v)))
     = (Spec.abbr m ++ "_2013_" ++ v ++ ".nc")%string.
Proof.
  unfold Spec.supported_month. intros Hm [-> | ->];
    do 10 (destruct m as [|m]; [first [lia | split; reflexivity]|]); lia.
Qed.

(** C7.  The mapping [urls] has exactly ten entries, with distinct keys:
    the five months may..sep crossed with the two variables.  For every
    supported month and variable there is an entry whose file name
    [<key>.nc], as the fetcher writes it, is the base name of the path
    [get_raster_path] resolves (the whole paths are equal). *)
Theorem urls_cover_raster_paths :
  List.length Fetcher.urls = 10
  /\ NoDup (map fst Fetcher.urls)
  /\ map fst Fetcher.urls
     = flat_map (fun v => map (fun m => (Spec.abbr m ++ "_2013_" ++ v)%string) [5; 6; 7; 8; 9])
         ["sst"; "chlor_a"]
  /\ forall (df : DataFrame) (m : nat) (v : string),
      find_month df = OK m -> Spec.supported_month m -> Spec.supported_variable v ->
      exists key value path,
        In (key, value) Fetcher.urls
        /\ get_raster_path df v = OK path
        /\ snd (os_path.split path) = (key ++ ".nc")%string
        /\ path = Fetcher.file_name_of key.
Proof.
  split; [reflexivity|]. split; [|split; [reflexivity|]].
  - cbn [map fst Fetcher.urls].
    repeat (apply NoDup_cons; [simpl; intuition discriminate|]).
    apply NoDup_nil.
  - intros df m v Hm Hs Hv.
    destruct (urls_has_supported m v Hs Hv) as [value Hin].
    destruct (file_name_of_supported m v Hs Hv) as [Hf Hb].
    exists (Spec.abbr m ++ "_2013_" ++ v)%string, value,
      (Fetcher.file_name_of (Spec.abbr m ++ "_2013_" ++ v)).
    split; [exact Hin|]. split; [|split; [|reflexivity]].
    + rewrite Hf. exact (get_raster_path_supported df m v Hm Hs Hv).
    + rewrite Hb, !string_app_assoc. reflexivity.
Qed.

Lemma urls_cover_raster_paths_witness :
  exists key value path,
    In (key, value) Fetcher.urls
    /\ get_raster_path (mkDF 1 [("Ping_date", [CStr "2013-08-30"])]) "sst" = OK path
    /\ snd (os_path.split path) = (key ++ ".nc")%string
    /\ path = Fetcher.file_name_of key.
Proof.
  apply (proj2 (proj2 (proj2 urls_cover_raster_paths))
           (mkDF 1 [("Ping_date", [CStr "2013-08-30"])]) 8 "sst").
  - reflexivity.
  - unfold Spec.supported_month. lia.
  - left. reflexivity.
Defined.

(** * Sampling and the missing data value *)

Lemma SFeqb_finite_inv (v : spec_float) (s : bool) (m : positive) (e : Z) :
  SFeqb v (S754_finite s m e) = true -> v = S754_finite s m e.
Proof.
  unfold SFeqb, SFcompare.
  destruct v as [[|] | [|] | | s' m' e']; try (destruct s; discriminate).
  pose proof (Pos.compare_eq_iff m' m) as Hm. unfold Pos.compare in Hm.
  destruct s', s; try discriminate;
    destruct (Z.compare_spec e' e) as [He | He | He]; try discriminate;
    destruct (Pos.compare_cont Eq m' m); try discriminate;
    intros _; rewrite He, (proj1 Hm eq_refl); reflexivity.
Qed.

Lemma SFeqb_sentinel (v : spec_float) : SFeqb v sentinel = true <-> v = sentinel.
Proof.
  split.
  - apply SFeqb_finite_inv.
  - intros ->. vm_compute. reflexivity.
Qed.

Lemma nan_not_sentinel : np.nan <> sentinel.
Proof. discriminate. Qed.

Lemma mask_sentinel_length (vals : list spec_float) :
  List.length (mask_sentinel vals) = List.length vals.
Proof. apply length_map. Qed.

Lemma mask_sentinel_nth (vals : list spec_float) (i : nat) (v : spec_float) :
  nth_error vals i = Some v ->
  (v = sentinel -> nth_error (mask_sentinel vals) i = Some np.nan)
  /\ (v <> sentinel -> nth_error (mask_sentinel vals) i = Some v).
Proof.
  intros H. unfold mask_sentinel. rewrite nth_error_map, H. cbn [option_map].
  destruct (SFeqb v sentinel) eqn:E.
  - apply SFeqb_sentinel in E. split; [reflexivity | contradiction].
  - split; [|reflexivity]. intros ->.
    assert (E' : SFeqb sentinel sentinel = true) by reflexivity. congruence.
Qed.

Lemma mask_sentinel_free (vals : list spec_float) : ~ In sentinel (mask_sentinel vals).
Proof.
  unfold mask_sentinel. rewrite in_map_iff. intros (v & Hv & _).
  destruct (SFeqb v sentinel) eqn:E.
  - exact (nan_not_sentinel Hv).
  - subst v. discriminate E.
Qed.

Lemma lookup_app_None {V : Type} (k : string) (l l' : list (string * V)) :
  lookup k l = None -> lookup k (l ++ l') = lookup k l'.
Proof.
  induction l as [|[k' v] l IH]; simpl; [reflexivity|].
  destruct (String.eqb k k'); [discriminate | exact IH].
Qed.

Lemma lookup_app_Some {V : Type} (k : string) (l l' : list (string * V)) (v : V) :
  lookup k l = Some v -> lookup k (l ++ l') = Some v.
Proof.
  induction l as [|[k' v'] l IH]; simpl; [discriminate|].
  destruct (String.eqb k k'); [trivial | exact IH].
Qed.

Lemma lookup_replace_col_eq (k : string) (vals c : column) (l : list (string * column)) :
  lookup k l = Some c -> lookup k (replace_col k vals l) = Some vals.
Proof.
  induction l as [|[k' v] l IH]; simpl; [discriminate|].
  destruct (String.eqb k k') eqn:E; simpl; rewrite E; [reflexivity | exact IH].
Qed.

Lemma lookup_replace_col_neq (k k0 : string) (vals : column) (l : list (string * column)) :
  k0 <> k -> lookup k0 (replace_col k vals l) = lookup k0 l.
Proof.
  intros Hne. induction l as [|[k' v] l IH]; simpl; [reflexivity|].
  destruct (String.eqb k k') eqn:E; simpl.
  - apply String.eqb_eq in E. subst k'.
    apply String.eqb_neq in Hne. rewrite Hne. reflexivity.
  - rewrite IH. reflexivity.
Qed.

Lemma setitem_OK_inv (df df' : DataFrame) (k : string) (vals : column) :
  setitem df k vals = OK df' ->
  List.length vals = nrows df
  /\ nrows df' = nrows df
  /\ lookup k (columns df') = Some vals
  /\ (forall k0, k0 <> k -> lookup k0 (columns df') = lookup k0 (columns df)).
Proof.
  unfold setitem.
  destruct (List.length vals =? nrows df) eqn:El; cbn [negb]; [|discriminate].
  apply Nat.eqb_eq in El.
  destruct (lookup k (columns df)) as [c|] eqn:Ek; intros H; injection H as <-;
    cbn [nrows columns]; (split; [exact El|]); (split; [reflexivity|]); split.
  - exact (lookup_replace_col_eq k vals c _ Ek).
  - intros k0 Hne. exact (lookup_replace_col_neq k k0 vals _ Hne).
  - rewrite (lookup_app_None k _ _ Ek). simpl. rewrite String.eqb_refl. reflexivity.
  - intros k0 Hne. destruct (lookup k0 (columns df)) as [c|] eqn:E0.
    + exact (lookup_app_Some k0 _ _ c E0).
    + rewrite (lookup_app_None k0 _ _ E0). simpl.
      apply String.eqb_neq in Hne. rewrite Hne. reflexivity.
Qed.

Lemma extract_raster_OK_inv (w : World) (df df' : DataFrame) (path newcol : string) :
  extract_raster w df path newcol = OK df' ->
  exists src vals,
    rasterio_open w ("NETCDF:" ++ path ++ ":" ++ newcol)%string = OK src
    /\ sampled_values src df = OK vals
    /\ setitem df newcol (map (CFloat float32) (mask_sentinel vals)) = OK df'.
Proof.
  unfold extract_raster. intros H.
  apply bind_OK_inv in H. destruct H as (src & Hsrc & H).
  apply bind_OK_inv in H. destruct H as (vals & Hvals & H).
  exists src, vals. auto.
Qed.

Lemma sampled_values_OK_inv (src : Dataset) (df : DataFrame) (vals : list spec_float) :
  sampled_values src df = OK vals ->
  exists x y samples,
    getattr df "Longitude" = OK x
    /\ getattr df "Latitude" = OK y
    /\ mapM (fun p => sample src (fst p) (snd p)) (combine x y) = OK samples
    /\ samples <> []
    /\ vals = map np.astype_float32 (List.concat samples).
Proof.
  unfold sampled_values. intros H.
  apply bind_OK_inv in H. destruct H as (x & Hx & H).
  apply bind_OK_inv in H. destruct H as (y & Hy & H).
  apply bind_OK_inv in H. destruct H as (samples & Hs & H).
  apply bind_OK_inv in H. destruct H as (flat & Hf & H).
  injection H as <-.
  exists x, y, samples. repeat (split; [assumption|]).
  destruct samples as [|s0 samples]; [discriminate|].
  split; [discriminate|]. injection Hf as <-. reflexivity.
Qed.

Lemma int_cast_check_from_spec (n : nat) (z0 z : Z) :
  int_cast_check_from n z0 = true ->
  (z0 <= z < z0 + Z.of_nat n)%Z -> int_cast_check z = true.
Proof.
  revert z0. induction n as [|n IH]; intros z0 H Hz; [lia|].
  cbn [int_cast_check_from] in H. apply andb_true_iff in H. destruct H as [H0 H].
  destruct (Z.eq_dec z z0) as [-> | Hne]; [exact H0|].
  apply (IH (z0 + 1)%Z H). lia.
Qed.

Lemma int_cast_check_16_bits :
  int_cast_check_from (Z.to_nat 98304) (-32768)%Z = true.
Proof. vm_compute. reflexivity. Qed.

(** The cast of an integer of 16 bits, signed or not, is exact; it is the
    missing data value for [-32767] only. *)
Lemma astype_float32_int (z : Z) :
  (-32768 <= z <= 65535)%Z ->
  Spec.denotes (np.astype_float32 (RInt z)) z = true
  /\ SFeqb (np.astype_float32 (RInt z)) sentinel = (z =? -32767)%Z.
Proof.
  intros Hz.
  pose proof (int_cast_check_from_spec (Z.to_nat 98304) (-32768)%Z z
                int_cast_check_16_bits) as H.
  rewrite Z2Nat.id in H by lia. specialize (H ltac:(lia)).
  unfold int_cast_check in H. apply andb_true_iff in H. destruct H as [H1 H2].
  split; [exact H1|]. apply Bool.eqb_prop in H2. exact H2.
Qed.

Lemma astype_float32_sentinel64 : np.astype_float32 (RFloat float64 sentinel64) = sentinel.
Proof. vm_compute. reflexivity. Qed.

(** The value assigned for one sample. *)
Lemma mask_sentinel_map_nth (raws : list raw) (i : nat) (r : raw) :
  nth_error raws i = Some r ->
  nth_error (map (CFloat float32) (mask_sentinel (map np.astype_float32 raws))) i
  = Some (CFloat float32
            (if SFeqb (np.astype_float32 r) sentinel then np.nan else np.astype_float32 r)).
Proof.
  intros H. unfold mask_sentinel. rewrite !nth_error_map, H. reflexivity.
Qed.

(** C2 (as amended).  When [extract_raster] returns, the new column holds,
    row by row, a [float32] value for each value sampled from the raster at
    the coordinate pairs of the frame: NaN when the sample cast to [float32]
    equals [-32767.0], the cast sample otherwise.  The cast leaves a
    [float32] sample as it is and an integer of 16 bits (signed or not) at
    its value, so such a sample appears as NaN when it is [-32767] and
    unchanged otherwise; the double [-32767.0] appears as NaN.  The column
    never holds [-32767.0]. *)
Theorem extract_raster_masks_sentinel
    (w : World) (df df' : DataFrame) (path newcol : string) :
  extract_raster w df path newcol = OK df' ->
  exists (src : Dataset) (x y : column) (samples : list (list raw)) (col : column),
    rasterio_open w ("NETCDF:" ++ path ++ ":" ++ newcol)%string = OK src
    /\ getattr df "Longitude" = OK x
    /\ getattr df "Latitude" = OK y
    /\ mapM (fun p => sample src (fst p) (snd p)) (combine x y) = OK samples
    /\ lookup newcol (columns df') = Some col
    /\ List.length col = List.length (List.concat samples)
    /\ (forall (i : nat) (r : raw),
          nth_error (List.concat samples) i = Some r ->
          exists v : spec_float,
            nth_error col i = Some (CFloat float32 v)
            /\ (np.astype_float32 r = sentinel -> v = np.nan)
            /\ (np.astype_float32 r <> sentinel -> v = np.astype_float32 r)
            /\ (forall s : spec_float, r = RFloat float32 s ->
                  (s = sentinel -> v = np.nan) /\ (s <> sentinel -> v = s))
            /\ (forall z : Z, r = RInt z -> (-32768 <= z <= 65535)%Z ->
                  (z = (-32767)%Z -> v = np.nan)
                  /\ (z <> (-32767)%Z -> Spec.denotes v z = true))
            /\ (r = RFloat float64 sentinel64 -> v = np.nan))
    /\ (forall d : dtype, ~ In (CFloat d sentinel) col).
Proof.
  intros H.
  apply extract_raster_OK_inv in H. destruct H as (src & vals & Hsrc & Hvals & Hset).
  apply sampled_values_OK_inv in Hvals.
  destruct Hvals as (x & y & samples & Hx & Hy & Hs & _ & ->).
  apply setitem_OK_inv in Hset. destruct Hset as (_ & _ & Hcol & _).
  exists src, x, y, samples, (map (CFloat float32) (mask_sentinel (map np.astype_float32 (List.concat samples)))).
  repeat (split; [assumption|]).
  split; [|split].
  - rewrite length_map, mask_sentinel_length, length_map. reflexivity.
  - intros i r Hr.
    exists (if SFeqb (np.astype_float32 r) sentinel then np.nan else np.astype_float32 r).
    split; [exact (mask_sentinel_map_nth _ i r Hr)|].
    destruct (SFeqb (np.astype_float32 r) sentinel) eqn:E.
    + split; [reflexivity|]. apply SFeqb_sentinel in E.
      split; [intros Hne; contradiction|].
      split; [|split].
      * intros s ->. split; [reflexivity|]. intros Hne. contradiction.
      * intros z -> Hz. split; [reflexivity|].
        destruct (astype_float32_int z Hz) as [_ H2].
        apply SFeqb_sentinel in E. rewrite E in H2. symmetry in H2.
        apply Z.eqb_eq in H2. intros Hne. contradiction.
      * reflexivity.
    + assert (Hne : np.astype_float32 r <> sentinel).
      { intros Heq. apply SFeqb_sentinel in Heq. congruence. }
      split; [intros Heq; contradiction|]. split; [reflexivity|].
      split; [|split].
      * intros s ->. split; [|reflexivity]. intros ->. contradiction Hne. reflexivity.
      * intros z -> Hz. destruct (astype_float32_int z Hz) as [H1 H2].
        split; [|intros _; exact H1].
        intros ->. rewrite E in H2. discriminate H2.
      * intros ->. contradiction Hne. exact astype_float32_sentinel64.
  - intros d Hin. apply in_map_iff in Hin. destruct Hin as (v & Hv & Hin).
    injection Hv as _ ->. exact (mask_sentinel_free _ Hin).
Qed.

Lemma extract_raster_masks_sentinel_witness :
  exists (src : Dataset) (x y : column) (samples : list (list raw)) (col : column),
    rasterio_open Ex.world "NETCDF:data/modis/jun_2013_sst.nc:sst" = OK src
    /\ getattr Ex.csv "Longitude" = OK x
    /\ getattr Ex.csv "Latitude" = OK y
    /\ mapM (fun p => sample src (fst p) (snd p)) (combine x y) = OK samples
    /\ lookup "sst" (columns Ex.sampled_sst) = Some col
    /\ List.length col = List.length (List.concat samples)
    /\ (forall (i : nat) (r : raw),
          nth_error (List.concat samples) i = Some r ->
          exists v : spec_float,
            nth_error col i = Some (CFloat float32 v)
            /\ (np.astype_float32 r = sentinel -> v = np.nan)
            /\ (np.astype_float32 r <> sentinel -> v = np.astype_float32 r)
            /\ (forall s : spec_float, r = RFloat float32 s ->
                  (s = sentinel -> v = np.nan) /\ (s <> sentinel -> v = s))
            /\ (forall z : Z, r = RInt z -> (-32768 <= z <= 65535)%Z ->
                  (z = (-32767)%Z -> v = np.nan)
                  /\ (z <> (-32767)%Z -> Spec.denotes v z = true))
            /\ (r = RFloat float64 sentinel64 -> v = np.nan))
    /\ (forall d : dtype, ~ In (CFloat d sentinel) col).
Proof.
  apply (extract_raster_masks_sentinel Ex.world Ex.csv Ex.sampled_sst
           "data/modis/jun_2013_sst.nc" "sst").
  vm_compute. reflexivity.
Defined.

(** The claim as first stated does not hold of the samples as stored: the
    cast to [float32] comes before the comparison.  A double just below
    [-32767.0], which is not the missing data value, is rounded onto it and
    appears as NaN; the stored integer [16777217] appears as [16777216.0]. *)
Lemma extract_raster_casts_before_masking :
  exists (sst chl : DataFrame),
    extract_raster Ex.world_of_casts Ex.csv "data/modis/jun_2013_sst.nc" "sst" = OK sst
    /\ sample Ex.raster_of_doubles (Ex.f64 (-122)) (Ex.f64 47)
       = OK [RFloat float64 Ex.near_sentinel64]
    /\ SFeqb Ex.near_sentinel64 sentinel64 = false
    /\ SFltb Ex.near_sentinel64 sentinel64 = true
    /\ lookup "sst" (columns sst) = Some [CFloat float32 np.nan; CFloat float32 np.nan]
    /\ extract_raster Ex.world_of_casts Ex.csv "data/modis/jun_2013_chlor_a.nc" "chlor_a"
       = OK chl
    /\ sample Ex.raster_of_integers (Ex.f64 (-122)) (Ex.f64 47) = OK [RInt 16777217]
    /\ lookup "chlor_a" (columns chl)
       = Some [CFloat float32 (S754_finite false 8388608 1);
               CFloat float32 (S754_finite false 8388608 1)]
    /\ Spec.denotes (S754_finite false 8388608 1) 16777216 = true
    /\ Spec.denotes (S754_finite false 8388608 1) 16777217 = false.
Proof.
  eexists. eexists.
  split; [vm_compute; reflexivity|].
  split; [reflexivity|].
  split; [vm_compute; reflexivity|].
  split; [vm_compute; reflexivity|].
  split; [reflexivity|].
  split; [vm_compute; reflexivity|].
  split; [reflexivity|].
  split; [reflexivity|].
  split; vm_compute; reflexivity.
Qed.

(** The stored integer [-32767] is the missing data value once cast. *)
Lemma astype_float32_sentinel : np.astype_float32 (RInt (-32767)) = sentinel.
Proof. vm_compute. reflexivity. Qed.

(** * One file: the loop over the variables *)

Lemma augment_loop_indices (w : World) (pre vars : list string) (df : DataFrame) :
  foldM (augment_step w (pre ++ vars)) (seq (List.length pre) (List.length vars)) df
  = foldM (augment_var w) vars df.
Proof.
  revert pre df. induction vars as [|v vars IH]; intros pre df; [reflexivity|].
  cbn [List.length seq foldM].
  unfold augment_step at 1, getitem_list.
  rewrite nth_error_app2 by lia. rewrite Nat.sub_diag. cbn [nth_error bind].
  destruct (augment_var w df v) as [df'|e]; cbn [bind]; [|reflexivity].
  specialize (IH (pre ++ [v]) df').
  rewrite <- app_assoc, length_app, Nat.add_1_r in IH. exact IH.
Qed.

Lemma augment_loop_eq (w : World) (vars : list string) (df : DataFrame) :
  foldM (augment_step w vars) (seq 0 (List.length vars)) df
  = foldM (augment_var w) vars df.
Proof. exact (augment_loop_indices w [] vars df). Qed.


Lemma getattr_ext (df df' : DataFrame) (k : string) :
  lookup k (columns df') = lookup k (columns df) -> getattr df' k = getattr df k.
Proof. unfold getattr. intros ->. reflexivity. Qed.

Lemma find_month_ext (csv df : DataFrame) :
  same_inputs csv df -> find_month df = find_month csv.
Proof.
  intros (H & _ & _). unfold find_month.
  rewrite (getattr_ext csv df "Ping_date" H). reflexivity.
Qed.

Lemma get_raster_path_ext (csv df : DataFrame) (v : string) :
  same_inputs csv df -> get_raster_path df v = get_raster_path csv v.
Proof.
  intros H. unfold get_raster_path. rewrite (find_month_ext csv df H). reflexivity.
Qed.

Lemma sampled_values_ext (csv df : DataFrame) (src : Dataset) :
  same_inputs csv df -> sampled_values src df = sampled_values src csv.
Proof.
  intros (_ & Hx & Hy). unfold sampled_values.
  rewrite (getattr_ext csv df "Longitude" Hx), (getattr_ext csv df "Latitude" Hy).
  reflexivity.
Qed.

Lemma sampled_column_ext (w : World) (csv df : DataFrame) (v : string) :
  same_inputs csv df -> sampled_column w df v = sampled_column w csv v.
Proof.
  intros H. unfold sampled_column. rewrite (get_raster_path_ext csv df v H).
  destruct (get_raster_path csv v) as [p|e]; cbn [bind]; [|reflexivity].
  destruct (rasterio_open w _) as [src|e]; cbn [bind]; [|reflexivity].
  rewrite (sampled_values_ext csv df src H). reflexivity.
Qed.

Lemma augment_var_sampled (w : World) (df : DataFrame) (v : string) :
  augment_var w df v = (c <- sampled_column w df v ;; setitem df v c).
Proof.
  unfold augment_var, sampled_column, extract_raster.
  destruct (get_raster_path df v) as [p|e]; cbn [bind]; [|reflexivity].
  destruct (rasterio_open w _) as [src|e]; cbn [bind]; [|reflexivity].
  destruct (sampled_values src df) as [vals|e]; reflexivity.
Qed.

Lemma get_raster_path_OK_supported (df : DataFrame) (v p : string) :
  get_raster_path df v = OK p -> Spec.supported_variable v.
Proof.
  unfold get_raster_path. intros H.
  apply bind_OK_inv in H. destruct H as (m & _ & H).
  apply bind_OK_inv in H. destruct H as (u & Hu & _).
  apply supported_variable_eqb.
  destruct (String.eqb v "chlor_a" || String.eqb v "sst"); [reflexivity | discriminate].
Qed.

Lemma sampled_column_OK_supported (w : World) (df : DataFrame) (v : string) (c : column) :
  sampled_column w df v = OK c -> Spec.supported_variable v.
Proof.
  unfold sampled_column. intros H.
  apply bind_OK_inv in H. destruct H as (p & Hp & _).
  exact (get_raster_path_OK_supported df v p Hp).
Qed.

Lemma supported_not_input (v : string) :
  Spec.supported_variable v ->
  "Ping_date" <> v /\ "Longitude" <> v /\ "Latitude" <> v /\ "Unnamed: 0" <> v.
Proof. intros [-> | ->]; repeat split; discriminate. Qed.

(** The frame after the loop: the row count is unchanged, the columns named
    by the variables hold the sampled columns, the other columns are those
    read from the file. *)
Lemma augment_loop_inv (w : World) (csv : DataFrame) (vars : list string) :
  forall df df1 : DataFrame,
    same_inputs csv df ->
    foldM (augment_var w) vars df = OK df1 ->
    nrows df1 = nrows df
    /\ Forall Spec.supported_variable vars
    /\ (forall k, ~ In k vars -> lookup k (columns df1) = lookup k (columns df))
    /\ (forall v, In v vars ->
          exists c, sampled_column w csv v = OK c /\ lookup v (columns df1) = Some c).
Proof.
  induction vars as [|v vars IH]; intros df df1 Hsame H.
  - injection H as <-. split; [reflexivity|]. split; [apply Forall_nil|].
    split; [reflexivity | intros v []].
  - cbn [foldM] in H. apply bind_OK_inv in H. destruct H as (df' & Hstep & Hrest).
    rewrite augment_var_sampled in Hstep.
    apply bind_OK_inv in Hstep. destruct Hstep as (c & Hc & Hset).
    pose proof (sampled_column_OK_supported w df v c Hc) as Hsup.
    destruct (supported_not_input v Hsup) as (N1 & N2 & N3 & _).
    rewrite (sampled_column_ext w csv df v Hsame) in Hc.
    apply setitem_OK_inv in Hset. destruct Hset as (_ & Hn & Hv & Hother).
    assert (Hsame' : same_inputs csv df').
    { destruct Hsame as (S1 & S2 & S3). unfold same_inputs.
      rewrite (Hother _ N1), (Hother _ N2), (Hother _ N3). auto. }
    destruct (IH df' df1 Hsame' Hrest) as (In1 & In2 & In3 & In4).
    split; [congruence|]. split; [constructor; assumption|]. split.
    + intros k Hk. rewrite In3 by (intros Hin; apply Hk; right; exact Hin).
      apply Hother. intros ->. apply Hk. left. reflexivity.
    + intros v' Hin.
      destruct (in_dec string_dec v' vars) as [Hin' | Hnin]; [exact (In4 v' Hin')|].
      destruct Hin as [<- | Hin]; [|contradiction].
      exists c. split; [exact Hc|]. rewrite (In3 v Hnin). exact Hv.
Qed.

Lemma same_inputs_refl (csv : DataFrame) : same_inputs csv csv.
Proof. repeat split. Qed.

(** * One file: scaling and dropping *)

Lemma mapM_mul_scale_float32 (vals : list spec_float) :
  mapM mul_scale (map (CFloat float32) vals)
  = OK (map (fun v => CFloat float32 (SFmul 24 128 v scale32)) vals).
Proof.
  induction vals as [|v vals IH]; [reflexivity|].
  cbn [map mapM mul_scale bind]. rewrite IH. reflexivity.
Qed.

Lemma imul_scale_OK_inv (df df2 : DataFrame) (k : string) :
  imul_scale df k = OK df2 ->
  exists col col',
    lookup k (columns df) = Some col
    /\ mapM mul_scale col = OK col'
    /\ nrows df2 = nrows df
    /\ lookup k (columns df2) = Some col'
    /\ (forall k0, k0 <> k -> lookup k0 (columns df2) = lookup k0 (columns df)).
Proof.
  unfold imul_scale, getitem. intros H.
  destruct (lookup k (columns df)) as [col|] eqn:Ek; [|discriminate].
  cbn [bind] in H. apply bind_OK_inv in H. destruct H as (col' & Hcol' & Hset).
  apply setitem_OK_inv in Hset. destruct Hset as (_ & Hn & Hk & Hother).
  exists col, col'. auto.
Qed.

Lemma imul_scale_missing (df : DataFrame) (k : string) :
  lookup k (columns df) = None -> imul_scale df k = Raise KeyError.
Proof. unfold imul_scale, getitem. intros ->. reflexivity. Qed.

Lemma lookup_without_neq (k : string) (labels : list string) (l : list (string * column)) :
  ~ In k labels ->
  lookup k (without labels l) = lookup k l.
Proof.
  intros Hk. unfold without. induction l as [|[k' v] l IH]; [reflexivity|].
  cbn [filter fst]. destruct (existsb (String.eqb k') labels) eqn:E; cbn [negb lookup].
  - destruct (String.eqb k k') eqn:Ek; [|exact IH].
    apply String.eqb_eq in Ek. subst k'.
    apply existsb_exists in E. destruct E as (x & Hx & Ex).
    apply String.eqb_eq in Ex. subst x. contradiction.
  - rewrite IH. reflexivity.
Qed.

Lemma lookup_without_eq (k : string) (labels : list string) (l : list (string * column)) :
  In k labels ->
  lookup k (without labels l) = None.
Proof.
  intros Hk. unfold without. induction l as [|[k' v] l IH]; [reflexivity|].
  cbn [filter fst]. destruct (existsb (String.eqb k') labels) eqn:E; cbn [negb lookup].
  - exact IH.
  - destruct (String.eqb k k') eqn:Ek; [|exact IH].
    apply String.eqb_eq in Ek. subst k'.
    assert (E' : existsb (String.eqb k) labels = true).
    { apply existsb_exists. exists k. split; [exact Hk | apply String.eqb_refl]. }
    congruence.
Qed.

Lemma drop_index_OK_inv (df out : DataFrame) :
  drop df ["Unnamed: 0"] = OK out ->
  lookup "Unnamed: 0" (columns df) <> None
  /\ nrows out = nrows df
  /\ lookup "Unnamed: 0" (columns out) = None
  /\ (forall k, k <> "Unnamed: 0" -> lookup k (columns out) = lookup k (columns df))
  /\ columns out = without ["Unnamed: 0"] (columns df).
Proof.
  unfold drop. cbn [forallb].
  destruct (lookup "Unnamed: 0" (columns df)) as [c|] eqn:E; [|discriminate].
  cbn [andb]. intros H. injection H as <-. cbn [nrows columns].
  split; [discriminate|]. split; [reflexivity|]. split; [|split; [|reflexivity]].
  - apply (lookup_without_eq "Unnamed: 0" ["Unnamed: 0"]). left. reflexivity.
  - intros k Hk. apply (lookup_without_neq k ["Unnamed: 0"]). intros [Hin | []]. congruence.
Qed.

Lemma drop_index_missing (df : DataFrame) :
  lookup "Unnamed: 0" (columns df) = None -> drop df ["Unnamed: 0"] = Raise KeyError.
Proof. unfold drop. cbn [forallb]. intros ->. reflexivity. Qed.

(** The four stages of [augment_df]. *)
Lemma augment_df_OK_inv (w : World) (path : string) (variables : list string)
    (out : DataFrame) :
  augment_df w path variables = OK out ->
  exists csv df1 df2,
    pd_read_csv w path = OK csv
    /\ foldM (augment_var w) variables csv = OK df1
    /\ imul_scale df1 "sst" = OK df2
    /\ drop df2 ["Unnamed: 0"] = OK out.
Proof.
  unfold augment_df. intros H.
  apply bind_OK_inv in H. destruct H as (csv & Hcsv & H).
  apply bind_OK_inv in H. destruct H as (df1 & Hloop & H).
  apply bind_OK_inv in H. destruct H as (df2 & Hmul & H).
  rewrite augment_loop_eq in Hloop.
  exists csv, df1, df2. auto.
Qed.

Lemma sampled_column_OK_inv (w : World) (csv : DataFrame) (v : string) (c : column) :
  sampled_column w csv v = OK c ->
  exists p src vals,
    get_raster_path csv v = OK p
    /\ rasterio_open w ("NETCDF:" ++ p ++ ":" ++ v)%string = OK src
    /\ sampled_values src csv = OK vals
    /\ c = map (CFloat float32) (mask_sentinel vals).
Proof.
  unfold sampled_column. intros H.
  apply bind_OK_inv in H. destruct H as (p & Hp & H).
  apply bind_OK_inv in H. destruct H as (src & Hsrc & H).
  apply bind_OK_inv in H. destruct H as (vals & Hvals & H).
  injection H as <-. exists p, src, vals. auto.
Qed.

(** The result of [augment_df], column by column. *)
Lemma augment_df_OK_columns (w : World) (path : string) (variables : list string)
    (out : DataFrame) :
  augment_df w path variables = OK out ->
  exists csv,
    pd_read_csv w path = OK csv
    /\ nrows out = nrows csv
    /\ Forall Spec.supported_variable variables
    /\ lookup "Unnamed: 0" (columns csv) <> None
    /\ lookup "Unnamed: 0" (columns out) = None
    /\ (forall k, k <> "sst" -> k <> "Unnamed: 0" -> ~ In k variables ->
          lookup k (columns out) = lookup k (columns csv))
    /\ (forall k, k <> "sst" -> In k variables ->
          exists c, sampled_column w csv k = OK c /\ lookup k (columns out) = Some c)
    /\ (In "sst" variables ->
          exists vals, sampled_column w csv "sst" = OK (map (CFloat float32) vals)
            /\ lookup "sst" (columns out)
               = Some (map (fun v => CFloat float32 (SFmul 24 128 v scale32)) vals))
    /\ (~ In "sst" variables ->
          exists col col', lookup "sst" (columns csv) = Some col
            /\ mapM mul_scale col = OK col'
            /\ lookup "sst" (columns out) = Some col').
Proof.
  intros H. apply augment_df_OK_inv in H.
  destruct H as (csv & df1 & df2 & Hcsv & Hloop & Hmul & Hdrop).
  destruct (augment_loop_inv w csv variables csv df1 (same_inputs_refl csv) Hloop)
    as (Hn1 & Hsup & Hkeep & Hnew).
  apply imul_scale_OK_inv in Hmul.
  destruct Hmul as (col & col' & Hcol & Hcol' & Hn2 & Hsst & Hother).
  apply drop_index_OK_inv in Hdrop. destruct Hdrop as (Hidx & Hn3 & Hgone & Hrest & _).
  assert (Hni : ~ In "Unnamed: 0" variables).
  { intros Hin. rewrite Forall_forall in Hsup.
    destruct (supported_not_input _ (Hsup _ Hin)) as (_ & _ & _ & N). congruence. }
  exists csv. split; [exact Hcsv|]. split; [congruence|]. split; [exact Hsup|].
  split; [|split; [exact Hgone|]].
  { rewrite <- (Hkeep _ Hni), <- (Hother "Unnamed: 0") by discriminate. exact Hidx. }
  split; [|split; [|split]].
  - intros k K1 K2 K3. rewrite (Hrest k K2), (Hother k K1). exact (Hkeep k K3).
  - intros k K1 Hin. destruct (Hnew k Hin) as (c & Hc & Hl).
    assert (K2 : k <> "Unnamed: 0") by (intros ->; contradiction).
    exists c. split; [exact Hc|]. rewrite (Hrest k K2), (Hother k K1). exact Hl.
  - intros Hin. destruct (Hnew "sst" Hin) as (c & Hc & Hl).
    destruct (sampled_column_OK_inv w csv "sst" c Hc) as (p & src & vals & _ & _ & _ & ->).
    exists (mask_sentinel vals). split; [exact Hc|].
    rewrite (Hrest "sst") by discriminate. rewrite Hsst.
    rewrite Hl in Hcol. injection Hcol as <-.
    rewrite mapM_mul_scale_float32 in Hcol'. injection Hcol' as <-. reflexivity.
  - intros Hnin. exists col, col'.
    rewrite <- (Hkeep "sst" Hnin). split; [exact Hcol|]. split; [exact Hcol'|].
    rewrite (Hrest "sst") by discriminate. exact Hsst.
Qed.

(** The literal of the scale factor and the two constants. *)
Lemma scale_constants :
  scale64 = SFdiv 53 1024 (np.of_int float64 49999999) (np.of_int float64 10000000000)
  /\ scale32 = np.round_to float32 scale64.
Proof. split; vm_compute; reflexivity. Qed.

(** C3.  When [augment_df] returns for a list of variables that has
    ["sst"], its [sst] column is, row by row, the value sampled from the
    SST raster of the month of the table, the missing data value masked,
    multiplied once by [0.0049999999] (as a [float32], the nearest one to
    the Python float of that literal).  No other column is scaled: the
    columns of the other variables are as sampled and the remaining
    columns are as read from the file. *)
Theorem augment_df_scales_sst_once
    (w : World) (path : string) (variables : list string) (out : DataFrame) :
  In "sst" variables ->
  augment_df w path variables = OK out ->
  exists (csv : DataFrame) (p : string) (src : Dataset) (vals : list spec_float),
    pd_read_csv w path = OK csv
    /\ get_raster_path csv "sst" = OK p
    /\ rasterio_open w ("NETCDF:" ++ p ++ ":" ++ "sst")%string = OK src
    /\ sampled_values src csv = OK vals
    /\ lookup "sst" (columns out)
       = Some (map (fun v => CFloat float32 (SFmul 24 128 v scale32)) (mask_sentinel vals))
    /\ (forall k, k <> "sst" -> In k variables ->
          exists c, sampled_column w csv k = OK c /\ lookup k (columns out) = Some c)
    /\ (forall k, k <> "sst" -> k <> "Unnamed: 0" -> ~ In k variables ->
          lookup k (columns out) = lookup k (columns csv))
    /\ scale32
       = np.round_to float32
           (SFdiv 53 1024 (np.of_int float64 49999999) (np.of_int float64 10000000000)).
Proof.
  intros Hin H.
  destruct (augment_df_OK_columns w path variables out H)
    as (csv & Hcsv & _ & _ & _ & _ & Hkeep & Hnew & Hsst & _).
  destruct (Hsst Hin) as (vals' & Hc & Hl).
  destruct (sampled_column_OK_inv w csv "sst" _ Hc) as (p & src & vals & Hp & Hsrc & Hv & E).
  exists csv, p, src, vals.
  repeat (split; [assumption|]).
  split; [|split; [exact Hnew|split; [exact Hkeep|]]].
  - rewrite Hl.
    assert (E' : vals' = mask_sentinel vals).
    { clear -E. revert E. generalize (mask_sentinel vals) as l. intros l.
      revert l. induction vals' as [|a vals' IH]; intros [|b l] E; try discriminate.
      - reflexivity.
      - injection E as -> E. rewrite (IH l E). reflexivity. }
    rewrite E'. reflexivity.
  - destruct scale_constants as [<- E32]. exact E32.
Qed.

Lemma augment_df_scales_sst_once_witness :
  exists (csv : DataFrame) (p : string) (src : Dataset) (vals : list spec_float),
    pd_read_csv Ex.world "data/summaries/a.csv" = OK csv
    /\ get_raster_path csv "sst" = OK p
    /\ rasterio_open Ex.world ("NETCDF:" ++ p ++ ":" ++ "sst")%string = OK src
    /\ sampled_values src csv = OK vals
    /\ lookup "sst" (columns Ex.augmented)
       = Some (map (fun v => CFloat float32 (SFmul 24 128 v scale32)) (mask_sentinel vals))
    /\ (forall k, k <> "sst" -> In k default_variables ->
          exists c, sampled_column Ex.world csv k = OK c
                    /\ lookup k (columns Ex.augmented) = Some c)
    /\ (forall k, k <> "sst" -> k <> "Unnamed: 0" -> ~ In k default_variables ->
          lookup k (columns Ex.augmented) = lookup k (columns csv))
    /\ scale32
       = np.round_to float32
           (SFdiv 53 1024 (np.of_int float64 49999999) (np.of_int float64 10000000000)).
Proof.
  apply (augment_df_scales_sst_once Ex.world "data/summaries/a.csv" default_variables
           Ex.augmented).
  - left. reflexivity.
  - vm_compute. reflexivity.
Defined.

(** * One file: the frame of the result *)

Lemma setitem_columns (df df' : DataFrame) (k : string) (vals : column) :
  setitem df k vals = OK df' ->
  columns df'
  = match lookup k (columns df) with
    | Some _ => replace_col k vals (columns df)
    | None => columns df ++ [(k, vals)]
    end.
Proof.
  unfold setitem. destruct (negb _); [discriminate|].
  destruct (lookup k (columns df)); intros H; injection H as <-; reflexivity.
Qed.

Lemma replace_col_app_None (k : string) (vals : column) (l l' : list (string * column)) :
  lookup k l = None -> replace_col k vals (l ++ l') = l ++ replace_col k vals l'.
Proof.
  induction l as [|[k' v] l IH]; simpl; [reflexivity|].
  destruct (String.eqb k k'); [discriminate|].
  intros H. rewrite (IH H). reflexivity.
Qed.

Lemma without_app (labels : list string) (l l' : list (string * column)) :
  without labels (l ++ l') = without labels l ++ without labels l'.
Proof. apply filter_app. Qed.

(** With no column named as a variable in the file, the two columns are
    added after the original ones. *)
Lemma augment_df_default_new_columns (w : World) (path : string) (csv out : DataFrame) :
  pd_read_csv w path = OK csv ->
  augment_df w path default_variables = OK out ->
  lookup "sst" (columns csv) = None ->
  lookup "chlor_a" (columns csv) = None ->
  exists sst chl,
    columns out = without ["Unnamed: 0"] (columns csv) ++ [("sst", sst); ("chlor_a", chl)].
Proof.
  intros Hcsv H Hs Hc. apply augment_df_OK_inv in H.
  destruct H as (csv' & df1 & df2 & Hcsv' & Hloop & Hmul & Hdrop).
  rewrite Hcsv in Hcsv'. injection Hcsv' as <-.
  unfold default_variables in Hloop. cbn [foldM] in Hloop.
  apply bind_OK_inv in Hloop. destruct Hloop as (dfa & Ha & Hloop).
  apply bind_OK_inv in Hloop. destruct Hloop as (dfb & Hb & Hloop).
  injection Hloop as <-.
  rewrite augment_var_sampled in Ha, Hb.
  apply bind_OK_inv in Ha. destruct Ha as (c1 & _ & Ha).
  apply bind_OK_inv in Hb. destruct Hb as (c2 & _ & Hb).
  apply setitem_columns in Ha, Hb. rewrite Hs in Ha.
  assert (Hc' : lookup "chlor_a" (columns dfa) = None).
  { rewrite Ha, (lookup_app_None "chlor_a" _ _ Hc). reflexivity. }
  rewrite Hc', Ha in Hb.
  unfold imul_scale, getitem in Hmul.
  destruct (lookup "sst" (columns dfb)) as [col|] eqn:El; [|discriminate].
  cbn [bind] in Hmul. apply bind_OK_inv in Hmul. destruct Hmul as (col' & _ & Hmul).
  apply setitem_columns in Hmul. rewrite El, Hb in Hmul.
  rewrite <- app_assoc in Hmul. rewrite (replace_col_app_None "sst" col' _ _ Hs) in Hmul.
  apply drop_index_OK_inv in Hdrop. destruct Hdrop as (_ & _ & _ & _ & Hout).
  rewrite Hout, Hmul, without_app.
  exists col', c2. reflexivity.
Qed.

(** C5, as first stated, fails on [Ex.csv_with_variables]: [augment_df]
    returns, and the table keeps neither its [sst] nor its [chlor_a]
    values, both columns being overwritten by the samples. *)
Lemma augment_df_overwrites_named_columns :
  exists csv out,
    pd_read_csv Ex.world "data/summaries/b.csv" = OK csv
    /\ augment_df Ex.world "data/summaries/b.csv" default_variables = OK out
    /\ ~ preserves_original_columns csv out.
Proof.
  exists Ex.csv_with_variables, Ex.augmented.
  split; [reflexivity|]. split; [vm_compute; reflexivity|].
  intros H.
  specialize (H "chlor_a" [Ex.f64 7; Ex.f64 8]).
  assert (E : lookup "chlor_a" (columns Ex.augmented) = Some [Ex.f64 7; Ex.f64 8]).
  { apply H; [discriminate | reflexivity]. }
  vm_compute in E. discriminate E.
Qed.

(** The result of [augment_df] for the default variables, column by
    column. *)
Lemma augment_df_frame_columns (w : World) (path : string) (out : DataFrame) :
  augment_df w path default_variables = OK out ->
  exists (csv : DataFrame) (sst : list spec_float) (chl : column),
    pd_read_csv w path = OK csv
    /\ nrows out = nrows csv
    /\ lookup "Unnamed: 0" (columns out) = None
    /\ (forall k, k <> "Unnamed: 0" -> k <> "sst" -> k <> "chlor_a" ->
          lookup k (columns out) = lookup k (columns csv))
    /\ sampled_column w csv "sst" = OK (map (CFloat float32) sst)
    /\ lookup "sst" (columns out)
       = Some (map (fun v => CFloat float32 (SFmul 24 128 v scale32)) sst)
    /\ List.length sst = nrows csv
    /\ sampled_column w csv "chlor_a" = OK chl
    /\ lookup "chlor_a" (columns out) = Some chl
    /\ List.length chl = nrows csv.
Proof.
  intros H.
  destruct (augment_df_OK_columns w path default_variables out H)
    as (csv & Hcsv & Hn & _ & _ & Hgone & Hkeep & Hnew & Hsst & _).
  destruct (Hsst (or_introl eq_refl)) as (sst & Hs1 & Hs2).
  destruct (Hnew "chlor_a") as (chl & Hc1 & Hc2);
    [discriminate | right; left; reflexivity |].
  assert (Hkeep' : forall k, k <> "Unnamed: 0" -> k <> "sst" -> k <> "chlor_a" ->
                    lookup k (columns out) = lookup k (columns csv)).
  { intros k K1 K2 K3. apply Hkeep; [exact K2 | exact K1 |].
    intros [E | [E | []]]; congruence. }
  assert (Hlen : List.length sst = nrows csv /\ List.length chl = nrows csv).
  { pose proof H as H'. apply augment_df_OK_inv in H'.
    destruct H' as (csv' & df1 & df2 & Hcsv' & Hloop & Hmul & Hdrop).
    rewrite Hcsv in Hcsv'. injection Hcsv' as <-.
    unfold default_variables in Hloop. cbn [foldM] in Hloop.
    apply bind_OK_inv in Hloop. destruct Hloop as (dfa & Ha & Hloop).
    apply bind_OK_inv in Hloop. destruct Hloop as (dfb & Hb & _).
    rewrite augment_var_sampled in Ha, Hb.
    rewrite Hs1 in Ha. cbn [bind] in Ha.
    apply setitem_OK_inv in Ha. destruct Ha as (La & Na & _ & Oa).
    assert (Sa : same_inputs csv dfa).
    { unfold same_inputs. rewrite !Oa by discriminate. repeat split. }
    rewrite (sampled_column_ext w csv dfa "chlor_a" Sa), Hc1 in Hb. cbn [bind] in Hb.
    apply setitem_OK_inv in Hb. destruct Hb as (Lb & _).
    rewrite length_map in La. split; congruence. }
  destruct Hlen as [L1 L2].
  exists csv, sst, chl.
  repeat (split; [assumption|]). exact L2.
Qed.

(** C5 (amended).  When [augment_df] returns for the default variables, the
    result has as many rows as the file; every original column other than
    ['Unnamed: 0'], [sst] and [chlor_a] is there with its values; the
    columns [sst] and [chlor_a] hold one sampled value per row (the SST
    scaled); there is no ['Unnamed: 0'] column.  When the file has no
    column named [sst] or [chlor_a], the result is exactly the original
    columns without the index column, in their order, followed by the new
    [sst] and [chlor_a] columns. *)
Theorem augment_df_frame (w : World) (path : string) (out : DataFrame) :
  augment_df w path default_variables = OK out ->
  exists (csv : DataFrame) (sst : list spec_float) (chl : column),
    pd_read_csv w path = OK csv
    /\ nrows out = nrows csv
    /\ lookup "Unnamed: 0" (columns out) = None
    /\ (forall k, k <> "Unnamed: 0" -> k <> "sst" -> k <> "chlor_a" ->
          lookup k (columns out) = lookup k (columns csv))
    /\ sampled_column w csv "sst" = OK (map (CFloat float32) sst)
    /\ lookup "sst" (columns out)
       = Some (map (fun v => CFloat float32 (SFmul 24 128 v scale32)) sst)
    /\ List.length sst = nrows csv
    /\ sampled_column w csv "chlor_a" = OK chl
    /\ lookup "chlor_a" (columns out) = Some chl
    /\ List.length chl = nrows csv
    /\ (lookup "sst" (columns csv) = None -> lookup "chlor_a" (columns csv) = None ->
          preserves_original_columns csv out
          /\ columns out
             = without ["Unnamed: 0"] (columns csv)
               ++ [ ("sst", map (fun v => CFloat float32 (SFmul 24 128 v scale32)) sst);
                    ("chlor_a", chl) ]).
Proof.
  intros H.
  destruct (augment_df_frame_columns w path out H)
    as (csv & sst & chl & Hcsv & Hn & Hgone & Hkeep & Hs1 & Hs2 & L1 & Hc1 & Hc2 & L2).
  exists csv, sst, chl.
  repeat (split; [assumption|]).
  intros Ns Nc.
  destruct (augment_df_default_new_columns w path csv out Hcsv H Ns Nc)
    as (X & Y & Hcols).
  split.
  - intros k c K Hk. rewrite Hkeep; [exact Hk | exact K | |]; intros ->; congruence.
  - assert (Hw : forall k, k <> "Unnamed: 0" ->
                  lookup k (without ["Unnamed: 0"] (columns csv)) = lookup k (columns csv)).
    { intros k K. apply lookup_without_neq. intros [E | []]. congruence. }
    rewrite Hcols in Hs2, Hc2.
    rewrite lookup_app_None in Hs2 by (rewrite Hw by discriminate; exact Ns).
    rewrite lookup_app_None in Hc2 by (rewrite Hw by discriminate; exact Nc).
    cbn in Hs2, Hc2. injection Hs2 as ->. injection Hc2 as ->. exact Hcols.
Qed.

Lemma augment_df_frame_witness :
  exists (csv : DataFrame) (sst : list spec_float) (chl : column),
    pd_read_csv Ex.world "data/summaries/a.csv" = OK csv
    /\ nrows Ex.augmented = nrows csv
    /\ lookup "Unnamed: 0" (columns Ex.augmented) = None
    /\ (forall k, k <> "Unnamed: 0" -> k <> "sst" -> k <> "chlor_a" ->
          lookup k (columns Ex.augmented) = lookup k (columns csv))
    /\ sampled_column Ex.world csv "sst" = OK (map (CFloat float32) sst)
    /\ lookup "sst" (columns Ex.augmented)
       = Some (map (fun v => CFloat float32 (SFmul 24 128 v scale32)) sst)
    /\ List.length sst = nrows csv
    /\ sampled_column Ex.world csv "chlor_a" = OK chl
    /\ lookup "chlor_a" (columns Ex.augmented) = Some chl
    /\ List.length chl = nrows csv
    /\ (lookup "sst" (columns csv) = None -> lookup "chlor_a" (columns csv) = None ->
          preserves_original_columns csv Ex.augmented
          /\ columns Ex.augmented
             = without ["Unnamed: 0"] (columns csv)
               ++ [ ("sst", map (fun v => CFloat float32 (SFmul 24 128 v scale32)) sst);
                    ("chlor_a", chl) ]).
Proof.
  apply (augment_df_frame Ex.world "data/summaries/a.csv" Ex.augmented).
  vm_compute. reflexivity.
Defined.

(** * One file: the preconditions of the last two statements *)

Lemma augment_df_stages (w : World) (path : string) (variables : list string)
    (csv : DataFrame) :
  pd_read_csv w path = OK csv ->
  augment_df w path variables
  = (df1 <- foldM (augment_var w) variables csv ;;
     df2 <- imul_scale df1 "sst" ;;
     drop df2 ["Unnamed: 0"]).
Proof.
  intros H. unfold augment_df. rewrite H. cbn [bind].
  rewrite augment_loop_eq. reflexivity.
Qed.

(** C9, as first stated, fails on [Ex.csv_with_variables]: with
    ["chlor_a"] alone [augment_df] returns a table, the file having an
    [sst] column of its own for the scaling statement to find. *)
Lemma augment_df_without_sst_may_return :
  ~ In "sst" ["chlor_a"]
  /\ exists out, augment_df Ex.world "data/summaries/b.csv" ["chlor_a"] = OK out.
Proof.
  split.
  - intros [H | []]. discriminate H.
  - eexists. vm_compute. reflexivity.
Qed.

(** C9 (amended).  For a list of variables without ["sst"] and a file that
    has no [sst] column, [augment_df] raises instead of returning a table;
    when the loop over the variables completes, the exception is the
    [KeyError] of the scaling statement, on the missing [sst] column. *)
Theorem augment_df_without_sst_raises
    (w : World) (path : string) (variables : list string) (csv : DataFrame) :
  ~ In "sst" variables ->
  pd_read_csv w path = OK csv ->
  lookup "sst" (columns csv) = None ->
  raises (augment_df w path variables)
  /\ (forall df1,
        foldM (augment_step w variables) (seq 0 (List.length variables)) csv = OK df1 ->
        augment_df w path variables = Raise KeyError).
Proof.
  intros Hnin Hcsv Hnone.
  assert (Hkey : forall df1, foldM (augment_var w) variables csv = OK df1 ->
                   augment_df w path variables = Raise KeyError).
  { intros df1 Hloop. rewrite (augment_df_stages w path variables csv Hcsv), Hloop.
    cbn [bind].
    destruct (augment_loop_inv w csv variables csv df1 (same_inputs_refl csv) Hloop)
      as (_ & _ & Hkeep & _).
    rewrite (imul_scale_missing df1 "sst") by (rewrite (Hkeep "sst" Hnin); exact Hnone).
    reflexivity. }
  split.
  - destruct (foldM (augment_var w) variables csv) as [df1|e] eqn:Hloop.
    + exists KeyError. exact (Hkey df1 eq_refl).
    + exists e. rewrite (augment_df_stages w path variables csv Hcsv), Hloop. reflexivity.
  - intros df1 Hloop. rewrite augment_loop_eq in Hloop. exact (Hkey df1 Hloop).
Qed.

Lemma augment_df_without_sst_raises_witness :
  raises (augment_df Ex.world "data/summaries/a.csv" ["chlor_a"])
  /\ augment_df Ex.world "data/summaries/a.csv" ["chlor_a"] = Raise KeyError.
Proof.
  assert (H1 : ~ In "sst" ["chlor_a"]) by (intros [H | []]; discriminate H).
  assert (H2 : pd_read_csv Ex.world "data/summaries/a.csv" = OK Ex.csv) by reflexivity.
  assert (H3 : lookup "sst" (columns Ex.csv) = None) by reflexivity.
  destruct (augment_df_without_sst_raises Ex.world "data/summaries/a.csv" ["chlor_a"]
              Ex.csv H1 H2 H3) as [Hr Hk].
  split; [exact Hr|].
  apply (Hk Ex.sampled_chlor_a). vm_compute. reflexivity.
Defined.

(** C10.  For a file without an ['Unnamed: 0'] column, [augment_df] raises
    whatever the variables: the column is never created on the way, and
    when the statements before the drop complete, the exception is the
    [KeyError] of the drop. *)
Theorem augment_df_requires_index_column
    (w : World) (path : string) (variables : list string) (csv : DataFrame) :
  pd_read_csv w path = OK csv ->
  lookup "Unnamed: 0" (columns csv) = None ->
  raises (augment_df w path variables)
  /\ (forall df1 df2,
        foldM (augment_step w variables) (seq 0 (List.length variables)) csv = OK df1 ->
        imul_scale df1 "sst" = OK df2 ->
        augment_df w path variables = Raise KeyError).
Proof.
  intros Hcsv Hnone. split.
  - destruct (OK_or_raises (augment_df w path variables)) as [[out H] | H]; [|exact H].
    destruct (augment_df_OK_columns w path variables out H)
      as (csv' & Hcsv' & _ & _ & Hidx & _).
    rewrite Hcsv in Hcsv'. injection Hcsv' as <-. contradiction.
  - intros df1 df2 Hloop Hmul. rewrite augment_loop_eq in Hloop.
    rewrite (augment_df_stages w path variables csv Hcsv), Hloop. cbn [bind].
    rewrite Hmul. cbn [bind].
    destruct (augment_loop_inv w csv variables csv df1 (same_inputs_refl csv) Hloop)
      as (_ & Hsup & Hkeep & _).
    apply imul_scale_OK_inv in Hmul.
    destruct Hmul as (col & col' & _ & _ & _ & _ & Hother).
    apply drop_index_missing.
    rewrite (Hother "Unnamed: 0") by discriminate.
    rewrite Hkeep; [exact Hnone|].
    intros Hin. rewrite Forall_forall in Hsup.
    destruct (supported_not_input _ (Hsup _ Hin)) as (_ & _ & _ & N). congruence.
Qed.

Lemma augment_df_requires_index_column_witness :
  raises (augment_df Ex.world "data/summaries/c.csv" default_variables)
  /\ augment_df Ex.world "data/summaries/c.csv" default_variables = Raise KeyError.
Proof.
  assert (H1 : pd_read_csv Ex.world "data/summaries/c.csv" = OK Ex.csv_without_index)
    by reflexivity.
  assert (H2 : lookup "Unnamed: 0" (columns Ex.csv_without_index) = None) by reflexivity.
  destruct (augment_df_requires_index_column Ex.world "data/summaries/c.csv"
              default_variables Ex.csv_without_index H1 H2) as [Hr Hk].
  split; [exact Hr|].
  apply (Hk Ex.sampled_both Ex.augmented); vm_compute; reflexivity.
Defined.

(** * All files: concatenation *)

Lemma mapM_Forall2 {A B : Type} (f : A -> result B) (l : list A) (l' : list B) :
  mapM f l = OK l' -> Forall2 (fun a b => f a = OK b) l l'.
Proof.
  revert l'. induction l as [|a l IH]; intros l' H.
  - injection H as <-. constructor.
  - cbn [mapM] in H. apply bind_OK_inv in H. destruct H as (b & Hb & H).
    apply bind_OK_inv in H. destruct H as (bs & Hbs & H).
    injection H as <-. constructor; [exact Hb | exact (IH bs Hbs)].
Qed.

Lemma augment_df_rows_in_place (w : World) (p : string) (t : DataFrame) :
  augment_df w p default_variables = OK t -> rows_in_place w p t.
Proof.
  intros H. destruct (augment_df_frame_columns w p t H)
    as (csv & sst & chl & Hcsv & Hn & _ & Hkeep & _ & Hs & Ls & _).
  exists csv. split; [exact Hcsv|]. split; [exact Hn|]. split; [exact Hkeep|].
  eexists. split; [exact Hs|]. rewrite length_map. congruence.
Qed.

Lemma union_labels_In (k : string) (l seen : list string) :
  In k l -> ~ In k seen -> In k (pd.union_labels seen l).
Proof.
  revert seen. induction l as [|x l IH]; intros seen Hin Hseen; [contradiction|].
  cbn [pd.union_labels].
  destruct (existsb (String.eqb x) seen) eqn:E.
  - destruct Hin as [-> | Hin]; [|exact (IH seen Hin Hseen)].
    apply existsb_exists in E. destruct E as (y & Hy & Ey).
    apply String.eqb_eq in Ey. subst y. contradiction.
  - destruct (string_dec x k) as [-> | Hne]; [left; reflexivity|].
    right. destruct Hin as [E' | Hin]; [contradiction|].
    apply IH; [exact Hin|]. intros [E' | Hs]; contradiction.
Qed.

Lemma lookup_In_fst {V : Type} (k : string) (l : list (string * V)) (v : V) :
  lookup k l = Some v -> In k (map fst l).
Proof.
  induction l as [|[k' v'] l IH]; simpl; [discriminate|].
  destruct (String.eqb k k') eqn:E.
  - apply String.eqb_eq in E. auto.
  - intros H. right. exact (IH H).
Qed.

Lemma lookup_map_labels (k : string) (f : string -> column) (labels : list string) :
  lookup k (map (fun x => (x, f x)) labels)
  = if in_dec string_dec k labels then Some (f k) else None.
Proof.
  induction labels as [|x labels IH]; [reflexivity|].
  cbn [map lookup]. destruct (String.eqb k x) eqn:E.
  - apply String.eqb_eq in E. subst x.
    destruct (in_dec string_dec k (k :: labels)) as [_ | N]; [reflexivity|].
    exfalso. apply N. left. reflexivity.
  - apply String.eqb_neq in E. rewrite IH.
    destruct (in_dec string_dec k labels) as [I | N];
      destruct (in_dec string_dec k (x :: labels)) as [I' | N']; try reflexivity.
    + exfalso. apply N'. right. exact I.
    + exfalso. destruct I' as [E' | I']; [congruence | contradiction].
Qed.

Lemma concat_OK_inv (objs : list DataFrame) (out : DataFrame) :
  pd.concat objs = OK out ->
  objs <> []
  /\ nrows out = list_sum (map nrows objs)
  /\ (forall k c, lookup k (columns out) = Some c ->
        c = flat_map (pd.rows_of (pd.common_dtype (pd.values_of k objs)
                                    (existsb (pd.lacks k) objs)) k) objs)
  /\ (forall k df c, In df objs -> lookup k (columns df) = Some c ->
        lookup k (columns out)
        = Some (flat_map (pd.rows_of (pd.common_dtype (pd.values_of k objs)
                                        (existsb (pd.lacks k) objs)) k) objs)).
Proof.
  unfold pd.concat. destruct objs as [|df0 objs]; [discriminate|].
  intros H. injection H as <-. cbn [nrows columns].
  split; [discriminate|]. split; [reflexivity|].
  pose proof (lookup_map_labels) as L.
  split.
  - intros k c Hk.
    rewrite (L k (fun k => flat_map (pd.rows_of (pd.common_dtype
               (pd.values_of k (df0 :: objs)) (existsb (pd.lacks k) (df0 :: objs))) k)
               (df0 :: objs))) in Hk.
    destruct (in_dec string_dec k _); [|discriminate]. injection Hk as <-. reflexivity.
  - intros k df c Hdf Hk.
    rewrite (L k (fun k => flat_map (pd.rows_of (pd.common_dtype
               (pd.values_of k (df0 :: objs)) (existsb (pd.lacks k) (df0 :: objs))) k)
               (df0 :: objs))).
    destruct (in_dec string_dec k _) as [_ | N]; [reflexivity|].
    exfalso. apply N.
    change (In k (pd.union_labels []
                    (flat_map (fun df => map fst (columns df)) (df0 :: objs)))).
    apply union_labels_In; [|intros []].
    apply in_flat_map. exists df. split; [exact Hdf|].
    exact (lookup_In_fst k (columns df) c Hk).
Qed.

Lemma concat_nonempty (objs : list DataFrame) :
  objs <> [] -> exists out, pd.concat objs = OK out.
Proof.
  destruct objs as [|df0 objs]; [contradiction|]. intros _. eexists. reflexivity.
Qed.

Lemma rows_in_place_sums (w : World) (paths : list string) (tables : list DataFrame) :
  Forall2 (rows_in_place w) paths tables ->
  list_sum (map nrows tables) = list_sum (map (csv_rows w) paths).
Proof.
  induction 1 as [|p t paths tables Hpt _ IH]; [reflexivity|].
  destruct Hpt as (csv & Hcsv & Hn & _).
  assert (E1 : list_sum (map nrows (t :: tables))
               = nrows t + list_sum (map nrows tables)) by reflexivity.
  assert (E2 : list_sum (map (csv_rows w) (p :: paths))
               = csv_rows w p + list_sum (map (csv_rows w) paths)) by reflexivity.
  assert (E4 : csv_rows w p = nrows csv) by (unfold csv_rows; rewrite Hcsv; reflexivity).
  rewrite E1, E2, E4, IH, Hn. reflexivity.
Qed.

(** * The fetcher *)

Section FetcherLemmas.

Import Fetcher.

Lemma mkdir_inv (p : string) (st : state) :
  (exists e, mkdir p st = Failed e st)
  \/ (path_exists p st = false
      /\ mkdir p st = Done tt (mkState ((p, Dir) :: fs st) (requests st))).
Proof.
  unfold mkdir. destruct (path_exists p st); [left; eexists; reflexivity|].
  destruct (check_parent p st) as [e|]; [left; eexists; reflexivity|].
  right. split; reflexivity.
Qed.

Lemma makedirs_ncdf_dir (st : state) :
  makedirs ncdf_dir st
  = if path_exists "data" st then mkdir "data/modis" st
    else match mkdir "data" st with
         | Done _ st' => mkdir "data/modis" st'
         | Failed FileExistsError st' => mkdir "data/modis" st'
         | Failed e st' => Failed e st'
         end.
Proof.
  unfold makedirs, ncdf_dir.
  change (os_path.join "data" ["modis"]) with "data/modis".
  change (S (String.length "data/modis")) with 11.
  cbn [makedirs_fuel].
  change (os_path.split "data/modis") with ("data", "modis").
  cbv iota beta.
  change (String.eqb "modis" EmptyString) with false. cbv iota.
  change (negb (String.eqb "data" EmptyString)) with true.
  change (negb (String.eqb "modis" EmptyString)) with true.
  cbn [andb].
  change (os_path.split "data") with (EmptyString, "data").
  cbv iota beta.
  change (String.eqb "data" EmptyString) with false. cbv iota.
  change (negb (String.eqb EmptyString EmptyString)) with false.
  cbn [andb]. cbv iota.
  change (String.eqb "modis" ".") with false. cbv iota.
  destruct (path_exists "data" st); cbn [negb]; cbv iota; [reflexivity|].
  destruct (mkdir "data" st) as [[] st'|e st']; [reflexivity|].
  destruct e; reflexivity.
Qed.

Lemma path_exists_head (p : string) (n : node) (l : list (string * node)) (r : list string) :
  path_exists p (mkState ((p, n) :: l) r) = true.
Proof. unfold path_exists. cbn [fs lookup]. rewrite String.eqb_refl. reflexivity. Qed.

Lemma mkdir_Done_inv (p : string) (st st' : state) :
  mkdir p st = Done tt st' ->
  path_exists p st' = true /\ requests st' = requests st
  /\ lookup p (fs st') = Some Dir.
Proof.
  destruct (mkdir_inv p st) as [[e H] | [_ H]]; rewrite H; [discriminate|].
  intros E. injection E as <-. split; [apply path_exists_head|].
  split; [reflexivity|]. cbn [fs lookup]. rewrite String.eqb_refl. reflexivity.
Qed.

Lemma mkdir_Failed_inv (p : string) (st st' : state) (e : exn) :
  mkdir p st = Failed e st' -> st' = st.
Proof.
  destruct (mkdir_inv p st) as [[e' H] | [_ H]]; rewrite H; [|discriminate].
  intros E. injection E as _ <-. reflexivity.
Qed.

Lemma makedirs_ncdf_dir_Done (st st' : state) :
  makedirs ncdf_dir st = Done tt st' ->
  path_exists ncdf_dir st' = true /\ requests st' = requests st
  /\ lookup ncdf_dir (fs st') = Some Dir.
Proof.
  rewrite makedirs_ncdf_dir. change ncdf_dir with "data/modis".
  destruct (path_exists "data" st); [apply mkdir_Done_inv|].
  destruct (mkdir "data" st) as [[] st1|e st1] eqn:E1.
  - apply mkdir_Done_inv in E1. destruct E1 as (_ & R1 & _).
    intros H. apply mkdir_Done_inv in H. destruct H as (H & R2 & D).
    split; [exact H|]. split; [congruence | exact D].
  - apply mkdir_Failed_inv in E1. subst st1.
    destruct e; try discriminate. apply mkdir_Done_inv.
Qed.

Lemma makedirs_ncdf_dir_Failed (st st' : state) (e : exn) :
  makedirs ncdf_dir st = Failed e st' -> requests st' = requests st.
Proof.
  rewrite makedirs_ncdf_dir.
  destruct (path_exists "data" st).
  - intros H. apply mkdir_Failed_inv in H. congruence.
  - destruct (mkdir "data" st) as [[] st1|e1 st1] eqn:E1.
    + apply mkdir_Done_inv in E1. destruct E1 as (_ & R1 & _).
      intros H. apply mkdir_Failed_inv in H. congruence.
    + apply mkdir_Failed_inv in E1. subst st1.
      destruct e1; intros H; try (injection H as _ <-; reflexivity);
        apply mkdir_Failed_inv in H; congruence.
Qed.

Lemma ensure_dir_present (st : state) :
  path_exists ncdf_dir st = true -> ensure_dir st = Done tt st.
Proof. unfold ensure_dir. intros ->. reflexivity. Qed.

Lemma ensure_dir_Done_inv (st st1 : state) :
  ensure_dir st = Done tt st1 ->
  path_exists ncdf_dir st1 = true /\ requests st1 = requests st
  /\ ((forall c, lookup ncdf_dir (fs st) <> Some (File c)) ->
      lookup ncdf_dir (fs st1) = Some Dir).
Proof.
  unfold ensure_dir. destruct (path_exists ncdf_dir st) eqn:E; cbn [negb].
  - intros H. injection H as <-. split; [exact E|]. split; [reflexivity|].
    intros Hfile. unfold path_exists in E.
    destruct (lookup ncdf_dir (fs st)) as [[|c]|]; [reflexivity | | discriminate].
    exfalso. exact (Hfile c eq_refl).
  - intros H. apply makedirs_ncdf_dir_Done in H. destruct H as (H & R & D). auto.
Qed.

Lemma ensure_dir_Failed_inv (st st1 : state) (e : exn) :
  ensure_dir st = Failed e st1 -> requests st1 = requests st.
Proof.
  unfold ensure_dir. destruct (path_exists ncdf_dir st); cbn [negb];
    [discriminate | apply makedirs_ncdf_dir_Failed].
Qed.

Lemma COPY_BUFSIZE_pos : 0 < COPY_BUFSIZE.
Proof. unfold COPY_BUFSIZE. lia. Qed.

Lemma read_full (closed : bool) (data : list Byte.byte) :
  COPY_BUFSIZE <= List.length data ->
  exists c buf,
    firstn COPY_BUFSIZE data = c :: buf
    /\ read closed data = Bytes (c :: buf) (skipn COPY_BUFSIZE data).
Proof.
  intros H. unfold read. apply Nat.leb_le in H. rewrite H. apply Nat.leb_le in H.
  pose proof COPY_BUFSIZE_pos as Hpos.
  pose proof (firstn_length_le data H) as L.
  destruct (firstn COPY_BUFSIZE data) as [|c buf]; [cbn [List.length] in L; lia|].
  exists c, buf. split; reflexivity.
Qed.

Lemma read_short (closed : bool) (data : list Byte.byte) :
  List.length data < COPY_BUFSIZE ->
  read closed data = if closed then Bytes data [] else Reset.
Proof.
  intros H. unfold read. apply Nat.leb_gt in H. rewrite H. reflexivity.
Qed.

(** A stream that is closed is copied whole. *)
Lemma copy_loop_closed (fuel : nat) :
  forall data written : list Byte.byte,
    List.length data < fuel ->
    copy_loop fuel true data written = (written ++ data, None).
Proof.
  pose proof COPY_BUFSIZE_pos as Hpos.
  induction fuel as [|fuel IH]; intros data written Hf; [lia|].
  cbn [copy_loop].
  destruct (le_lt_dec COPY_BUFSIZE (List.length data)) as [Hfull | Hshort].
  - destruct (read_full true data Hfull) as (c & buf & E & ->).
    rewrite IH by (rewrite length_skipn; lia).
    rewrite <- E, <- app_assoc, firstn_skipn. reflexivity.
  - rewrite (read_short true data Hshort).
    destruct data as [|c data]; [rewrite app_nil_r; reflexivity|].
    destruct fuel as [|fuel]; [cbn [List.length] in Hf; lia|].
    cbn [copy_loop]. rewrite (read_short true [] Hpos). reflexivity.
Qed.

(** Of a stream that is reset, the whole buffers read before are written. *)
Lemma copy_loop_reset (fuel : nat) :
  forall data written : list Byte.byte,
    List.length data < fuel ->
    exists copied lost : list Byte.byte,
      copy_loop fuel false data written = (written ++ copied, Some ConnectionError)
      /\ data = copied ++ lost
      /\ List.length lost < COPY_BUFSIZE
      /\ exists n, List.length copied = n * COPY_BUFSIZE.
Proof.
  pose proof COPY_BUFSIZE_pos as Hpos.
  induction fuel as [|fuel IH]; intros data written Hf; [lia|].
  cbn [copy_loop].
  destruct (le_lt_dec COPY_BUFSIZE (List.length data)) as [Hfull | Hshort].
  - destruct (read_full false data Hfull) as (c & buf & E & ->).
    destruct (IH (skipn COPY_BUFSIZE data) (written ++ c :: buf))
      as (copied & lost & H1 & H2 & H3 & n & H4); [rewrite length_skipn; lia|].
    exists (firstn COPY_BUFSIZE data ++ copied), lost.
    split; [rewrite H1, <- E, <- app_assoc; reflexivity|].
    split; [rewrite <- app_assoc, <- H2, firstn_skipn; reflexivity|].
    split; [exact H3|]. exists (S n).
    rewrite length_app, (firstn_length_le data Hfull), H4. reflexivity.
  - rewrite (read_short false data Hshort).
    exists [], data. split; [rewrite app_nil_r; reflexivity|].
    split; [reflexivity|]. split; [exact Hshort|]. exists 0. reflexivity.
Qed.

Lemma copyfileobj_Body (b : list Byte.byte) (file_name : string) (st : state) :
  copyfileobj (Body b) file_name st
  = Done tt (mkState ((file_name, File b) :: fs st) (requests st)).
Proof.
  unfold copyfileobj. rewrite (copy_loop_closed (S (List.length b)) b []) by lia.
  reflexivity.
Qed.

Lemma copyfileobj_Broken (b : list Byte.byte) (file_name : string) (st : state) :
  exists copied lost : list Byte.byte,
    copyfileobj (Broken b) file_name st
    = Failed ConnectionError (mkState ((file_name, File copied) :: fs st) (requests st))
    /\ b = copied ++ lost
    /\ List.length lost < COPY_BUFSIZE
    /\ exists n, List.length copied = n * COPY_BUFSIZE.
Proof.
  destruct (copy_loop_reset (S (List.length b)) b []) as (copied & lost & H & Hrest);
    [lia|].
  exists copied, lost. split; [|exact Hrest].
  unfold copyfileobj. rewrite H. reflexivity.
Qed.

(** One download: the request is made; on success the file holds the body;
    no other path is touched, whether it succeeds or not. *)
Lemma download_inv (net : network) (key value : string) (st : state) :
  (exists b st',
      download net (key, value) st = Done tt st'
      /\ net value = Body b
      /\ lookup (file_name_of key) (fs st') = Some (File b)
      /\ requests st' = requests st ++ [value]
      /\ (forall p, p <> file_name_of key -> lookup p (fs st') = lookup p (fs st)))
  \/ (exists e st',
      download net (key, value) st = Failed e st'
      /\ requests st' = requests st ++ [value]
      /\ (forall p, p <> file_name_of key -> lookup p (fs st') = lookup p (fs st))).
Proof.
  unfold download, seq_, urlopen.
  destruct (net value) as [|b|b] eqn:En; cbv iota beta.
  - right. eexists _, _. split; [reflexivity|]. split; reflexivity.
  - unfold open_wb. cbn [fs requests].
    destruct (lookup (file_name_of key) (fs st)) as [[|c]|] eqn:El;
      [right; eexists _, _; split; [reflexivity|]; split; reflexivity | |];
      (destruct (check_parent (file_name_of key) _) as [e|];
       [right; eexists _, _; split; [reflexivity|]; split; reflexivity|]);
      rewrite copyfileobj_Body;
      left; exists b; eexists; (split; [reflexivity|]); (split; [reflexivity|]);
      cbn [fs requests lookup]; rewrite String.eqb_refl; (split; [reflexivity|]);
      (split; [reflexivity|]); intros p Hp; apply String.eqb_neq in Hp;
      rewrite !Hp; reflexivity.
  - unfold open_wb. cbn [fs requests].
    destruct (lookup (file_name_of key) (fs st)) as [[|c]|] eqn:El;
      [right; eexists _, _; split; [reflexivity|]; split; reflexivity | |];
      (destruct (check_parent (file_name_of key) _) as [e|];
       [right; eexists _, _; split; [reflexivity|]; split; reflexivity|]);
      match goal with
      | |- context [copyfileobj (Broken b) ?f ?s] =>
          destruct (copyfileobj_Broken b f s) as (copied & lost & -> & _)
      end;
      right; eexists _, _; (split; [reflexivity|]); cbn [fs requests lookup];
      (split; [reflexivity|]); intros p Hp; apply String.eqb_neq in Hp;
      rewrite !Hp; reflexivity.
Qed.

Lemma download_Done_inv (net : network) (key value : string) (st st' : state) :
  download net (key, value) st = Done tt st' ->
  exists b,
    net value = Body b
    /\ lookup (file_name_of key) (fs st') = Some (File b)
    /\ requests st' = requests st ++ [value]
    /\ (forall p, p <> file_name_of key -> lookup p (fs st') = lookup p (fs st)).
Proof.
  destruct (download_inv net key value st)
    as [(b & st1 & H & Hb & Hf & Hr & Ho) | (e & st1 & H & _)];
    rewrite H; intros E; [|discriminate].
  injection E as <-. exists b. auto.
Qed.

Lemma download_Failed_inv (net : network) (key value : string) (st st' : state) (e : exn) :
  download net (key, value) st = Failed e st' ->
  requests st' = requests st ++ [value]
  /\ (forall p, p <> file_name_of key -> lookup p (fs st') = lookup p (fs st)).
Proof.
  destruct (download_inv net key value st)
    as [(b & st1 & H & _) | (e1 & st1 & H & Hr & Ho)];
    rewrite H; intros E; [discriminate|].
  injection E as _ <-. auto.
Qed.

Lemma for_each_app {A : Type} (body : A -> M unit) (pre post : list A) (st : state) :
  for_each (pre ++ post) body st
  = match for_each pre body st with
    | Done _ st' => for_each post body st'
    | Failed e st' => Failed e st'
    end.
Proof.
  revert st. induction pre as [|x pre IH]; intros st; [reflexivity|].
  cbn [app for_each]. unfold seq_.
  destruct (body x st) as [[] st1|e st1]; [apply IH | reflexivity].
Qed.

(** A completed loop over a mapping with distinct files: the requests in
    order, every file with its body, every other path untouched. *)
Lemma download_all_Done_inv (net : network) (mapping : list (string * string)) :
  forall st st' : state,
    NoDup (file_names mapping) ->
    download_all net mapping st = Done tt st' ->
    requests st' = requests st ++ map snd mapping
    /\ (forall k v, In (k, v) mapping ->
          exists b, net v = Body b /\ lookup (file_name_of k) (fs st') = Some (File b))
    /\ (forall p, ~ In p (file_names mapping) -> lookup p (fs st') = lookup p (fs st)).
Proof.
  induction mapping as [|[key value] mapping IH]; intros st st' Hnd H.
  - injection H as <-. rewrite app_nil_r. repeat split. intros k v [].
  - unfold download_all in H. cbn [for_each] in H. unfold seq_ in H.
    destruct (download net (key, value) st) as [[] st1|e st1] eqn:E1; [|discriminate].
    apply download_Done_inv in E1. destruct E1 as (b & Hb & Hf & Hr & Ho).
    cbn [file_names map fst] in Hnd. apply NoDup_cons_iff in Hnd.
    destruct Hnd as [Hnin Hnd].
    destruct (IH st1 st' Hnd H) as (IHr & IHf & IHo).
    split; [|split].
    + rewrite IHr, Hr, <- app_assoc. reflexivity.
    + intros k v [E | Hin].
      * injection E as <- <-. exists b. split; [exact Hb|].
        rewrite (IHo _ Hnin). exact Hf.
      * exact (IHf k v Hin).
    + intros p Hp. cbn [file_names map fst] in Hp.
      rewrite IHo by (intros Hin; apply Hp; right; exact Hin).
      apply Ho. intros ->. apply Hp. left. reflexivity.
Qed.

Lemma NoDup_app_inv {A : Type} (l1 l2 : list A) :
  NoDup (l1 ++ l2) ->
  NoDup l1 /\ NoDup l2 /\ (forall x, In x l1 -> ~ In x l2).
Proof.
  induction l1 as [|a l1 IH]; cbn [app]; intros H.
  - split; [constructor|]. split; [exact H|]. intros x [].
  - apply NoDup_cons_iff in H. destruct H as [Ha H].
    destruct (IH H) as (N1 & N2 & D).
    split; [|split; [exact N2|]].
    + constructor; [|exact N1]. intros Hin. apply Ha. apply in_or_app. left. exact Hin.
    + intros x [<- | Hx] Hx2; [|exact (D x Hx Hx2)].
      apply Ha. apply in_or_app. right. exact Hx2.
Qed.

Lemma urls_file_names_NoDup : NoDup (file_names urls).
Proof.
  unfold file_names.
  change (map (fun kv => file_name_of (fst kv)) urls)
    with (map (fun k => ("data/modis/" ++ k ++ ".nc")%string) (map fst urls)).
  cbn [map fst urls append].
  repeat (apply NoDup_cons; [simpl; intuition discriminate|]).
  apply NoDup_nil.
Qed.

Lemma urls_file_name (k v : string) :
  In (k, v) urls -> file_name_of k = ("data/modis/" ++ k ++ ".nc")%string.
Proof.
  intros H. cbn [In urls] in H.
  repeat (destruct H as [H | H]; [injection H as <- _; reflexivity|]).
  contradiction.
Qed.

(** C8, as first stated, fails on [Ex.file_in_the_way]: with a regular
    file named [data/modis], the directory cell completes without
    creating anything: afterwards the path is still that file, not
    a directory, and although every URL answers the run fails at the first
    entry, on opening its file, with nothing written. *)
Lemma fetch_file_in_the_way :
  ensure_dir Ex.file_in_the_way = Done tt Ex.file_in_the_way
  /\ lookup ncdf_dir (fs Ex.file_in_the_way) = Some (File [])
  /\ exists st, fetch Ex.net_ok Ex.file_in_the_way = Failed NotADirectoryError st
               /\ fs st = fs Ex.file_in_the_way
               /\ requests st = [snd (hd (EmptyString, EmptyString) urls)].
Proof.
  split; [reflexivity|]. split; [reflexivity|].
  eexists. split; [vm_compute; reflexivity|]. split; reflexivity.
Qed.

(** C8 (amended).  The notebook first ensures the path [data/modis]: an
    existing path is left as it is, an absent one is created as a
    directory (so the path is a directory afterwards, unless a regular
    file had that name), and a second run of the cell changes nothing; if
    this fails nothing is downloaded.  Then the
    entries of [urls] are taken one after the other: after the entries
    before a given one have completed, their URLs have been requested in
    order and each of their files [data/modis/<key>.nc] holds the bytes of
    its URL; if the download of the given entry fails, the whole run fails
    with that exception, in that state: its URL is the last one requested
    and the files of the entries after it are as they were.  A run that
    completes has requested every URL in order and written every file. *)
Theorem fetch_sequential (net : network) (st : state) :
  (path_exists ncdf_dir st = true -> ensure_dir st = Done tt st)
  /\ (forall e st1, ensure_dir st = Failed e st1 ->
        fetch net st = Failed e st1 /\ requests st1 = requests st)
  /\ (forall st1, ensure_dir st = Done tt st1 ->
        path_exists ncdf_dir st1 = true
        /\ ((forall c, lookup ncdf_dir (fs st) <> Some (File c)) ->
            lookup ncdf_dir (fs st1) = Some Dir)
        /\ ensure_dir st1 = Done tt st1
        /\ forall pre key value post st2,
             urls = pre ++ (key, value) :: post ->
             download_all net pre st1 = Done tt st2 ->
             requests st2 = requests st ++ map snd pre
             /\ (forall k v, In (k, v) pre ->
                   exists b, net v = Body b
                             /\ lookup (file_name_of k) (fs st2) = Some (File b))
             /\ (forall st3, download net (key, value) st2 = Done tt st3 ->
                   exists b, net value = Body b
                             /\ lookup (file_name_of key) (fs st3) = Some (File b)
                             /\ requests st3 = requests st2 ++ [value])
             /\ (forall e st3, download net (key, value) st2 = Failed e st3 ->
                   fetch net st = Failed e st3
                   /\ requests st3 = requests st ++ map snd pre ++ [value]
                   /\ forall k v, In (k, v) post ->
                        lookup (file_name_of k) (fs st3) = lookup (file_name_of k) (fs st1)))
  /\ (forall st', fetch net st = Done tt st' ->
        requests st' = requests st ++ map snd urls
        /\ forall k v, In (k, v) urls ->
             file_name_of k = ("data/modis/" ++ k ++ ".nc")%string
             /\ exists b, net v = Body b
                          /\ lookup (file_name_of k) (fs st') = Some (File b)).
Proof.
  split; [exact (ensure_dir_present st)|]. split; [|split].
  - intros e st1 H. split; [|exact (ensure_dir_Failed_inv st st1 e H)].
    unfold fetch, seq_. rewrite H. reflexivity.
  - intros st1 H1.
    destruct (ensure_dir_Done_inv st st1 H1) as (Hdir & Hreq & Hisdir).
    split; [exact Hdir|]. split; [exact Hisdir|].
    split; [exact (ensure_dir_present st1 Hdir)|].
    intros pre key value post st2 Hurls Hpre.
    pose proof urls_file_names_NoDup as Hnd.
    rewrite Hurls in Hnd. unfold file_names in Hnd. rewrite map_app in Hnd.
    apply NoDup_app_inv in Hnd. destruct Hnd as (Npre & Nrest & Hdisj).
    cbn [map fst] in Nrest, Hdisj. apply NoDup_cons_iff in Nrest.
    destruct Nrest as [Nkey Npost].
    destruct (download_all_Done_inv net pre st1 st2 Npre Hpre) as (Rpre & Fpre & Opre).
    split; [congruence|]. split; [exact Fpre|]. split.
    + intros st3 H3. apply download_Done_inv in H3.
      destruct H3 as (b & Hb & Hf & Hr & _). exists b. auto.
    + intros e st3 H3. split; [|split].
      * unfold fetch, seq_. rewrite H1. unfold download_all.
        rewrite Hurls, for_each_app. fold (download_all net pre st1). rewrite Hpre.
        cbn [for_each]. unfold seq_. rewrite H3. reflexivity.
      * apply download_Failed_inv in H3. destruct H3 as [Hr _].
        rewrite Hr, Rpre, Hreq, <- app_assoc. reflexivity.
      * intros k v Hin. apply download_Failed_inv in H3. destruct H3 as [_ Ho].
        assert (Hk : In (file_name_of k) (map (fun kv => file_name_of (fst kv)) post)).
        { apply in_map_iff. exists (k, v). split; [reflexivity | exact Hin]. }
        rewrite Ho by (intros E; apply Nkey; rewrite <- E; exact Hk).
        apply Opre. intros Hin'. apply (Hdisj _ Hin'). right. exact Hk.
  - intros st' H. unfold fetch, seq_ in H.
    destruct (ensure_dir st) as [[] st1|e st1] eqn:H1; [|discriminate].
    destruct (ensure_dir_Done_inv st st1 H1) as (_ & Hreq & _).
    destruct (download_all_Done_inv net urls st1 st' urls_file_names_NoDup H)
      as (R & F & _).
    split; [congruence|].
    intros k v Hin. split; [exact (urls_file_name k v Hin) | exact (F k v Hin)].
Qed.

Lemma fetch_sequential_witness :
  fetch Ex.net_broken Ex.empty_disk = Failed ConnectionError Ex.after_break
  /\ requests Ex.after_break
     = requests Ex.empty_disk ++ map snd (firstn 2 urls)
       ++ ["https://oceandata.sci.gsfc.nasa.gov/cgi/getfile/T20131822013212.L3m_MO_SST_sst_4km.nc"]
  /\ (forall k v, In (k, v) (skipn 3 urls) ->
        lookup (file_name_of k) (fs Ex.after_break)
        = lookup (file_name_of k) (fs Ex.after_ensure))
  /\ lookup ncdf_dir (fs Ex.after_ensure) = Some Dir.
Proof.
  destruct (fetch_sequential Ex.net_broken Ex.empty_disk) as (_ & _ & HC & _).
  destruct (HC Ex.after_ensure) as (_ & Hdir & _ & Hloop); [vm_compute; reflexivity|].
  destruct (Hloop (firstn 2 urls) "jul_2013_sst"
              "https://oceandata.sci.gsfc.nasa.gov/cgi/getfile/T20131822013212.L3m_MO_SST_sst_4km.nc"
              (skipn 3 urls) Ex.after_two)
    as (_ & _ & _ & Hfail); [reflexivity | vm_compute; reflexivity |].
  destruct (Hfail ConnectionError Ex.after_break) as (H1 & H2 & H3);
    [vm_compute; reflexivity|].
  split; [exact H1|]. split; [exact H2|]. split; [exact H3|].
  apply Hdir. intros c. discriminate.
Defined.

End FetcherLemmas.

(** * Further properties of the joiner: month inference *)

(** X1.  [find_month] on the frames it cannot read: with no [Ping_date]
    column it raises [AttributeError], with a column of no rows
    [IndexError], with a first value that is not a string
    [AttributeError]; with a string in the first row the outcome is that
    of parsing the stripped string, whatever the other rows hold. *)
Theorem find_month_outcomes (df : DataFrame) :
  (lookup "Ping_date" (columns df) = None -> find_month df = Raise AttributeError)
  /\ (lookup "Ping_date" (columns df) = Some [] -> find_month df = Raise IndexError)
  /\ (forall c rest,
        lookup "Ping_date" (columns df) = Some (c :: rest) ->
        (forall s, c <> CStr s) ->
        find_month df = Raise AttributeError)
  /\ (forall s rest,
        lookup "Ping_date" (columns df) = Some (CStr s :: rest) ->
        find_month df
        = (date <- datetime.strptime (Str.strip s) ;; OK (datetime.month date))).
Proof.
  unfold find_month, getattr. repeat split.
  - intros ->. reflexivity.
  - intros ->. reflexivity.
  - intros c rest -> Hc. cbn [bind]. rewrite first_unique. cbn [first bind].
    destruct c as [s | z | d x]; [exfalso; exact (Hc s eq_refl) | reflexivity | reflexivity].
  - intros s rest ->. cbn [bind]. rewrite first_unique. reflexivity.
Qed.

Lemma find_month_outcomes_witness :
  find_month (mkDF 0 [("Latitude", [])]) = Raise AttributeError
  /\ find_month (mkDF 0 [("Ping_date", [])]) = Raise IndexError
  /\ find_month (mkDF 1 [("Ping_date", [CInt 20130522])]) = Raise AttributeError
  /\ find_month (mkDF 2 [("Ping_date", [CStr " 2013-5-2"; CInt 0])]) = OK 5.
Proof.
  split; [|split; [|split]].
  - apply (proj1 (find_month_outcomes (mkDF 0 [("Latitude", [])]))). reflexivity.
  - apply (proj1 (proj2 (find_month_outcomes (mkDF 0 [("Ping_date", [])])))). reflexivity.
  - apply (proj1 (proj2 (proj2 (find_month_outcomes
                                   (mkDF 1 [("Ping_date", [CInt 20130522])]))))
             (CInt 20130522) []).
    + reflexivity.
    + intros s. discriminate.
  - rewrite (proj2 (proj2 (proj2 (find_month_outcomes
                                    (mkDF 2 [("Ping_date", [CStr " 2013-5-2"; CInt 0])]))))
               " 2013-5-2" [CInt 0] eq_refl).
    reflexivity.
Defined.

Lemma consumes_mret {A : Type} (a : A) : consumes 0 0 (datetime.mret a).
Proof.
  intros s a' r [H | []]. injection H as _ <-. lia.
Qed.

Lemma consumes_digit_in (lo hi : nat) : consumes 1 1 (datetime.digit_in lo hi).
Proof.
  intros s a r H. unfold datetime.digit_in in H.
  destruct s as [|c s]; [destruct H|].
  destruct (Str.digit_val c) as [n|]; [|destruct H].
  destruct ((lo <=? n) && (n <=? hi)); [|destruct H].
  destruct H as [H | []]. injection H as _ <-. cbn [String.length]. lia.
Qed.

Lemma consumes_lit (c : ascii) : consumes 1 1 (datetime.lit c).
Proof.
  intros s a r H. unfold datetime.lit in H.
  destruct s as [|d s]; [destruct H|].
  destruct (Ascii.eqb c d); [|destruct H].
  destruct H as [H | []]. injection H as _ <-. cbn [String.length]. lia.
Qed.

Lemma consumes_mbind {A B : Type} (lo1 hi1 lo2 hi2 : nat)
    (m : datetime.matcher A) (k : A -> datetime.matcher B) :
  consumes lo1 hi1 m -> (forall a, consumes lo2 hi2 (k a)) ->
  consumes (lo1 + lo2) (hi1 + hi2) (datetime.mbind m k).
Proof.
  intros Hm Hk s b r H. unfold datetime.mbind in H.
  apply in_flat_map in H. destruct H as ([a r1] & H1 & H2).
  destruct (Hm s a r1 H1) as [L1 U1]. destruct (Hk a r1 b r H2) as [L2 U2]. lia.
Qed.

Lemma consumes_alt {A : Type} (lo hi : nat) (m1 m2 : datetime.matcher A) :
  consumes lo hi m1 -> consumes lo hi m2 -> consumes lo hi (datetime.alt m1 m2).
Proof.
  intros H1 H2 s a r H. unfold datetime.alt in H. apply in_app_or in H.
  destruct H as [H | H]; [exact (H1 s a r H) | exact (H2 s a r H)].
Qed.

Lemma consumes_weaken {A : Type} (lo hi lo' hi' : nat) (m : datetime.matcher A) :
  lo' <= lo -> hi <= hi' -> consumes lo hi m -> consumes lo' hi' m.
Proof.
  intros L U H s a r Hin. destruct (H s a r Hin). lia.
Qed.

Lemma consumes_re_Y : consumes 4 4 datetime.re_Y.
Proof.
  unfold datetime.re_Y.
  apply (consumes_mbind 1 1 3 3); [apply consumes_digit_in|]. intros a.
  apply (consumes_mbind 1 1 2 2); [apply consumes_digit_in|]. intros b.
  apply (consumes_mbind 1 1 1 1); [apply consumes_digit_in|]. intros c.
  apply (consumes_mbind 1 1 0 0); [apply consumes_digit_in|]. intros d.
  apply consumes_mret.
Qed.

Lemma consumes_lit_digit (c : ascii) (lo hi : nat) (f : nat -> nat) :
  consumes 2 2
    (datetime.mbind (datetime.lit c)
       (fun _ => datetime.mbind (datetime.digit_in lo hi) (fun x => datetime.mret (f x)))).
Proof.
  apply (consumes_mbind 1 1 1 1); [apply consumes_lit|]. intros _.
  apply (consumes_mbind 1 1 0 0); [apply consumes_digit_in|]. intros x.
  apply consumes_mret.
Qed.

Lemma consumes_re_m : consumes 1 2 datetime.re_m.
Proof.
  unfold datetime.re_m.
  apply consumes_alt; [|apply consumes_alt].
  - apply (consumes_weaken 2 2); [lia | lia |]. apply consumes_lit_digit.
  - apply (consumes_weaken 2 2); [lia | lia |]. apply consumes_lit_digit.
  - apply (consumes_weaken 1 1); [lia | lia |]. apply consumes_digit_in.
Qed.

Lemma consumes_re_d : consumes 1 2 datetime.re_d.
Proof.
  unfold datetime.re_d.
  apply consumes_alt; [|apply consumes_alt; [|apply consumes_alt; [|apply consumes_alt]]].
  - apply (consumes_weaken 2 2); [lia | lia |]. apply consumes_lit_digit.
  - apply (consumes_weaken 2 2); [lia | lia |].
    apply (consumes_mbind 1 1 1 1); [apply consumes_digit_in|]. intros a.
    apply (consumes_mbind 1 1 0 0); [apply consumes_digit_in|]. intros b.
    apply consumes_mret.
  - apply (consumes_weaken 2 2); [lia | lia |]. apply consumes_lit_digit.
  - apply (consumes_weaken 1 1); [lia | lia |]. apply consumes_digit_in.
  - apply (consumes_weaken 2 2); [lia | lia |].
    apply (consumes_mbind 1 1 1 1); [apply consumes_lit|]. intros _.
    apply consumes_digit_in.
Qed.

Lemma consumes_re_Ymd : consumes 8 10 datetime.re_Ymd.
Proof.
  unfold datetime.re_Ymd.
  apply (consumes_mbind 4 4 4 6); [apply consumes_re_Y|]. intros y.
  apply (consumes_mbind 4 6 0 0); [|intros md; apply consumes_mret].
  unfold datetime.re_md.
  apply (consumes_mbind 1 1 3 5); [apply consumes_lit|]. intros _.
  apply (consumes_mbind 1 2 2 3); [apply consumes_re_m|]. intros m.
  apply (consumes_mbind 1 1 1 2); [apply consumes_lit|]. intros _.
  apply (consumes_mbind 1 2 0 0); [apply consumes_re_d|]. intros d.
  apply consumes_mret.
Qed.

Lemma strptime_length (s : string) (t : datetime.t) :
  datetime.strptime s = OK t -> 8 <= String.length s <= 10.
Proof.
  unfold datetime.strptime.
  destruct (datetime.re_Ymd s) as [|[[y [m d]] rest] tl] eqn:E; [discriminate|].
  destruct rest as [|c rest]; [|discriminate]. intros _.
  destruct (consumes_re_Ymd s (y, (m, d)) EmptyString) as [L U].
  - rewrite E. left. reflexivity.
  - cbn [String.length] in L, U. lia.
Qed.




(** X3.  When the first value of [Ping_date], stripped, has fewer than 8
    or more than 10 characters (a date followed by a time, say),
    [find_month] raises [ValueError]. *)
Theorem find_month_rejects_by_length (df : DataFrame) (s : string) (rest : column) :
  lookup "Ping_date" (columns df) = Some (CStr s :: rest) ->
  String.length (Str.strip s) < 8 \/ 10 < String.length (Str.strip s) ->
  find_month df = Raise ValueError.
Proof.
  intros Hc Hlen.
  unfold find_month, getattr. rewrite Hc. cbn [bind]. rewrite first_unique.
  cbn [first bind cell_strip].
  destruct (datetime.strptime (Str.strip s)) as [t|e] eqn:E.
  - apply strptime_length in E. lia.
  - cbn [bind]. f_equal. unfold datetime.strptime in E.
    destruct (datetime.re_Ymd (Str.strip s)) as [|[[y [m d]] [|c r]] tl];
      try (injection E as <-; reflexivity).
    destruct (datetime.check_date_fields y m d); [discriminate|].
    injection E as <-. reflexivity.
Qed.

Lemma find_month_rejects_by_length_witness :
  find_month (mkDF 1 [("Ping_date", [CStr " 2013-05-22 15:01:24"])]) = Raise ValueError.
Proof.
  apply (find_month_rejects_by_length _ " 2013-05-22 15:01:24" []).
  - reflexivity.
  - right. vm_compute. lia.
Defined.

(** * Further properties of the joiner: path resolution *)

Lemma month_dict_OK_inv (m : nat) (a : string) :
  1 <= m <= 12 -> getitem month_dict (Str.str m) = OK a ->
  Spec.supported_month m /\ a = Spec.abbr m.
Proof.
  intros Hm H. unfold Spec.supported_month.
  do 13 (destruct m as [|m]; [first [lia | discriminate H
                                     | injection H as <-; split; [lia | reflexivity]]|]).
  lia.
Qed.

Lemma get_raster_path_OK_inv (df : DataFrame) (v p : string) :
  get_raster_path df v = OK p ->
  exists m,
    find_month df = OK m
    /\ Spec.supported_month m
    /\ Spec.supported_variable v
    /\ p = ("data/modis/" ++ Spec.abbr m ++ "_2013_" ++ v ++ ".nc")%string.
Proof.
  intros H. pose proof (get_raster_path_OK_supported df v p H) as Hv.
  unfold get_raster_path in H.
  apply bind_OK_inv in H. destruct H as (m & Hm & H).
  apply bind_OK_inv in H. destruct H as (u & _ & H).
  apply bind_OK_inv in H. destruct H as (a & Ha & H).
  destruct (month_dict_OK_inv m a (find_month_range df m Hm) Ha) as [Hs ->].
  exists m. split; [exact Hm|]. split; [exact Hs|]. split; [exact Hv|].
  injection H as <-. exact (raster_path_literal m v Hs Hv).
Qed.

Lemma raster_path_injective (m m' : nat) (v v' : string) :
  Spec.supported_month m -> Spec.supported_month m' ->
  Spec.supported_variable v -> Spec.supported_variable v' ->
  ("data/modis/" ++ Spec.abbr m ++ "_2013_" ++ v ++ ".nc")%string
  = ("data/modis/" ++ Spec.abbr m' ++ "_2013_" ++ v' ++ ".nc")%string ->
  m = m' /\ v = v'.
Proof.
  unfold Spec.supported_month. intros Hm Hm' Hv Hv'.
  assert (Em : m = 5 \/ m = 6 \/ m = 7 \/ m = 8 \/ m = 9) by lia.
  assert (Em' : m' = 5 \/ m' = 6 \/ m' = 7 \/ m' = 8 \/ m' = 9) by lia.
  clear Hm Hm'.
  destruct Hv as [-> | ->], Hv' as [-> | ->];
    destruct Em as [-> | [-> | [-> | [-> | ->]]]];
    destruct Em' as [-> | [-> | [-> | [-> | ->]]]];
    cbn; intros E; first [discriminate E | split; reflexivity].
Qed.

(** X4.  Path resolution is one to one: when [get_raster_path] resolves the
    same path for two frames and two variables, the variables are the
    same and so are the inferred months.  No two rasters share a file. *)
Theorem get_raster_path_injective (df df' : DataFrame) (v v' p : string) :
  get_raster_path df v = OK p ->
  get_raster_path df' v' = OK p ->
  v = v' /\ find_month df = find_month df'.
Proof.
  intros H H'.
  destruct (get_raster_path_OK_inv df v p H) as (m & Hm & Hs & Hv & E).
  destruct (get_raster_path_OK_inv df' v' p H') as (m' & Hm' & Hs' & Hv' & E').
  rewrite E in E'.
  destruct (raster_path_injective m m' v v' Hs Hs' Hv Hv' E') as [-> ->].
  split; [reflexivity | congruence].
Qed.

Lemma get_raster_path_injective_witness :
  "sst" = "sst"
  /\ find_month (mkDF 1 [("Ping_date", [CStr "2013-09-01"])])
     = find_month (mkDF 2 [("Ping_date", [CStr " 2013-9-30"; CStr "2013-10-01"])]).
Proof.
  apply (get_raster_path_injective
           (mkDF 1 [("Ping_date", [CStr "2013-09-01"])])
           (mkDF 2 [("Ping_date", [CStr " 2013-9-30"; CStr "2013-10-01"])])
           "sst" "sst" "data/modis/sep_2013_sst.nc"); reflexivity.
Defined.

(** X5.  The order of the checks in [get_raster_path]: a failure of the
    month inference is raised as it is, whatever the variable; then a
    variable other than ["sst"] and ["chlor_a"] raises [AssertionError],
    whatever the month; only then does a month outside 5..9 raise
    [KeyError]. *)
Theorem get_raster_path_error_order (df : DataFrame) (v : string) :
  (forall e, find_month df = Raise e -> get_raster_path df v = Raise e)
  /\ (forall m, find_month df = OK m -> ~ Spec.supported_variable v ->
        get_raster_path df v = Raise AssertionError)
  /\ (forall m, find_month df = OK m -> Spec.supported_variable v ->
        ~ Spec.supported_month m ->
        get_raster_path df v = Raise KeyError).
Proof.
  unfold get_raster_path. split; [|split].
  - intros e ->. reflexivity.
  - intros m -> Hv. cbn [bind].
    destruct (String.eqb v "chlor_a" || String.eqb v "sst") eqn:E; [|reflexivity].
    apply supported_variable_eqb in E. contradiction.
  - intros m Hm Hv Hs. rewrite Hm. cbn [bind].
    apply supported_variable_eqb in Hv. rewrite Hv. cbn [assert bind].
    rewrite (month_dict_unsupported m (find_month_range df m Hm) Hs). reflexivity.
Qed.

Lemma get_raster_path_error_order_witness :
  get_raster_path (mkDF 0 [("Ping_date", [])]) "SST" = Raise IndexError
  /\ get_raster_path (mkDF 1 [("Ping_date", [CStr "2013-12-24"])]) "SST"
     = Raise AssertionError
  /\ get_raster_path (mkDF 1 [("Ping_date", [CStr "2013-12-24"])]) "sst" = Raise KeyError.
Proof.
  split; [|split].
  - apply (proj1 (get_raster_path_error_order (mkDF 0 [("Ping_date", [])]) "SST")).
    reflexivity.
  - apply (proj1 (proj2 (get_raster_path_error_order
                           (mkDF 1 [("Ping_date", [CStr "2013-12-24"])]) "SST")) 12).
    + reflexivity.
    + intros [H | H]; discriminate H.
  - apply (proj2 (proj2 (get_raster_path_error_order
                           (mkDF 1 [("Ping_date", [CStr "2013-12-24"])]) "sst")) 12).
    + reflexivity.
    + left. reflexivity.
    + unfold Spec.supported_month. lia.
Defined.

(** * Further properties of the joiner: sampling *)

Lemma replace_col_labels (k : string) (vals : column) (l : list (string * column)) :
  map fst (replace_col k vals l) = map fst l.
Proof.
  induction l as [|[k' v] l IH]; [reflexivity|].
  cbn [replace_col]. destruct (String.eqb k k'); cbn [map fst]; [reflexivity|].
  rewrite IH. reflexivity.
Qed.

(** X6.  [extract_raster] changes one column only: the result has the rows
    and, under every other label, the column of the frame it was given;
    the column [newcol] has one [float32] value per row; a column that
    existed keeps its place among the labels, a new one goes last. *)
Theorem extract_raster_frame
    (w : World) (df df' : DataFrame) (path newcol : string) :
  extract_raster w df path newcol = OK df' ->
  nrows df' = nrows df
  /\ (forall k, k <> newcol -> lookup k (columns df') = lookup k (columns df))
  /\ (exists vals : list spec_float,
        lookup newcol (columns df') = Some (map (CFloat float32) vals)
        /\ List.length vals = nrows df)
  /\ map fst (columns df')
     = match lookup newcol (columns df) with
       | Some _ => map fst (columns df)
       | None => map fst (columns df) ++ [newcol]
       end.
Proof.
  intros H. apply extract_raster_OK_inv in H.
  destruct H as (src & vals & _ & _ & Hset).
  pose proof (setitem_columns _ _ _ _ Hset) as Hcols.
  apply setitem_OK_inv in Hset. destruct Hset as (Hlen & Hn & Hnew & Hother).
  split; [exact Hn|]. split; [exact Hother|]. split.
  - exists (mask_sentinel vals). split; [exact Hnew|].
    rewrite length_map in Hlen. exact Hlen.
  - rewrite Hcols. destruct (lookup newcol (columns df)).
    + apply replace_col_labels.
    + rewrite map_app. reflexivity.
Qed.

Lemma extract_raster_frame_witness :
  nrows Ex.sampled_sst = nrows Ex.csv
  /\ (forall k, k <> "sst" ->
        lookup k (columns Ex.sampled_sst) = lookup k (columns Ex.csv))
  /\ (exists vals : list spec_float,
        lookup "sst" (columns Ex.sampled_sst) = Some (map (CFloat float32) vals)
        /\ List.length vals = nrows Ex.csv)
  /\ map fst (columns Ex.sampled_sst)
     = match lookup "sst" (columns Ex.csv) with
       | Some _ => map fst (columns Ex.csv)
       | None => map fst (columns Ex.csv) ++ ["sst"]
       end.
Proof.
  apply (extract_raster_frame Ex.world Ex.csv Ex.sampled_sst
           "data/modis/jun_2013_sst.nc" "sst").
  vm_compute. reflexivity.
Defined.

Lemma mapM_length {A B : Type} (f : A -> result B) (l : list A) (l' : list B) :
  mapM f l = OK l' -> List.length l' = List.length l.
Proof.
  intros H. apply mapM_Forall2 in H.
  induction H as [|a b l l' _ _ IH]; [reflexivity|]. simpl. rewrite IH. reflexivity.
Qed.

Lemma concat_length_bands {A : Type} (k : nat) (samples : list (list A)) :
  Forall (fun s => List.length s = k) samples ->
  List.length (List.concat samples) = k * List.length samples.
Proof.
  induction 1 as [|s samples Hs _ IH]; [cbn; lia|].
  cbn [List.concat List.length]. rewrite length_app, IH, Hs. lia.
Qed.

(** X7.  Sampling needs rows and one band.  For a frame whose coordinate
    columns are read and a dataset that opens and answers every point
    with [k] band values: with no point (an empty table) [extract_raster]
    raises [ValueError]; with [k] times the points different from the
    number of rows it raises [ValueError]; otherwise it returns. *)
Theorem extract_raster_bands
    (w : World) (df : DataFrame) (path newcol : string)
    (src : Dataset) (x y : column) (samples : list (list raw)) (k : nat) :
  rasterio_open w ("NETCDF:" ++ path ++ ":" ++ newcol)%string = OK src ->
  getattr df "Longitude" = OK x ->
  getattr df "Latitude" = OK y ->
  mapM (fun p => sample src (fst p) (snd p)) (combine x y) = OK samples ->
  Forall (fun s => List.length s = k) samples ->
  (combine x y = [] -> extract_raster w df path newcol = Raise ValueError)
  /\ (k * List.length (combine x y) <> nrows df ->
      extract_raster w df path newcol = Raise ValueError)
  /\ (combine x y <> [] -> k * List.length (combine x y) = nrows df ->
      exists df', extract_raster w df path newcol = OK df').
Proof.
  intros Hsrc Hx Hy Hs Hk.
  pose proof (mapM_length _ _ _ Hs) as Hlen.
  pose proof (concat_length_bands k samples Hk) as Hcat.
  assert (E : extract_raster w df path newcol
              = (vals <- np.concatenate samples ;;
                 setitem df newcol
                   (map (CFloat float32) (mask_sentinel (map np.astype_float32 vals))))).
  { unfold extract_raster. rewrite Hsrc. cbn [bind].
    unfold sampled_values. rewrite Hx. cbn [bind]. rewrite Hy. cbn [bind].
    rewrite Hs. cbn [bind]. destruct (np.concatenate samples); reflexivity. }
  rewrite E. clear E.
  split; [|split].
  - intros E. rewrite E in Hs. injection Hs as <-. reflexivity.
  - intros Hne. destruct samples as [|s0 samples]; [reflexivity|].
    cbn [np.concatenate bind]. unfold setitem.
    rewrite !length_map, mask_sentinel_length, length_map, Hcat, Hlen.
    apply Nat.eqb_neq in Hne. rewrite Hne. reflexivity.
  - intros Hne Heq. destruct samples as [|s0 samples].
    + destruct (combine x y); [contradiction | discriminate Hlen].
    + cbn [np.concatenate bind]. unfold setitem.
      rewrite !length_map, mask_sentinel_length, length_map, Hcat, Hlen.
      apply Nat.eqb_eq in Heq. rewrite Heq. cbn [negb].
      destruct (lookup newcol (columns df)); eexists; reflexivity.
Qed.

Lemma extract_raster_bands_witness :
  (exists df', extract_raster Ex.world Ex.csv "data/modis/jun_2013_sst.nc" "sst" = OK df')
  /\ extract_raster Ex.world (mkDF 0 [("Longitude", []); ("Latitude", [])])
       "data/modis/jun_2013_sst.nc" "sst" = Raise ValueError.
Proof.
  split.
  - assert (F : Forall (fun s : list raw => List.length s = 1)
                  [[RInt 4000]; [RInt (-32767)]])
      by (repeat constructor).
    destruct (extract_raster_bands Ex.world Ex.csv "data/modis/jun_2013_sst.nc" "sst"
                Ex.sst_june [Ex.f64 (-122); Ex.f64 (-123)] [Ex.f64 47; Ex.f64 48]
                [[RInt 4000]; [RInt (-32767)]] 1 eq_refl eq_refl eq_refl eq_refl F)
      as (_ & _ & H).
    apply H; [discriminate | reflexivity].
  - assert (F : Forall (fun s : list raw => List.length s = 1) []) by constructor.
    destruct (extract_raster_bands Ex.world (mkDF 0 [("Longitude", []); ("Latitude", [])])
                "data/modis/jun_2013_sst.nc" "sst" Ex.sst_june [] [] [] 1
                eq_refl eq_refl eq_refl eq_refl F)
      as (H & _ & _).
    apply H. reflexivity.
Defined.

(** * Further properties of the joiner: one file *)

Lemma replace_col_same (k : string) (vals : column) (l : list (string * column)) :
  lookup k l = Some vals -> replace_col k vals l = l.
Proof.
  induction l as [|[k' v] l IH]; [reflexivity|].
  cbn [lookup replace_col]. destruct (String.eqb k k') eqn:E.
  - intros H. injection H as ->. reflexivity.
  - intros H. rewrite (IH H). reflexivity.
Qed.

Lemma setitem_same_inputs (csv df df' : DataFrame) (v : string) (c : column) :
  Spec.supported_variable v -> same_inputs csv df -> setitem df v c = OK df' ->
  same_inputs csv df'.
Proof.
  intros Hv (S1 & S2 & S3) H.
  destruct (supported_not_input v Hv) as (N1 & N2 & N3 & _).
  apply setitem_OK_inv in H. destruct H as (_ & _ & _ & Ho).
  unfold same_inputs. rewrite (Ho _ N1), (Ho _ N2), (Ho _ N3). auto.
Qed.

(** X8.  Sampling a variable twice is sampling it once: after the loop
    body has run for a variable, running it again for the same variable
    returns the very same frame. *)
Theorem augment_var_idempotent (w : World) (df df1 : DataFrame) (v : string) :
  augment_var w df v = OK df1 -> augment_var w df1 v = OK df1.
Proof.
  intros H. rewrite augment_var_sampled in H |- *.
  apply bind_OK_inv in H. destruct H as (c & Hc & Hset).
  pose proof (sampled_column_OK_supported w df v c Hc) as Hv.
  pose proof (setitem_same_inputs df df df1 v c Hv (same_inputs_refl df) Hset) as Hs.
  rewrite (sampled_column_ext w df df1 v Hs), Hc. cbn [bind].
  apply setitem_OK_inv in Hset. destruct Hset as (Hl & Hn & Hk & _).
  unfold setitem. rewrite Hn.
  assert (E : (List.length c =? nrows df) = true) by (apply Nat.eqb_eq; exact Hl).
  rewrite E, Hk. cbn [negb]. rewrite (replace_col_same v c _ Hk).
  rewrite <- Hn. destruct df1. reflexivity.
Qed.

Lemma augment_var_idempotent_witness :
  augment_var Ex.world Ex.sampled_sst "sst" = OK Ex.sampled_sst.
Proof.
  apply (augment_var_idempotent Ex.world Ex.csv Ex.sampled_sst "sst").
  vm_compute. reflexivity.
Defined.

Lemma same_columns_refl (df : DataFrame) : same_columns df df.
Proof. split; reflexivity. Qed.

Lemma same_columns_sym (df df' : DataFrame) : same_columns df df' -> same_columns df' df.
Proof. intros [H1 H2]. split; [congruence | intros k; rewrite H2; reflexivity]. Qed.

Lemma same_columns_trans (a b c : DataFrame) :
  same_columns a b -> same_columns b c -> same_columns a c.
Proof.
  intros [H1 H2] [H3 H4]. split; [congruence | intros k; rewrite H2; apply H4].
Qed.

Lemma setitem_succeeds (df : DataFrame) (k : string) (vals : column) :
  List.length vals = nrows df -> exists df', setitem df k vals = OK df'.
Proof.
  intros H. unfold setitem. apply Nat.eqb_eq in H. rewrite H. cbn [negb].
  destruct (lookup k (columns df)); eexists; reflexivity.
Qed.

Lemma setitem_ext (df df' d : DataFrame) (k : string) (vals : column) :
  same_columns df df' -> setitem df k vals = OK d ->
  exists d', setitem df' k vals = OK d' /\ same_columns d d'.
Proof.
  intros [Hn Hc] H. pose proof (setitem_OK_inv _ _ _ _ H) as (Hl & Hn1 & Hk & Ho).
  destruct (setitem_succeeds df' k vals) as [d' Hd']; [congruence|].
  exists d'. split; [exact Hd'|].
  pose proof (setitem_OK_inv _ _ _ _ Hd') as (_ & Hn2 & Hk' & Ho').
  split; [congruence|]. intros k0.
  destruct (string_dec k0 k) as [-> | Hne]; [congruence|].
  rewrite (Ho k0 Hne), (Ho' k0 Hne). apply Hc.
Qed.

Lemma same_columns_same_inputs (csv df df' : DataFrame) :
  same_inputs csv df -> same_columns df df' -> same_inputs csv df'.
Proof.
  intros (S1 & S2 & S3) [_ Hc]. unfold same_inputs. rewrite <- !Hc. auto.
Qed.

Lemma imul_scale_ext (df df' d : DataFrame) (k : string) :
  same_columns df df' -> imul_scale df k = OK d ->
  exists d', imul_scale df' k = OK d' /\ same_columns d d'.
Proof.
  intros Hs H. unfold imul_scale, getitem in H |- *.
  destruct Hs as [Hn Hc]. rewrite <- (Hc k).
  destruct (lookup k (columns df)) as [col|]; [|discriminate]. cbn [bind] in H |- *.
  destruct (mapM mul_scale col) as [col'|e]; [|discriminate]. cbn [bind] in H |- *.
  exact (setitem_ext df df' d k col' (conj Hn Hc) H).
Qed.

Lemma drop_index_ext (df df' d : DataFrame) :
  same_columns df df' -> drop df ["Unnamed: 0"] = OK d ->
  exists d', drop df' ["Unnamed: 0"] = OK d' /\ same_columns d d'.
Proof.
  intros [Hn Hc] H.
  pose proof (drop_index_OK_inv _ _ H) as (Hidx & Hn1 & Hgone & Hrest & _).
  assert (Hd' : exists d', drop df' ["Unnamed: 0"] = OK d').
  { unfold drop. cbn [forallb]. rewrite <- (Hc "Unnamed: 0").
    destruct (lookup "Unnamed: 0" (columns df)); [|contradiction].
    eexists. reflexivity. }
  destruct Hd' as [d' Hd']. exists d'. split; [exact Hd'|].
  pose proof (drop_index_OK_inv _ _ Hd') as (_ & Hn2 & Hgone' & Hrest' & _).
  split; [congruence|]. intros k.
  destruct (string_dec k "Unnamed: 0") as [-> | Hne]; [congruence|].
  rewrite (Hrest k Hne), (Hrest' k Hne). apply Hc.
Qed.

(** The sampled columns of the loop have one value per row. *)
Lemma augment_loop_lengths (w : World) (csv : DataFrame) (vars : list string) :
  forall df df1 : DataFrame,
    same_inputs csv df ->
    foldM (augment_var w) vars df = OK df1 ->
    forall v, In v vars ->
      exists c, sampled_column w csv v = OK c /\ List.length c = nrows df.
Proof.
  induction vars as [|v0 vars IH]; intros df df1 Hsame H v Hin; [destruct Hin|].
  cbn [foldM] in H. apply bind_OK_inv in H. destruct H as (df' & Hstep & Hrest).
  rewrite augment_var_sampled in Hstep.
  apply bind_OK_inv in Hstep. destruct Hstep as (c & Hc & Hset).
  pose proof (sampled_column_OK_supported w df v0 c Hc) as Hsup.
  pose proof (setitem_same_inputs csv df df' v0 c Hsup Hsame Hset) as Hsame'.
  rewrite (sampled_column_ext w csv df v0 Hsame) in Hc.
  apply setitem_OK_inv in Hset. destruct Hset as (Hl & Hn & _ & _).
  destruct Hin as [<- | Hin].
  - exists c. auto.
  - destruct (IH df' df1 Hsame' Hrest v Hin) as (c' & Hc' & Hl').
    exists c'. split; [exact Hc' | congruence].
Qed.

(** The loop returns as soon as every variable has a sampled column with
    one value per row. *)
Lemma augment_loop_succeeds (w : World) (csv : DataFrame) (vars : list string) :
  (forall v, In v vars ->
     exists c, sampled_column w csv v = OK c /\ List.length c = nrows csv) ->
  forall df, same_inputs csv df -> nrows df = nrows csv ->
    exists df1, foldM (augment_var w) vars df = OK df1.
Proof.
  induction vars as [|v vars IH]; intros Hall df Hsame Hn.
  - exists df. reflexivity.
  - destruct (Hall v (or_introl eq_refl)) as (c & Hc & Hl).
    cbn [foldM]. rewrite augment_var_sampled.
    rewrite (sampled_column_ext w csv df v Hsame), Hc. cbn [bind].
    destruct (setitem_succeeds df v c) as [df' Hset]; [congruence|].
    rewrite Hset. cbn [bind].
    pose proof (sampled_column_OK_supported w csv v c Hc) as Hsup.
    apply IH.
    + intros v' Hin. apply Hall. right. exact Hin.
    + exact (setitem_same_inputs csv df df' v c Hsup Hsame Hset).
    + apply setitem_OK_inv in Hset. destruct Hset as (_ & Hn' & _). congruence.
Qed.

Lemma augment_loop_same_columns (w : World) (csv : DataFrame) (l1 l2 : list string)
    (d1 d2 : DataFrame) :
  same_variables l1 l2 ->
  foldM (augment_var w) l1 csv = OK d1 ->
  foldM (augment_var w) l2 csv = OK d2 ->
  same_columns d1 d2.
Proof.
  intros Hsame H1 H2.
  destruct (augment_loop_inv w csv l1 csv d1 (same_inputs_refl csv) H1)
    as (N1 & _ & K1 & S1).
  destruct (augment_loop_inv w csv l2 csv d2 (same_inputs_refl csv) H2)
    as (N2 & _ & K2 & S2).
  split; [congruence|]. intros k.
  destruct (in_dec string_dec k l1) as [Hin | Hnin].
  - destruct (S1 k Hin) as (c & Hc & ->).
    destruct (S2 k (proj1 (Hsame k) Hin)) as (c' & Hc' & ->). congruence.
  - rewrite (K1 k Hnin). symmetry. apply K2. intros Hin. apply Hnin.
    exact (proj2 (Hsame k) Hin).
Qed.

(** X9.  The result of [augment_df] depends on which variables are asked
    for, not on their order or repetition: for two lists naming the same
    variables, when [augment_df] returns for one it returns for the other,
    with the same number of rows and, label by label, the same columns. *)
Theorem augment_df_variables_order
    (w : World) (path : string) (l1 l2 : list string) (out1 : DataFrame) :
  same_variables l1 l2 ->
  augment_df w path l1 = OK out1 ->
  exists out2, augment_df w path l2 = OK out2 /\ same_columns out1 out2.
Proof.
  intros Hsame H. apply augment_df_OK_inv in H.
  destruct H as (csv & d1 & e1 & Hcsv & Hloop & Hmul & Hdrop).
  destruct (augment_loop_succeeds w csv l2) with (df := csv) as [d2 Hloop2].
  - intros v Hin. apply (augment_loop_lengths w csv l1 csv d1 (same_inputs_refl csv) Hloop).
    exact (proj2 (Hsame v) Hin).
  - apply same_inputs_refl.
  - reflexivity.
  - pose proof (augment_loop_same_columns w csv l1 l2 d1 d2 Hsame Hloop Hloop2) as Hs.
    destruct (imul_scale_ext d1 d2 e1 "sst" Hs Hmul) as (e2 & Hmul2 & Hs2).
    destruct (drop_index_ext e1 e2 out1 Hs2 Hdrop) as (out2 & Hdrop2 & Hs3).
    exists out2. split; [|exact Hs3].
    rewrite (augment_df_stages w path l2 csv Hcsv), Hloop2. cbn [bind].
    rewrite Hmul2. exact Hdrop2.
Qed.

Lemma augment_df_variables_order_witness :
  exists out2,
    augment_df Ex.world "data/summaries/a.csv" ["chlor_a"; "sst"; "chlor_a"] = OK out2
    /\ same_columns Ex.augmented out2.
Proof.
  apply (augment_df_variables_order Ex.world "data/summaries/a.csv" default_variables).
  - intros v. cbn. tauto.
  - vm_compute. reflexivity.
Defined.

(** X10.  [augment_df] returns only for the two known variables: with a
    list that has any other token it raises, whatever the file. *)
Theorem augment_df_unknown_variable
    (w : World) (path : string) (variables : list string) (v : string) :
  In v variables -> ~ Spec.supported_variable v ->
  raises (augment_df w path variables).
Proof.
  intros Hin Hv.
  destruct (OK_or_raises (augment_df w path variables)) as [[out H] | H]; [|exact H].
  destruct (augment_df_OK_columns w path variables out H) as (csv & _ & _ & Hsup & _).
  rewrite Forall_forall in Hsup. exfalso. exact (Hv (Hsup v Hin)).
Qed.

Lemma augment_df_unknown_variable_witness :
  raises (augment_df Ex.world "data/summaries/a.csv" ["sst"; "SST"]).
Proof.
  apply (augment_df_unknown_variable Ex.world "data/summaries/a.csv" ["sst"; "SST"] "SST").
  - right. left. reflexivity.
  - intros [H | H]; discriminate H.
Defined.

Lemma wf_setitem (df df' : DataFrame) (k : string) (vals : column) :
  wf_frame df -> setitem df k vals = OK df' -> wf_frame df'.
Proof.
  unfold wf_frame. intros Hwf H.
  pose proof (setitem_columns _ _ _ _ H) as Hcols.
  apply setitem_OK_inv in H. destruct H as (Hl & Hn & _ & _).
  rewrite Hcols, Hn. destruct (lookup k (columns df)).
  - revert Hwf. generalize (columns df). intros l Hwf.
    induction Hwf as [|[k' v] l Hv Htl IH]; [constructor|].
    cbn [replace_col]. destruct (String.eqb k k'); constructor;
      [exact Hl | exact Htl | exact Hv | exact IH].
  - apply Forall_app. split; [exact Hwf|]. constructor; [exact Hl | constructor].
Qed.

Lemma wf_augment_loop (w : World) (vars : list string) :
  forall df df1, wf_frame df -> foldM (augment_var w) vars df = OK df1 -> wf_frame df1.
Proof.
  induction vars as [|v vars IH]; intros df df1 Hwf H.
  - injection H as <-. exact Hwf.
  - cbn [foldM] in H. apply bind_OK_inv in H. destruct H as (df' & Hstep & Hrest).
    rewrite augment_var_sampled in Hstep.
    apply bind_OK_inv in Hstep. destruct Hstep as (c & _ & Hset).
    exact (IH df' df1 (wf_setitem df df' v c Hwf Hset) Hrest).
Qed.

Lemma wf_imul_scale (df df' : DataFrame) (k : string) :
  wf_frame df -> imul_scale df k = OK df' -> wf_frame df'.
Proof.
  unfold imul_scale. intros Hwf H.
  apply bind_OK_inv in H. destruct H as (col & _ & H).
  apply bind_OK_inv in H. destruct H as (col' & _ & H).
  exact (wf_setitem df df' k col' Hwf H).
Qed.

Lemma wf_drop_index (df df' : DataFrame) :
  wf_frame df -> drop df ["Unnamed: 0"] = OK df' -> wf_frame df'.
Proof.
  unfold wf_frame. intros Hwf H. apply drop_index_OK_inv in H.
  destruct H as (_ & Hn & _ & _ & Hcols). rewrite Hcols, Hn.
  unfold without. rewrite Forall_forall in Hwf |- *.
  intros kv Hin. apply filter_In in Hin. exact (Hwf kv (proj1 Hin)).
Qed.

Lemma wf_augment_df (w : World) (path : string) (variables : list string)
    (csv out : DataFrame) :
  pd_read_csv w path = OK csv -> wf_frame csv ->
  augment_df w path variables = OK out -> wf_frame out.
Proof.
  intros Hcsv Hwf H. apply augment_df_OK_inv in H.
  destruct H as (csv' & d1 & d2 & Hcsv' & Hloop & Hmul & Hdrop).
  rewrite Hcsv in Hcsv'. injection Hcsv' as <-.
  apply (wf_drop_index d2 out); [|exact Hdrop].
  apply (wf_imul_scale d1 d2 "sst"); [|exact Hmul].
  exact (wf_augment_loop w variables csv d1 Hwf Hloop).
Qed.

Lemma wf_lookup_length (df : DataFrame) (k : string) (c : column) :
  wf_frame df -> lookup k (columns df) = Some c -> List.length c = nrows df.
Proof.
  unfold wf_frame. intros Hwf. induction Hwf as [|[k' v] l Hv _ IH]; [discriminate|].
  cbn [lookup]. destruct (String.eqb k k'); [|exact IH].
  intros H. injection H as <-. exact Hv.
Qed.

(** X11.  [augment_df] keeps a table rectangular: when every column of
    the table read from the file has one value per row, so has every
    column of the result, for any list of variables. *)
Theorem augment_df_well_formed
    (w : World) (path : string) (variables : list string) (csv out : DataFrame) :
  pd_read_csv w path = OK csv ->
  wf_frame csv ->
  augment_df w path variables = OK out ->
  wf_frame out
  /\ forall k c, lookup k (columns out) = Some c -> List.length c = nrows csv.
Proof.
  intros Hcsv Hwf H.
  pose proof (wf_augment_df w path variables csv out Hcsv Hwf H) as Hout.
  split; [exact Hout|]. intros k c Hk.
  rewrite (wf_lookup_length out k c Hout Hk).
  destruct (augment_df_OK_columns w path variables out H) as (csv' & Hcsv' & Hn & _).
  congruence.
Qed.

Lemma wf_Ex_csv : wf_frame Ex.csv.
Proof. unfold wf_frame. repeat constructor. Qed.

Lemma augment_df_well_formed_witness :
  wf_frame Ex.augmented
  /\ forall k c, lookup k (columns Ex.augmented) = Some c -> List.length c = nrows Ex.csv.
Proof.
  apply (augment_df_well_formed Ex.world "data/summaries/a.csv" default_variables
           Ex.csv Ex.augmented).
  - reflexivity.
  - exact wf_Ex_csv.
  - vm_compute. reflexivity.
Defined.

Lemma mul_scale_nan : SFmul 24 128 np.nan scale32 = np.nan.
Proof. reflexivity. Qed.

(** X12.  A cell of the raster without data stays without data: when
    [augment_df] returns for a list that has ["sst"], every row whose SST
    sample is [-32767.0], or NaN already, has NaN in the [sst] column of
    the result; the scaling does not turn it into a number. *)
Theorem augment_df_no_data_is_nan
    (w : World) (path : string) (variables : list string) (out : DataFrame) :
  In "sst" variables ->
  augment_df w path variables = OK out ->
  exists (csv : DataFrame) (p : string) (src : Dataset)
         (vals : list spec_float) (col : column),
    pd_read_csv w path = OK csv
    /\ get_raster_path csv "sst" = OK p
    /\ rasterio_open w ("NETCDF:" ++ p ++ ":" ++ "sst")%string = OK src
    /\ sampled_values src csv = OK vals
    /\ lookup "sst" (columns out) = Some col
    /\ List.length col = List.length vals
    /\ forall i v, nth_error vals i = Some v ->
         v = sentinel \/ v = np.nan ->
         nth_error col i = Some (CFloat float32 np.nan).
Proof.
  intros Hin H.
  destruct (augment_df_OK_columns w path variables out H)
    as (csv & Hcsv & _ & _ & _ & _ & _ & _ & Hsst & _).
  destruct (Hsst Hin) as (vals' & Hc & Hl).
  destruct (sampled_column_OK_inv w csv "sst" _ Hc) as (p & src & vals & Hp & Hsrc & Hv & E).
  assert (E' : vals' = mask_sentinel vals).
  { clear -E. revert E. generalize (mask_sentinel vals). intros l.
    revert l. induction vals' as [|a vals' IH]; intros [|b l] E; try discriminate.
    - reflexivity.
    - injection E as -> E. rewrite (IH l E). reflexivity. }
  subst vals'.
  exists csv, p, src, vals,
    (map (fun v => CFloat float32 (SFmul 24 128 v scale32)) (mask_sentinel vals)).
  repeat (split; [assumption|]). split.
  - rewrite length_map, mask_sentinel_length. reflexivity.
  - intros i v Hi Hv'. rewrite nth_error_map.
    destruct (mask_sentinel_nth vals i v Hi) as [M1 M2].
    destruct Hv' as [-> | ->].
    + rewrite (M1 eq_refl). reflexivity.
    + rewrite (M2 nan_not_sentinel). reflexivity.
Qed.

Lemma augment_df_no_data_is_nan_witness :
  exists (csv : DataFrame) (p : string) (src : Dataset)
         (vals : list spec_float) (col : column),
    pd_read_csv Ex.world "data/summaries/a.csv" = OK csv
    /\ get_raster_path csv "sst" = OK p
    /\ rasterio_open Ex.world ("NETCDF:" ++ p ++ ":" ++ "sst")%string = OK src
    /\ sampled_values src csv = OK vals
    /\ lookup "sst" (columns Ex.augmented) = Some col
    /\ List.length col = List.length vals
    /\ forall i v, nth_error vals i = Some v ->
         v = sentinel \/ v = np.nan ->
         nth_error col i = Some (CFloat float32 np.nan).
Proof.
  apply (augment_df_no_data_is_nan Ex.world "data/summaries/a.csv" default_variables).
  - left. reflexivity.
  - vm_compute. reflexivity.
Defined.

(** * Further properties of the joiner: all files *)

Lemma Forall2_In_l {A B : Type} (R : A -> B -> Prop) (l : list A) (l' : list B) (a : A) :
  Forall2 R l l' -> In a l -> exists b, In b l' /\ R a b.
Proof.
  induction 1 as [|x y l l' Hxy _ IH]; intros Hin; [destruct Hin|].
  destruct Hin as [<- | Hin].
  - exists y. split; [left; reflexivity | exact Hxy].
  - destruct (IH Hin) as (b & Hb & Hab). exists b. split; [right; exact Hb | exact Hab].
Qed.

Lemma mapM_raises {A B : Type} (f : A -> result B) (l : list A) (a : A) :
  In a l -> raises (f a) -> raises (mapM f l).
Proof.
  intros Hin Hr.
  destruct (OK_or_raises (mapM f l)) as [[l' H] | H]; [|exact H].
  apply mapM_Forall2 in H. destruct (Forall2_In_l _ l l' a H Hin) as (b & _ & Hb).
  destruct Hr as [e He]. congruence.
Qed.

(** X13.  The joiner is all or nothing: it produces a table only when the
    listing is not empty and [augment_df] returns for every file of it;
    when one file fails, or when there is no file, it raises and there is
    no partial table. *)
Theorem run_joiner_all_or_nothing (w : World) (listing : list string) :
  (forall out, run_joiner w listing = OK out ->
     listing <> []
     /\ forall p, In p (full_csv_paths listing) ->
          exists t, augment_df w p default_variables = OK t)
  /\ (forall p, In p (full_csv_paths listing) ->
        raises (augment_df w p default_variables) ->
        raises (run_joiner w listing))
  /\ (listing = [] -> run_joiner w listing = Raise ValueError).
Proof.
  split; [|split].
  - intros out H. unfold run_joiner in H.
    apply bind_OK_inv in H. destruct H as (tables & Hmap & Hcat).
    apply concat_OK_inv in Hcat. destruct Hcat as (Hne & _).
    pose proof (mapM_Forall2 _ _ _ Hmap) as HF. split.
    + intros ->. cbn in HF. inversion HF. subst. contradiction.
    + intros p Hin. destruct (Forall2_In_l _ _ _ p HF Hin) as (t & _ & Ht).
      exists t. exact Ht.
  - intros p Hin Hr. unfold run_joiner.
    destruct (mapM_raises (fun p => augment_df w p default_variables) _ p Hin Hr)
      as [e He].
    unfold pool_map. rewrite He. exists e. reflexivity.
  - intros ->. reflexivity.
Qed.

Lemma run_joiner_all_or_nothing_witness :
  raises (run_joiner Ex.world ["a.csv"; "c.csv"])
  /\ (["a.csv"] <> []
      /\ forall p, In p (full_csv_paths ["a.csv"]) ->
           exists t, augment_df Ex.world p default_variables = OK t).
Proof.
  destruct (run_joiner_all_or_nothing Ex.world ["a.csv"; "c.csv"]) as (_ & HB & _).
  destruct (run_joiner_all_or_nothing Ex.world ["a.csv"]) as (HA & _ & _).
  split.
  - apply (HB "data/summaries/c.csv").
    + right. left. reflexivity.
    + exists KeyError. vm_compute. reflexivity.
  - apply (HA Ex.augmented). vm_compute. reflexivity.
Defined.

Lemma rows_of_length (t : pd.common) (k : string) (df : DataFrame) :
  wf_frame df -> List.length (pd.rows_of t k df) = nrows df.
Proof.
  intros Hwf. unfold pd.rows_of.
  destruct (lookup k (columns df)) as [c|] eqn:E.
  - rewrite length_map. exact (wf_lookup_length df k c Hwf E).
  - apply repeat_length.
Qed.

Lemma rows_of_sum (t : pd.common) (k : string) (tables : list DataFrame) :
  Forall wf_frame tables ->
  List.length (flat_map (pd.rows_of t k) tables) = list_sum (map nrows tables).
Proof.
  induction 1 as [|df tables Hdf _ IH]; [reflexivity|].
  cbn [flat_map map list_sum]. rewrite length_app, IH, (rows_of_length t k df Hdf).
  reflexivity.
Qed.

Lemma wf_concat (objs : list DataFrame) (out : DataFrame) :
  Forall wf_frame objs -> pd.concat objs = OK out -> wf_frame out.
Proof.
  intros Hwf H. unfold pd.concat in H.
  destruct objs as [|df0 objs]; [discriminate|].
  injection H as <-. unfold wf_frame. cbn [nrows columns].
  apply Forall_forall. intros kv Hin. apply in_map_iff in Hin.
  destruct Hin as (k & <- & _). cbn [snd].
  exact (rows_of_sum _ k (df0 :: objs) Hwf).
Qed.

Lemma wf_tables (w : World) (paths : list string) (tables : list DataFrame) :
  (forall p csv, In p paths -> pd_read_csv w p = OK csv -> wf_frame csv) ->
  Forall2 (fun p t => augment_df w p default_variables = OK t) paths tables ->
  Forall wf_frame tables.
Proof.
  intros Hcsv HF. induction HF as [|p t paths tables Hpt _ IH]; constructor.
  - pose proof (augment_df_OK_inv w p default_variables t Hpt)
      as (csv & _ & _ & Hread & _).
    apply (wf_augment_df w p default_variables csv t Hread); [|exact Hpt].
    apply (Hcsv p csv); [left; reflexivity | exact Hread].
  - apply IH. intros p' csv' Hin. apply Hcsv. right. exact Hin.
Qed.

(** X14.  The output table is rectangular: when the tables read from the
    files have one value per row in every column, every column of [out]
    (a column some of the tables lack included) has exactly as many values
    as the files have rows in all. *)
Theorem run_joiner_well_formed (w : World) (listing : list string) (out : DataFrame) :
  (forall p csv, In p (full_csv_paths listing) -> pd_read_csv w p = OK csv ->
     wf_frame csv) ->
  run_joiner w listing = OK out ->
  wf_frame out
  /\ (forall k c, lookup k (columns out) = Some c ->
        List.length c = list_sum (map (csv_rows w) (full_csv_paths listing))).
Proof.
  intros Hcsv H. unfold run_joiner in H.
  apply bind_OK_inv in H. destruct H as (tables & Hmap & Hcat).
  pose proof (mapM_Forall2 _ _ _ Hmap) as HF.
  pose proof (wf_tables w _ tables Hcsv HF) as Hwf.
  pose proof (wf_concat tables out Hwf Hcat) as Hout.
  split; [exact Hout|].
  intros k c Hk. rewrite (wf_lookup_length out k c Hout Hk).
  apply concat_OK_inv in Hcat. destruct Hcat as (_ & Hn & _).
  assert (HR : Forall2 (rows_in_place w) (full_csv_paths listing) tables).
  { revert HF. apply Forall2_impl. exact (augment_df_rows_in_place w). }
  pose proof (rows_in_place_sums w _ _ HR) as S1. congruence.
Qed.

Lemma run_joiner_well_formed_witness :
  wf_frame Ex.joined
  /\ (forall k c, lookup k (columns Ex.joined) = Some c ->
        List.length c
        = list_sum (map (csv_rows Ex.world) (full_csv_paths ["a.csv"; "a.csv"]))).
Proof.
  apply (run_joiner_well_formed Ex.world ["a.csv"; "a.csv"] Ex.joined).
  - intros p csv Hin Hread. cbn in Hin.
    destruct Hin as [<- | [<- | []]]; injection Hread as <-; exact wf_Ex_csv.
  - vm_compute. reflexivity.
Defined.

(** * All files: the row count of the output *)

Lemma forallb_is_float32_map (f : spec_float -> spec_float) (l : list spec_float) :
  forallb pd.is_float32 (map (fun v => CFloat float32 (f v)) l) = true.
Proof. induction l as [|v l IH]; [reflexivity | exact IH]. Qed.

Lemma sampled_column_float32 (w : World) (csv : DataFrame) (v : string) (c : column) :
  sampled_column w csv v = OK c -> forallb pd.is_float32 c = true.
Proof.
  unfold sampled_column. intros H.
  apply bind_OK_inv in H. destruct H as (path & _ & H).
  apply bind_OK_inv in H. destruct H as (src & _ & H).
  apply bind_OK_inv in H. destruct H as (vals & _ & H).
  injection H as <-. exact (forallb_is_float32_map (fun x => x) _).
Qed.

(** The two variable columns of an augmented table: one [float32] value
    per row. *)
Lemma augment_df_variable_columns (w : World) (p v : string) (t : DataFrame) :
  augment_df w p default_variables = OK t -> In v default_variables ->
  exists c, lookup v (columns t) = Some c
            /\ List.length c = nrows t
            /\ forallb pd.is_float32 c = true.
Proof.
  intros H Hv.
  destruct (augment_df_frame_columns w p t H)
    as (csv & sst & chl & _ & Hn & _ & _ & _ & Hs & Ls & Hc1 & Hc2 & Lc).
  destruct Hv as [<- | [<- | []]].
  - eexists. split; [exact Hs|]. split; [rewrite length_map; congruence|].
    exact (forallb_is_float32_map _ sst).
  - exists chl. split; [exact Hc2|]. split; [congruence|].
    exact (sampled_column_float32 w csv "chlor_a" chl Hc1).
Qed.

Lemma Forall2_exists {A B : Type} (P : A -> Prop) (R : A -> B -> Prop) (l : list A) :
  (forall a, P a -> exists b, R a b) ->
  Forall P l -> exists l', Forall2 R l l'.
Proof.
  intros HPR. induction 1 as [|a l Ha _ [l' IH]]; [exists []; constructor|].
  destruct (HPR a Ha) as [b Hb]. exists (b :: l'). constructor; assumption.
Qed.

Lemma Forall2_Forall_r {A B : Type} (R : A -> B -> Prop) (l : list A) (l' : list B) :
  Forall2 R l l' -> Forall (fun b => exists a, R a b) l'.
Proof. induction 1; constructor; eauto. Qed.

Lemma existsb_is_str_float32 (vals : list cell) :
  forallb pd.is_float32 vals = true -> existsb pd.is_str vals = false.
Proof.
  induction vals as [|c vals IH]; [reflexivity|]. cbn [forallb existsb].
  intros H. apply andb_true_iff in H. destruct H as [Hc H].
  rewrite (IH H). destruct c as [s | z | [|] x]; try discriminate. reflexivity.
Qed.

(** A column of [float32] values keeps its dtype and its values. *)
Lemma astype_common_float32 (vals : list cell) (missing : bool) (c : cell) :
  forallb pd.is_float32 vals = true -> In c vals ->
  pd.astype (pd.common_dtype vals missing) c = c.
Proof.
  intros H Hin. unfold pd.common_dtype.
  rewrite (existsb_is_str_float32 vals H).
  destruct vals as [|c0 vals]; [contradiction|]. rewrite H.
  destruct c as [s | z | d x]; reflexivity.
Qed.

Lemma values_of_concat (k : string) (objs : list DataFrame) (cols : list column) :
  Forall2 (fun t c => lookup k (columns t) = Some c) objs cols ->
  pd.values_of k objs = List.concat cols.
Proof.
  induction 1 as [|t c objs cols Hc _ IH]; [reflexivity|].
  unfold pd.values_of in *. cbn [flat_map List.concat]. rewrite Hc, IH. reflexivity.
Qed.

Lemma rows_of_concat (t : pd.common) (k : string) (objs : list DataFrame)
    (cols : list column) :
  Forall2 (fun df c => lookup k (columns df) = Some c) objs cols ->
  (forall x, In x (List.concat cols) -> pd.astype t x = x) ->
  flat_map (pd.rows_of t k) objs = List.concat cols.
Proof.
  induction 1 as [|df c objs cols Hc _ IH]; intros Hid; [reflexivity|].
  cbn [flat_map List.concat]. unfold pd.rows_of at 1. rewrite Hc.
  rewrite IH by (intros x Hx; apply Hid; cbn [List.concat]; apply in_or_app; auto).
  f_equal. rewrite <- (map_id c) at 2. apply map_ext_in.
  intros x Hx. apply Hid. cbn [List.concat]. apply in_or_app. auto.
Qed.

Lemma forallb_concat {A : Type} (f : A -> bool) (ls : list (list A)) :
  Forall (fun l => forallb f l = true) ls -> forallb f (List.concat ls) = true.
Proof.
  induction 1 as [|l ls Hl _ IH]; [reflexivity|].
  cbn [List.concat]. rewrite forallb_app, Hl, IH. reflexivity.
Qed.

Lemma length_concat_sum (tables : list DataFrame) (cols : list column) :
  Forall2 (fun t c => List.length c = nrows t) tables cols ->
  List.length (List.concat cols) = list_sum (map nrows tables).
Proof.
  induction 1 as [|t c tables cols Hc _ IH]; [reflexivity|].
  cbn [List.concat map list_sum]. rewrite length_app, Hc, IH. reflexivity.
Qed.

(** The column [k] of the stacked table when every table has it with
    [float32] values: the columns one after the other. *)
Lemma concat_float32_column (k : string) (objs : list DataFrame) (cols : list column)
    (out : DataFrame) :
  pd.concat objs = OK out ->
  Forall2 (fun t c => lookup k (columns t) = Some c
                      /\ List.length c = nrows t
                      /\ forallb pd.is_float32 c = true) objs cols ->
  lookup k (columns out) = Some (List.concat cols)
  /\ List.length (List.concat cols) = nrows out.
Proof.
  intros Hcat HF.
  destruct (concat_OK_inv objs out Hcat) as (Hne & Hn & _ & Hhas).
  assert (F1 : Forall2 (fun t c => lookup k (columns t) = Some c) objs cols)
    by (revert HF; apply Forall2_impl; tauto).
  assert (F2 : Forall2 (fun t c => List.length c = nrows t) objs cols)
    by (revert HF; apply Forall2_impl; tauto).
  assert (F3 : Forall (fun c => forallb pd.is_float32 c = true) cols).
  { apply Forall2_Forall_r in HF. revert HF. apply Forall_impl.
    intros c (t & _ & _ & H). exact H. }
  split; [|rewrite Hn; exact (length_concat_sum objs cols F2)].
  destruct HF as [|t c objs' cols' (Hc & _) _]; [contradiction|].
  rewrite (Hhas k t c (or_introl eq_refl) Hc). f_equal.
  apply (rows_of_concat _ k _ _ F1).
  intros x Hx. apply astype_common_float32.
  - rewrite (values_of_concat k _ _ F1). exact (forallb_concat _ _ F3).
  - rewrite (values_of_concat k _ _ F1). exact Hx.
Qed.

Lemma same_value_astype (t : pd.common) (x : cell) : same_value x (pd.astype t x).
Proof.
  unfold same_value.
  destruct t as [|[|]|]; destruct x as [s | z | [|] v]; cbn [pd.astype];
    first [left; reflexivity
          | right; left; eexists; split; reflexivity
          | right; right; eexists; split; reflexivity].
Qed.

Lemma rows_stacked_rows_of (t : pd.common) (k : string) (df : DataFrame) :
  rows_stacked k df (pd.rows_of t k df).
Proof.
  unfold rows_stacked, pd.rows_of.
  destruct (lookup k (columns df)) as [c|].
  - induction c as [|x c IH]; [constructor|].
    constructor; [apply same_value_astype | exact IH].
  - destruct t as [|[|]|]; cbn [pd.na]; auto.
Qed.

(** Every column of a stacked table is made of the rows of the tables, in
    the order of the tables. *)
Lemma concat_rows_stacked (objs : list DataFrame) (out : DataFrame) (k : string)
    (c : column) :
  pd.concat objs = OK out -> lookup k (columns out) = Some c ->
  exists segs, c = List.concat segs /\ Forall2 (rows_stacked k) objs segs.
Proof.
  intros Hcat Hk.
  destruct (concat_OK_inv objs out Hcat) as (_ & _ & Hcols & _).
  rewrite (Hcols k c Hk).
  exists (map (pd.rows_of (pd.common_dtype (pd.values_of k objs)
                             (existsb (pd.lacks k) objs)) k) objs).
  split; [apply flat_map_concat_map|].
  generalize (pd.common_dtype (pd.values_of k objs) (existsb (pd.lacks k) objs)).
  intros t. clear Hcat Hk Hcols.
  induction objs as [|df objs IH]; [constructor|].
  constructor; [apply rows_stacked_rows_of | exact IH].
Qed.

(** C6.  When the joiner produces [out] from the files of a listing, there
    is one augmented table per file, in the order of the files, and each
    has the rows of its file in place.  The row count of [out] is the sum
    of the row counts of the augmented tables, which is the sum of the row
    counts of the files, and the rows are there: the [sst] and the
    [chlor_a] column of [out] are those columns of the tables, one after
    the other, with that many values; every column of [out] is made of the
    rows of the tables in their order, table after table, each value as it
    is or as a double, with NaN for the rows of a table that lacks the
    column; and when the tables read from the files have one value per row
    in every column, so has every column of [out].  The joiner does produce
    a table whenever every file is augmented and there is at least one. *)
Theorem run_joiner_row_count (w : World) (listing : list string) :
  (forall out : DataFrame,
      run_joiner w listing = OK out ->
      exists tables : list DataFrame,
        pool_map (fun p => augment_df w p default_variables) (full_csv_paths listing)
        = OK tables
        /\ Forall2 (rows_in_place w) (full_csv_paths listing) tables
        /\ nrows out = list_sum (map nrows tables)
        /\ nrows out = list_sum (map (csv_rows w) (full_csv_paths listing))
        /\ (forall v : string, In v default_variables ->
              exists cols : list column,
                Forall2 (fun t c => lookup v (columns t) = Some c
                                    /\ List.length c = nrows t) tables cols
                /\ lookup v (columns out) = Some (List.concat cols)
                /\ List.length (List.concat cols) = nrows out)
        /\ (forall k c, lookup k (columns out) = Some c ->
              exists segs : list column,
                c = List.concat segs /\ Forall2 (rows_stacked k) tables segs)
        /\ ((forall p csv, In p (full_csv_paths listing) ->
               pd_read_csv w p = OK csv -> wf_frame csv) ->
            forall k c, lookup k (columns out) = Some c -> List.length c = nrows out))
  /\ (forall tables : list DataFrame,
        pool_map (fun p => augment_df w p default_variables) (full_csv_paths listing)
        = OK tables ->
        tables <> [] ->
        exists out, run_joiner w listing = OK out).
Proof.
  split.
  - intros out H. unfold run_joiner in H.
    apply bind_OK_inv in H. destruct H as (tables & Hmap & Hcat).
    exists tables. split; [exact Hmap|].
    pose proof (mapM_Forall2 _ _ _ Hmap) as HA.
    assert (HF : Forall2 (rows_in_place w) (full_csv_paths listing) tables).
    { revert HA. apply Forall2_impl. exact (augment_df_rows_in_place w). }
    split; [exact HF|].
    pose proof (rows_in_place_sums w _ _ HF) as S1.
    destruct (concat_OK_inv tables out Hcat) as (Hne & Hn & _ & _).
    split; [exact Hn|]. split; [congruence|]. split; [|split].
    + intros v Hv.
      assert (HT : Forall (fun t => exists p, augment_df w p default_variables = OK t)
                     tables) by exact (Forall2_Forall_r _ _ _ HA).
      destruct (Forall2_exists _
                  (fun t c => lookup v (columns t) = Some c
                              /\ List.length c = nrows t
                              /\ forallb pd.is_float32 c = true) tables
                  (fun t Ht => match Ht with
                               | ex_intro _ p Hp =>
                                   augment_df_variable_columns w p v t Hp Hv
                               end) HT) as [cols Hcols].
      exists cols.
      destruct (concat_float32_column v tables cols out Hcat Hcols) as [L1 L2].
      split; [|split; [exact L1 | exact L2]].
      revert Hcols. apply Forall2_impl. tauto.
    + intros k c Hk. exact (concat_rows_stacked tables out k c Hcat Hk).
    + intros Hcsv k c Hk.
      pose proof (wf_tables w _ tables Hcsv HA) as Hwf.
      exact (wf_lookup_length out k c (wf_concat tables out Hwf Hcat) Hk).
  - intros tables Hmap Hne. unfold run_joiner. rewrite Hmap. cbn [bind].
    exact (concat_nonempty tables Hne).
Qed.

Lemma run_joiner_row_count_witness :
  (exists tables : list DataFrame,
      pool_map (fun p => augment_df Ex.world p default_variables)
        (full_csv_paths ["b.csv"; "a.csv"]) = OK tables
      /\ Forall2 (rows_in_place Ex.world) (full_csv_paths ["b.csv"; "a.csv"]) tables
      /\ nrows Ex.joined = list_sum (map nrows tables)
      /\ nrows Ex.joined
         = list_sum (map (csv_rows Ex.world) (full_csv_paths ["b.csv"; "a.csv"]))
      /\ (forall v : string, In v default_variables ->
            exists cols : list column,
              Forall2 (fun t c => lookup v (columns t) = Some c
                                  /\ List.length c = nrows t) tables cols
              /\ lookup v (columns Ex.joined) = Some (List.concat cols)
              /\ List.length (List.concat cols) = nrows Ex.joined)
      /\ (forall k c, lookup k (columns Ex.joined) = Some c ->
            exists segs : list column,
              c = List.concat segs /\ Forall2 (rows_stacked k) tables segs)
      /\ ((forall p csv, In p (full_csv_paths ["b.csv"; "a.csv"]) ->
             pd_read_csv Ex.world p = OK csv -> wf_frame csv) ->
          forall k c, lookup k (columns Ex.joined) = Some c ->
                      List.length c = nrows Ex.joined))
  /\ exists out, run_joiner Ex.world ["b.csv"; "a.csv"] = OK out.
Proof.
  destruct (run_joiner_row_count Ex.world ["b.csv"; "a.csv"]) as [HA HB].
  split.
  - apply (HA Ex.joined). vm_compute. reflexivity.
  - apply (HB [Ex.augmented; Ex.augmented]); [vm_compute; reflexivity | discriminate].
Defined.

(** * Stacking tables with different columns *)








(** * Further properties of the joiner: the listing *)

Lemma ascii_compare_N (a b : ascii) :
  Ascii.compare a b = N.compare (N_of_ascii a) (N_of_ascii b).
Proof. reflexivity. Qed.

Lemma string_compare_Lt_trans (s1 : string) :
  forall s2 s3, String.compare s1 s2 = Lt -> String.compare s2 s3 = Lt ->
                String.compare s1 s3 = Lt.
Proof.
  induction s1 as [|a s1 IH]; intros [|b s2] [|c s3]; cbn [String.compare];
    try discriminate; try reflexivity.
  rewrite !ascii_compare_N.
  destruct (N.compare_spec (N_of_ascii a) (N_of_ascii b)) as [E1 | L1 | G1];
    destruct (N.compare_spec (N_of_ascii b) (N_of_ascii c)) as [E2 | L2 | G2];
    try discriminate; intros H1 H2.
  - rewrite E1, E2, N.compare_refl. exact (IH s2 s3 H1 H2).
  - rewrite E1. apply N.compare_lt_iff in L2. rewrite L2. reflexivity.
  - rewrite <- E2. apply N.compare_lt_iff in L1. rewrite L1. reflexivity.
  - assert (L : (N_of_ascii a < N_of_ascii c)%N) by (eapply N.lt_trans; eassumption).
    apply N.compare_lt_iff in L. rewrite L. reflexivity.
Qed.

Lemma name_le_trans (a b c : string) : name_le a b -> name_le b c -> name_le a c.
Proof.
  intros H1 H2.
  destruct (String.compare a b) eqn:E1.
  - apply String.compare_eq_iff in E1. subst b. exact H2.
  - destruct (String.compare b c) eqn:E2.
    + apply String.compare_eq_iff in E2. subst c. exact H1.
    + unfold name_le, String.leb.
      rewrite (string_compare_Lt_trans a b c E1 E2). reflexivity.
    + unfold name_le, String.leb in H2. rewrite E2 in H2. discriminate H2.
  - unfold name_le, String.leb in H1. rewrite E1 in H1. discriminate H1.
Qed.

Lemma insert_sorted_perm (s : string) (l : list string) :
  Permutation (insert_sorted s l) (s :: l).
Proof.
  induction l as [|t l IH]; [apply Permutation_refl|].
  cbn [insert_sorted]. destruct (String.leb s t); [apply Permutation_refl|].
  eapply Permutation_trans; [apply perm_skip; exact IH | apply perm_swap].
Qed.

Lemma sort_perm (l : list string) : Permutation (sort l) l.
Proof.
  induction l as [|s l IH]; [apply perm_nil|].
  unfold sort. cbn [fold_right]. fold (sort l).
  eapply Permutation_trans; [apply insert_sorted_perm | apply perm_skip; exact IH].
Qed.

Lemma insert_sorted_strongly (s : string) (l : list string) :
  StronglySorted name_le l -> StronglySorted name_le (insert_sorted s l).
Proof.
  induction 1 as [|t l Hl IH Ht]; cbn [insert_sorted].
  - constructor; constructor.
  - destruct (String.leb s t) eqn:E.
    + constructor; [constructor; assumption|].
      constructor; [exact E|].
      rewrite Forall_forall in Ht |- *. intros x Hx.
      exact (name_le_trans s t x E (Ht x Hx)).
    + constructor; [exact IH|].
      rewrite Forall_forall in Ht |- *. intros x Hx.
      apply (Permutation_in _ (insert_sorted_perm s l)) in Hx.
      destruct Hx as [<- | Hx]; [|exact (Ht x Hx)].
      destruct (String.leb_total s t) as [H | H]; [congruence | exact H].
Qed.

Lemma sort_strongly (l : list string) : StronglySorted name_le (sort l).
Proof.
  induction l as [|s l IH]; [constructor|].
  unfold sort. cbn [fold_right]. fold (sort l).
  exact (insert_sorted_strongly s (sort l) IH).
Qed.

Lemma sorted_perm_eq (l1 : list string) :
  forall l2, StronglySorted name_le l1 -> StronglySorted name_le l2 ->
             Permutation l1 l2 -> l1 = l2.
Proof.
  induction l1 as [|a l1 IH]; intros l2 S1 S2 P.
  - apply Permutation_nil in P. subst. reflexivity.
  - destruct l2 as [|b l2]; [apply Permutation_sym, Permutation_nil in P; discriminate|].
    inversion S1 as [|? ? S1' F1]. inversion S2 as [|? ? S2' F2]. subst.
    rewrite Forall_forall in F1, F2.
    assert (E : a = b).
    { assert (Ha : In a (b :: l2)) by (apply (Permutation_in _ P); left; reflexivity).
      assert (Hb : In b (a :: l1))
        by (apply (Permutation_in _ (Permutation_sym P)); left; reflexivity).
      destruct Ha as [-> | Ha]; [reflexivity|].
      destruct Hb as [-> | Hb]; [reflexivity|].
      exact (String.leb_antisym a b (F1 b Hb) (F2 a Ha)). }
    subst b. f_equal. apply IH; [exact S1' | exact S2'|].
    exact (Permutation_cons_inv P).
Qed.

Lemma join_summaries (f : string) :
  Str.startswith "/" f = false ->
  os_path.join "data" ["summaries"; f] = ("data/summaries/" ++ f)%string.
Proof.
  intros H. unfold os_path.join. cbn [fold_left].
  change (os_path.join2 "data" "summaries") with "data/summaries".
  unfold os_path.join2. change (String os_path.sep EmptyString) with "/".
  rewrite H. reflexivity.
Qed.

(** X15.  The files are taken in the order of their names: the paths of
    [full_csv_paths] are those of the listing, each once for each time it
    is listed, sorted by name; with names that do not start with a slash
    (as [os.listdir] gives them) each path is [data/summaries/<name>]. *)
Theorem full_csv_paths_sorted (listing : list string) :
  Permutation (sort listing) listing
  /\ StronglySorted name_le (sort listing)
  /\ List.length (full_csv_paths listing) = List.length listing
  /\ ((forall f, In f listing -> Str.startswith "/" f = false) ->
      full_csv_paths listing
      = map (fun f => ("data/summaries/" ++ f)%string) (sort listing)).
Proof.
  split; [apply sort_perm|]. split; [apply sort_strongly|]. split.
  - unfold full_csv_paths. rewrite length_map.
    exact (Permutation_length (sort_perm listing)).
  - intros H. unfold full_csv_paths. apply map_ext_in. intros f Hf.
    apply join_summaries. apply H. exact (Permutation_in _ (sort_perm listing) Hf).
Qed.

Lemma full_csv_paths_sorted_witness :
  full_csv_paths ["b.csv"; "a.csv"; "B.csv"]
  = map (fun f => ("data/summaries/" ++ f)%string) (sort ["b.csv"; "a.csv"; "B.csv"])
  /\ sort ["b.csv"; "a.csv"; "B.csv"] = ["B.csv"; "a.csv"; "b.csv"].
Proof.
  split; [|reflexivity].
  apply (proj2 (proj2 (proj2 (full_csv_paths_sorted ["b.csv"; "a.csv"; "B.csv"])))).
  intros f [<- | [<- | [<- | []]]]; reflexivity.
Defined.

(** X16.  The output does not depend on the order in which the directory
    is listed: on two listings that are permutations of each other, when
    the joiner gives a table for one it gives the same table for the
    other, and when it raises for one it raises for the other. *)
Theorem run_joiner_listing_order (w : World) (l1 l2 : list string) :
  Permutation l1 l2 ->
  (forall out, run_joiner w l1 = OK out -> run_joiner w l2 = OK out)
  /\ (raises (run_joiner w l1) -> raises (run_joiner w l2)).
Proof.
  intros P.
  assert (E : sort l1 = sort l2).
  { apply sorted_perm_eq; [apply sort_strongly | apply sort_strongly|].
    eapply Permutation_trans; [apply sort_perm|].
    eapply Permutation_trans; [exact P | apply Permutation_sym, sort_perm]. }
  assert (R : run_joiner w l1 = run_joiner w l2)
    by (unfold run_joiner, full_csv_paths; rewrite E; reflexivity).
  rewrite R. split; [intros out H; exact H | intros H; exact H].
Qed.

Lemma run_joiner_listing_order_witness :
  run_joiner Ex.world ["a.csv"; "b.csv"] = OK Ex.joined.
Proof.
  apply (proj1 (run_joiner_listing_order Ex.world ["b.csv"; "a.csv"] ["a.csv"; "b.csv"]
                  (perm_swap "a.csv" "b.csv" []))).
  vm_compute. reflexivity.
Defined.

(** * Further properties of the fetcher *)

Section FetcherExtras.

Import Fetcher.

Lemma mkdir_data (st : state) :
  lookup "data" (fs st) = None ->
  mkdir "data" st = Done tt (mkState (("data", Dir) :: fs st) (requests st)).
Proof.
  intros H. unfold mkdir, path_exists. rewrite H. reflexivity.
Qed.

Lemma mkdir_ncdf_dir (st : state) :
  lookup "data/modis" (fs st) = None ->
  mkdir "data/modis" st
  = match lookup "data" (fs st) with
    | Some Dir => Done tt (mkState (("data/modis", Dir) :: fs st) (requests st))
    | Some (File _) => Failed NotADirectoryError st
    | None => Failed FileNotFoundError st
    end.
Proof.
  intros H. unfold mkdir, path_exists. rewrite H. unfold check_parent.
  change (fst (os_path.split "data/modis")) with "data".
  change (String.eqb "data" EmptyString) with false. cbv iota.
  destruct (lookup "data" (fs st)) as [[|c]|]; reflexivity.
Qed.

Lemma ensure_dir_creates (st : state) :
  lookup "data/modis" (fs st) = None ->
  lookup "data" (fs st) = None \/ lookup "data" (fs st) = Some Dir ->
  exists st1, ensure_dir st = Done tt st1 /\ lookup "data/modis" (fs st1) = Some Dir.
Proof.
  intros Hm Hd.
  assert (E : ensure_dir st = makedirs ncdf_dir st).
  { unfold ensure_dir, path_exists. change ncdf_dir with "data/modis".
    rewrite Hm. reflexivity. }
  rewrite E, makedirs_ncdf_dir. unfold path_exists.
  destruct Hd as [Hd | Hd]; rewrite Hd.
  - rewrite (mkdir_data st Hd).
    rewrite mkdir_ncdf_dir by (cbn [fs lookup]; exact Hm).
    eexists. split; reflexivity.
  - rewrite (mkdir_ncdf_dir st Hm), Hd. eexists. split; reflexivity.
Qed.

(** X17.  The directory cell, case by case: an existing [data/modis] is
    left alone; otherwise, with a directory [data] only [data/modis] is
    created, with no [data] both are created, and with a regular file
    named [data] the cell fails with [NotADirectoryError] and creates
    nothing. *)
Theorem ensure_dir_cases (st : state) :
  lookup "data/modis" (fs st) = None ->
  (lookup "data" (fs st) = Some Dir ->
     ensure_dir st = Done tt (mkState (("data/modis", Dir) :: fs st) (requests st)))
  /\ (lookup "data" (fs st) = None ->
     ensure_dir st
     = Done tt (mkState (("data/modis", Dir) :: ("data", Dir) :: fs st) (requests st)))
  /\ (forall c, lookup "data" (fs st) = Some (File c) ->
     ensure_dir st = Failed NotADirectoryError st).
Proof.
  intros Hm.
  assert (E : ensure_dir st = makedirs ncdf_dir st).
  { unfold ensure_dir, path_exists. change ncdf_dir with "data/modis".
    rewrite Hm. reflexivity. }
  rewrite E, makedirs_ncdf_dir. unfold path_exists.
  split; [|split].
  - intros Hd. rewrite Hd, (mkdir_ncdf_dir st Hm), Hd. reflexivity.
  - intros Hd. rewrite Hd, (mkdir_data st Hd).
    rewrite mkdir_ncdf_dir by (cbn [fs lookup]; exact Hm).
    reflexivity.
  - intros c Hd. rewrite Hd, (mkdir_ncdf_dir st Hm), Hd. reflexivity.
Qed.

Lemma ensure_dir_cases_witness :
  ensure_dir Ex.empty_disk = Done tt Ex.after_ensure
  /\ ensure_dir (mkState [("data", File [])] []) = Failed NotADirectoryError
                                                     (mkState [("data", File [])] []).
Proof.
  split.
  - apply (proj1 (proj2 (ensure_dir_cases Ex.empty_disk eq_refl))). reflexivity.
  - apply (proj2 (proj2 (ensure_dir_cases (mkState [("data", File [])] []) eq_refl)) []).
    reflexivity.
Defined.

Lemma lookup_cons_neq {V : Type} (p k : string) (v : V) (l : list (string * V)) :
  p <> k -> lookup p ((k, v) :: l) = lookup p l.
Proof. intros H. cbn [lookup]. apply String.eqb_neq in H. rewrite H. reflexivity. Qed.

Lemma mkdir_frame (k p : string) (st : state) :
  p <> k -> lookup p (fs (final_state (mkdir k st))) = lookup p (fs st).
Proof.
  intros H. destruct (mkdir_inv k st) as [[e E] | [_ E]]; rewrite E; cbn [final_state fs].
  - reflexivity.
  - apply lookup_cons_neq. exact H.
Qed.

Lemma mkdir_requests (k : string) (st : state) :
  requests (final_state (mkdir k st)) = requests st.
Proof.
  destruct (mkdir_inv k st) as [[e E] | [_ E]]; rewrite E; reflexivity.
Qed.

Lemma ensure_dir_frame (p : string) (st : state) :
  p <> "data" -> p <> "data/modis" ->
  lookup p (fs (final_state (ensure_dir st))) = lookup p (fs st)
  /\ requests (final_state (ensure_dir st)) = requests st.
Proof.
  intros H1 H2. unfold ensure_dir.
  destruct (path_exists ncdf_dir st); cbn [negb]; [split; reflexivity|].
  rewrite makedirs_ncdf_dir.
  destruct (path_exists "data" st).
  - split; [apply mkdir_frame; exact H2 | apply mkdir_requests].
  - pose proof (mkdir_frame "data" p st H1) as F1.
    pose proof (mkdir_requests "data" st) as R1.
    destruct (mkdir "data" st) as [[] st1|e st1]; cbn [final_state] in F1, R1.
    + rewrite <- F1, <- R1.
      split; [apply mkdir_frame; exact H2 | apply mkdir_requests].
    + destruct e; cbn [final_state]; try (split; assumption);
        rewrite <- F1, <- R1;
        (split; [apply mkdir_frame; exact H2 | apply mkdir_requests]).
Qed.

Lemma download_frame (net : network) (key value p : string) (st : state) :
  p <> file_name_of key ->
  lookup p (fs (final_state (download net (key, value) st))) = lookup p (fs st).
Proof.
  intros H.
  destruct (download_inv net key value st)
    as [(b & st' & E & _ & _ & _ & F) | (e & st' & E & _ & F)];
    rewrite E; cbn [final_state]; exact (F p H).
Qed.

Lemma download_all_frame (net : network) (mapping : list (string * string)) (p : string) :
  forall st, ~ In p (file_names mapping) ->
    lookup p (fs (final_state (download_all net mapping st))) = lookup p (fs st).
Proof.
  induction mapping as [|[key value] mapping IH]; intros st Hp; [reflexivity|].
  unfold download_all. cbn [for_each]. unfold seq_.
  assert (Hk : p <> file_name_of key) by (intros ->; apply Hp; left; reflexivity).
  pose proof (download_frame net key value p st Hk) as F.
  destruct (download net (key, value) st) as [[] st1|e st1]; cbn [final_state] in F |- *.
  - rewrite <- F. apply IH. intros Hin. apply Hp. right. exact Hin.
  - exact F.
Qed.

(** The request log of the loop: the URLs of a prefix of the mapping, in
    order; of all of it when the loop completes. *)
Lemma download_all_requests (net : network) (mapping : list (string * string)) :
  forall st, exists n,
    n <= List.length mapping
    /\ requests (final_state (download_all net mapping st))
       = requests st ++ firstn n (map snd mapping)
    /\ (forall st', download_all net mapping st = Done tt st' -> n = List.length mapping).
Proof.
  induction mapping as [|[key value] mapping IH]; intros st.
  - exists 0. split; [reflexivity|]. split; [|reflexivity].
    cbn. rewrite app_nil_r. reflexivity.
  - unfold download_all. cbn [for_each]. unfold seq_.
    destruct (download_inv net key value st)
      as [(b & st1 & E & _ & _ & R & _) | (e & st1 & E & R & _)]; rewrite E.
    + destruct (IH st1) as (n & Hn & Hr & Hd). exists (S n).
      split; [cbn [List.length]; lia|]. split.
      * unfold download_all in Hr. rewrite Hr, R, <- app_assoc. reflexivity.
      * intros st' H. cbn [List.length]. f_equal. exact (Hd st' H).
    + exists 1. split; [cbn [List.length]; lia|]. split; [|discriminate].
      cbn [final_state]. rewrite R. reflexivity.
Qed.

(** X18.  The fetcher stays within its files: whether a run completes or
    fails, every path other than [data], [data/modis] and the ten files
    [data/modis/<key>.nc] is on disk as it was before the run. *)
Theorem fetch_frame (net : network) (st : state) (p : string) :
  ~ In p fetcher_paths ->
  lookup p (fs (final_state (fetch net st))) = lookup p (fs st).
Proof.
  intros Hp. unfold fetcher_paths in Hp.
  assert (H1 : p <> "data") by (intros ->; apply Hp; left; reflexivity).
  assert (H2 : p <> "data/modis") by (intros ->; apply Hp; right; left; reflexivity).
  assert (H3 : ~ In p (file_names urls)) by (intros H; apply Hp; right; right; exact H).
  destruct (ensure_dir_frame p st H1 H2) as [F _].
  unfold fetch, seq_.
  destruct (ensure_dir st) as [[] st1|e st1]; cbn [final_state] in F |- *; [|exact F].
  rewrite <- F. exact (download_all_frame net urls p st1 H3).
Qed.

Lemma fetch_frame_witness :
  lookup "data/summaries/a.csv"
    (fs (final_state (fetch Ex.net_broken
                        (mkState [("data/summaries/a.csv", File [Byte.x31])] []))))
  = Some (File [Byte.x31]).
Proof.
  rewrite (fetch_frame Ex.net_broken
             (mkState [("data/summaries/a.csv", File [Byte.x31])] [])
             "data/summaries/a.csv").
  - reflexivity.
  - unfold fetcher_paths. cbn. intuition discriminate.
Defined.

(** X19.  The requests of a run are a prefix of the URLs of [urls], in
    their order, after the requests made before: no URL is requested out
    of turn or twice, none before the directory cell has completed, and
    all ten exactly when the run completes. *)
Theorem fetch_requests_prefix (net : network) (st : state) :
  exists n,
    n <= List.length urls
    /\ requests (final_state (fetch net st)) = requests st ++ firstn n (map snd urls)
    /\ (forall e st1, ensure_dir st = Failed e st1 -> n = 0)
    /\ (forall st', fetch net st = Done tt st' -> n = List.length urls).
Proof.
  destruct (ensure_dir_frame "" st) as [_ R]; [discriminate | discriminate|].
  unfold fetch, seq_.
  destruct (ensure_dir st) as [[] st1|e st1] eqn:E; cbn [final_state] in R.
  - destruct (download_all_requests net urls st1) as (n & Hn & Hr & Hd).
    exists n. split; [exact Hn|]. split; [congruence|]. split; [discriminate|].
    exact Hd.
  - exists 0. split; [lia|]. split; [|split; [reflexivity | discriminate]].
    cbn [final_state firstn]. rewrite app_nil_r. exact R.
Qed.

Lemma fetch_requests_prefix_witness :
  exists n,
    n <= List.length urls
    /\ requests (final_state (fetch Ex.net_broken Ex.empty_disk))
       = requests Ex.empty_disk ++ firstn n (map snd urls)
    /\ (forall e st1, ensure_dir Ex.empty_disk = Failed e st1 -> n = 0)
    /\ (forall st', fetch Ex.net_broken Ex.empty_disk = Done tt st' ->
          n = List.length urls).
Proof. exact (fetch_requests_prefix Ex.net_broken Ex.empty_disk). Defined.

Lemma urls_parent (k v : string) :
  In (k, v) urls -> fst (os_path.split (file_name_of k)) = "data/modis".
Proof.
  intros H. cbn [In urls] in H.
  repeat (destruct H as [H | H]; [injection H as <- _; reflexivity|]).
  contradiction.
Qed.

Lemma check_parent_urls (k v : string) (st : state) :
  In (k, v) urls ->
  check_parent (file_name_of k) st
  = match lookup "data/modis" (fs st) with
    | Some Dir => None
    | Some (File _) => Some NotADirectoryError
    | None => Some FileNotFoundError
    end.
Proof.
  intros H. unfold check_parent. rewrite (urls_parent k v H). reflexivity.
Qed.

Lemma urls_file_not_dir_path (k v : string) :
  In (k, v) urls -> file_name_of k <> "data/modis".
Proof.
  intros H. cbn [In urls] in H.
  repeat (destruct H as [H | H]; [injection H as <- _; discriminate|]).
  contradiction.
Qed.

(** One download, when nothing is in its way. *)
Lemma download_succeeds (net : network) (k v : string) (b : list Byte.byte) (st : state) :
  In (k, v) urls ->
  net v = Body b ->
  lookup "data/modis" (fs st) = Some Dir ->
  lookup (file_name_of k) (fs st) <> Some Dir ->
  exists st', download net (k, v) st = Done tt st'.
Proof.
  intros Hin Hb Hd Hf. unfold download, seq_, urlopen. rewrite Hb. cbv iota beta.
  unfold open_wb. cbn [fs requests].
  rewrite (check_parent_urls k v _ Hin). cbn [fs]. rewrite Hd.
  destruct (lookup (file_name_of k) (fs st)) as [[|c]|];
    [contradiction | |]; rewrite copyfileobj_Body; eexists; reflexivity.
Qed.

Lemma download_all_succeeds (net : network) (mapping : list (string * string)) :
  (forall k v, In (k, v) mapping -> In (k, v) urls) ->
  (forall k v, In (k, v) mapping -> exists b, net v = Body b) ->
  forall st,
    lookup "data/modis" (fs st) = Some Dir ->
    (forall k v, In (k, v) mapping -> lookup (file_name_of k) (fs st) <> Some Dir) ->
    exists st', download_all net mapping st = Done tt st'.
Proof.
  induction mapping as [|[k v] mapping IH]; intros Hsub Hnet st Hd Hf.
  - exists st. reflexivity.
  - destruct (Hnet k v (or_introl eq_refl)) as [b Hb].
    destruct (download_succeeds net k v b st (Hsub k v (or_introl eq_refl)) Hb Hd
                (Hf k v (or_introl eq_refl))) as [st1 H1].
    unfold download_all. cbn [for_each]. unfold seq_. rewrite H1.
    pose proof (download_Done_inv net k v st st1 H1) as (b' & _ & Hfile & _ & Ho).
    apply IH.
    + intros k' v' Hin. apply Hsub. right. exact Hin.
    + intros k' v' Hin. apply (Hnet k' v'). right. exact Hin.
    + rewrite Ho; [exact Hd|]. intros E. symmetry in E.
      exact (urls_file_not_dir_path k v (Hsub k v (or_introl eq_refl)) E).
    + intros k' v' Hin.
      destruct (string_dec (file_name_of k') (file_name_of k)) as [E | Hne].
      * rewrite E, Hfile. discriminate.
      * rewrite (Ho _ Hne). apply (Hf k' v'). right. exact Hin.
Qed.

(** The loop completes from a state with the directory in place. *)
Lemma download_urls_completes (net : network) (st1 : state) :
  lookup "data/modis" (fs st1) = Some Dir ->
  (forall k v, In (k, v) urls -> exists b, net v = Body b) ->
  (forall k v, In (k, v) urls -> lookup (file_name_of k) (fs st1) <> Some Dir) ->
  exists st', download_all net urls st1 = Done tt st'.
Proof.
  intros D1 Hnet Hfiles.
  exact (download_all_succeeds net urls
           (fun (k v : string) (H : In (k, v) urls) => H) Hnet st1 D1 Hfiles).
Qed.

(** X20.  When the run completes.  With [data/modis] a directory, or
    absent under a [data] that is absent or a directory, with no
    directory in the place of one of the ten files, and with every URL
    answered in full, the fetcher completes. *)
Theorem fetch_completes (net : network) (st : state) :
  (lookup "data/modis" (fs st) = Some Dir
   \/ (lookup "data/modis" (fs st) = None
       /\ (lookup "data" (fs st) = None \/ lookup "data" (fs st) = Some Dir))) ->
  (forall k v, In (k, v) urls -> exists b, net v = Body b) ->
  (forall k v, In (k, v) urls -> lookup (file_name_of k) (fs st) <> Some Dir) ->
  exists st', fetch net st = Done tt st'.
Proof.
  intros Hdir Hnet Hfiles.
  assert (H1 : exists st1, ensure_dir st = Done tt st1
                           /\ lookup "data/modis" (fs st1) = Some Dir).
  { destruct Hdir as [Hd | [Hm Hd]].
    - exists st. split; [|exact Hd]. apply ensure_dir_present.
      unfold path_exists. change ncdf_dir with "data/modis". rewrite Hd. reflexivity.
    - exact (ensure_dir_creates st Hm Hd). }
  destruct H1 as (st1 & E1 & D1).
  destruct (download_urls_completes net st1 D1 Hnet) as [st' H'].
  - intros k v Hin.
    destruct (ensure_dir_frame (file_name_of k) st) as [F _].
    + cbn [In urls] in Hin.
      repeat (destruct Hin as [Hin | Hin]; [injection Hin as <- _; discriminate|]).
      contradiction.
    + exact (urls_file_not_dir_path k v Hin).
    + rewrite E1 in F. cbn [final_state] in F. rewrite F. exact (Hfiles k v Hin).
  - exists st'. unfold fetch, seq_. rewrite E1. exact H'.
Qed.

Lemma fetch_completes_witness :
  exists st', fetch Ex.net_ok Ex.empty_disk = Done tt st'.
Proof.
  apply (fetch_completes Ex.net_ok Ex.empty_disk).
  - right. split; [reflexivity | left; reflexivity].
  - intros k v _. exists [Byte.x2a]. reflexivity.
  - intros k v _. discriminate.
Defined.

Lemma download_Done_parent (net : network) (k v : string) (st st' : state) :
  In (k, v) urls -> download net (k, v) st = Done tt st' ->
  lookup "data/modis" (fs st) = Some Dir.
Proof.
  intros Hin. unfold download, seq_, urlopen.
  destruct (net v) as [|b|b]; cbv iota beta; [discriminate | |];
    unfold open_wb; cbn [fs requests];
    rewrite (check_parent_urls k v _ Hin); cbn [fs];
    destruct (lookup "data/modis" (fs st)) as [[|c]|]; try reflexivity;
    destruct (lookup (file_name_of k) (fs st)) as [[|c']|]; discriminate.
Qed.

(** X21.  Nothing is resumed or skipped: after a run that completed, a
    second run on the same network completes too, requests the ten URLs
    once more and leaves each file with the bytes it had. *)
Theorem fetch_again (net : network) (st st' : state) :
  fetch net st = Done tt st' ->
  exists st'',
    fetch net st' = Done tt st''
    /\ requests st'' = requests st' ++ map snd urls
    /\ forall k v, In (k, v) urls ->
         lookup (file_name_of k) (fs st'') = lookup (file_name_of k) (fs st').
Proof.
  intros H. pose proof H as H0. unfold fetch, seq_ in H.
  destruct (ensure_dir st) as [[] st1|e st1] eqn:E1; [|discriminate].
  destruct (download_all_Done_inv net urls st1 st' urls_file_names_NoDup H)
    as (_ & Hfiles & Ho).
  assert (D1 : lookup "data/modis" (fs st1) = Some Dir).
  { unfold download_all, urls in H. cbn [for_each] in H. unfold seq_ at 1 in H.
    match type of H with
    | context [download net (?k, ?v) st1] =>
        destruct (download net (k, v) st1) as [[] st2|e st2] eqn:E2; [|discriminate];
        apply (download_Done_parent net k v st1 st2); [left; reflexivity | exact E2]
    end. }
  assert (D' : lookup "data/modis" (fs st') = Some Dir).
  { rewrite Ho; [exact D1|]. intros Hin. unfold file_names in Hin.
    apply in_map_iff in Hin. destruct Hin as ([k v] & E & Hin).
    exact (urls_file_not_dir_path k v Hin E). }
  assert (E2 : ensure_dir st' = Done tt st').
  { apply ensure_dir_present. unfold path_exists. change ncdf_dir with "data/modis".
    rewrite D'. reflexivity. }
  destruct (download_urls_completes net st' D') as [st'' H''].
  - intros k v Hin. destruct (Hfiles k v Hin) as (b & Hb & _). exists b. exact Hb.
  - intros k v Hin. destruct (Hfiles k v Hin) as (b & _ & Hf). rewrite Hf. discriminate.
  - exists st''. split; [unfold fetch, seq_; rewrite E2; exact H''|].
    destruct (download_all_Done_inv net urls st' st'' urls_file_names_NoDup H'')
      as (R & Hfiles' & _).
    split; [exact R|]. intros k v Hin.
    destruct (Hfiles k v Hin) as (b & Hb & Hf).
    destruct (Hfiles' k v Hin) as (b' & Hb' & Hf').
    rewrite Hf, Hf'. congruence.
Qed.

Lemma fetch_again_witness :
  exists st'',
    fetch Ex.net_ok after_fetch_ok = Done tt st''
    /\ requests st'' = requests after_fetch_ok ++ map snd urls
    /\ forall k v, In (k, v) urls ->
         lookup (file_name_of k) (fs st'') = lookup (file_name_of k) (fs after_fetch_ok).
Proof.
  apply (fetch_again Ex.net_ok Ex.empty_disk after_fetch_ok).
  vm_compute. reflexivity.
Defined.








(** X24.  The fetcher feeds the joiner: after a run of the fetcher that
    completed, every path [get_raster_path] can resolve is a regular file
    on disk, holding the bytes the network serves for an entry of [urls]
    whose key is the base name of the path without [.nc]. *)
Theorem fetched_rasters_resolve
    (net : network) (st st' : state) (df : DataFrame) (v p : string) :
  fetch net st = Done tt st' ->
  get_raster_path df v = OK p ->
  exists key value b,
    In (key, value) urls
    /\ p = file_name_of key
    /\ net value = Body b
    /\ lookup p (fs st') = Some (File b).
Proof.
  intros H Hp. unfold fetch, seq_ in H.
  destruct (ensure_dir st) as [[] st1|e st1]; [|discriminate].
  destruct (download_all_Done_inv net urls st1 st' urls_file_names_NoDup H)
    as (_ & Hfiles & _).
  destruct (get_raster_path_OK_inv df v p Hp) as (m & Hm & Hs & Hv & E).
  destruct (urls_has_supported m v Hs Hv) as [value Hin].
  destruct (file_name_of_supported m v Hs Hv) as [Hf _].
  destruct (Hfiles _ _ Hin) as (b & Hb & Hl).
  exists (Spec.abbr m ++ "_2013_" ++ v)%string, value, b.
  assert (Ep : p = file_name_of (Spec.abbr m ++ "_2013_" ++ v)).
  { rewrite Hf, E. symmetry. exact (raster_path_literal m v Hs Hv). }
  split; [exact Hin|]. split; [exact Ep|]. split; [exact Hb|].
  rewrite Ep. exact Hl.
Qed.

Lemma fetched_rasters_resolve_witness :
  exists key value b,
    In (key, value) urls
    /\ "data/modis/jun_2013_chlor_a.nc" = file_name_of key
    /\ Ex.net_ok value = Body b
    /\ lookup "data/modis/jun_2013_chlor_a.nc" (fs after_fetch_ok) = Some (File b).
Proof.
  apply (fetched_rasters_resolve Ex.net_ok Ex.empty_disk after_fetch_ok Ex.csv "chlor_a").
  - vm_compute. reflexivity.
  - reflexivity.
Defined.

End FetcherExtras.
